(** * The contact book of [classes.py]: fields, records, the address book

    A shallow embedding of [src/classes.py].  Python strings are sequences
    of Unicode code points; exceptions are a value of [result]; the clock
    read by [datetime.now()] is an argument; the records of the book live
    in a store of objects and the book maps names to references, so that
    what a page of the paging generator shows is what Python shows. *)

From Stdlib Require Import ZArith NArith List Bool String Ascii Lia Setoid.
From Stdlib Require Import DecimalString.
Import ListNotations.

(** ** Python strings *)

(** A [str] is a sequence of code points. *)
Definition char := N.
Definition str := list char.

(** The code points of an ASCII literal. *)
Definition lit (s : string) : str :=
  map N_of_ascii (list_ascii_of_string s).

Definition char_eqb (a b : char) : bool := N.eqb a b.

Fixpoint str_eqb (a b : str) : bool :=
  match a, b with
  | [], [] => true
  | x :: a', y :: b' => char_eqb x y && str_eqb a' b'
  | _, _ => false
  end.

(** [len(s)] *)
Definition len {A : Type} (l : list A) : Z := Z.of_nat (List.length l).

(** Truth value of a string: [if s:] holds for a non-empty string. *)
Definition truthy (s : str) : bool :=
  match s with [] => false | _ :: _ => true end.

(** Truth value of an optional string argument ([None] or a string). *)
Definition given (o : option str) : bool :=
  match o with None => false | Some s => truthy s end.

(** *** Character classes

    [unicodedata] 14.0.0, the tables of CPython 3.11.  A decimal digit
    (category Nd, Numeric_Type=Decimal) belongs to a run of ten code
    points ZERO..NINE; [decimal_zeros] lists the ZERO of every run. *)
Definition decimal_zeros : list N :=
  [48; 1632; 1776; 1984; 2406; 2534; 2662; 2790; 2918; 3046; 3174; 3302;
   3430; 3558; 3664; 3792; 3872; 4160; 4240; 6112; 6160; 6470; 6608; 6784;
   6800; 6992; 7088; 7232; 7248; 42528; 43216; 43264; 43472; 43504; 43600;
   44016; 65296; 66720; 68912; 69734; 69872; 69942; 70096; 70384; 70736;
   70864; 71248; 71360; 71472; 71904; 72016; 72784; 73040; 73120; 92768;
   92864; 93008; 120782; 120792; 120802; 120812; 120822; 123200; 123632;
   125264; 130032]%N.

(** The value of a decimal digit, as [int()] and [unicodedata.decimal]
    read it. *)
Definition decimal_value (c : char) : option N :=
  match find (fun z => (z <=? c)%N && (c <? z + 10)%N) decimal_zeros with
  | Some z => Some (c - z)%N
  | None => None
  end.

(** [c.isdecimal()]; also the class [\d] of [re] on a [str] pattern. *)
Definition isdecimal_char (c : char) : bool :=
  match decimal_value c with Some _ => true | None => false end.

(** Code points with Numeric_Type=Digit that are not decimal: superscripts,
    subscripts, circled and parenthesised digits and the like. *)
Definition digit_ranges : list (N * N) :=
  [(178, 179); (185, 185); (4969, 4977); (6618, 6618); (8304, 8304);
   (8308, 8313); (8320, 8329); (9312, 9320); (9332, 9340); (9352, 9360);
   (9450, 9450); (9461, 9469); (9471, 9471); (10102, 10110);
   (10112, 10120); (10122, 10130); (68160, 68163); (69216, 69224);
   (69714, 69722); (127232, 127242)]%N.

(** One character of [str.isdigit]: Numeric_Type is Digit or Decimal. *)
Definition isdigit_char (c : char) : bool :=
  isdecimal_char c
  || existsb (fun r => (fst r <=? c)%N && (c <=? snd r)%N) digit_ranges.

(** [s.isdigit()]: every character is a digit and there is at least one. *)
Definition isdigit (s : str) : bool :=
  truthy s && forallb isdigit_char s.

(** The characters [0-9] of the specification. *)
Definition is_ascii_digit (c : char) : bool :=
  (48 <=? c)%N && (c <=? 57)%N.

(** The class [[A-Za-z]]. *)
Definition is_ascii_letter (c : char) : bool :=
  ((65 <=? c)%N && (c <=? 90)%N) || ((97 <=? c)%N && (c <=? 122)%N).

(** ** Exceptions *)

(** The [ValueError]s of the module and of [datetime], by message. *)
Inductive message : Type :=
| NameCannotBeEmpty
| NameOnlyLetters (value : str)
| IncorrectPhoneFormat (value : str)
| IncorrectBirthdayFormat (value : str)
| AtMostTwoPhones
| NumberDoesNotExist (value : str)
| YearOutOfRange (year : Z)
| MonthOutOfRange
| DayOutOfRange
| TimeOutOfRange
| DoesNotMatchFormat
| UnconvertedDataRemains
| InvalidLiteralForInt.

Inductive exn : Type :=
| ValueError (m : message).

Inductive result (A : Type) : Type :=
| Ok (a : A)
| Raise (e : exn).

Arguments Ok {A} a.
Arguments Raise {A} e.

Definition bind {A B : Type} (r : result A) (k : A -> result B) : result B :=
  match r with
  | Ok a => k a
  | Raise e => Raise e
  end.

Declare Scope result_scope.
Delimit Scope result_scope with result.
Notation "x <- r ;; k" := (bind r (fun x => k))
  (at level 100, r at next level, right associativity) : result_scope.

(** ** Fields *)

Module Name.

(** [re]'s [$] outside MULTILINE mode: the end of the string, or just
    before a newline that is the last character. *)
Definition at_dollar (rest : str) : bool :=
  match rest with
  | [] => true
  | [c] => char_eqb c 10%N
  | _ => false
  end.

(** [re.match(r"^[A-Za-z]*$", s)]: the greedy star takes the longest run
    of letters; giving a letter back cannot help, for [$] does not match
    before a letter. *)
Fixpoint re_match (s : str) : bool :=
  match s with
  | c :: s' => if is_ascii_letter c then re_match s' else at_dollar s
  | [] => at_dollar s
  end.

Record t : Type := mk { value : str }.

(** The [value] setter, which [Name(value)] runs through
    [Field.__init__]. *)
Definition new (new_value : str) : result t :=
  if negb (truthy new_value) then Raise (ValueError NameCannotBeEmpty)
  else if negb (re_match new_value)
       then Raise (ValueError (NameOnlyLetters new_value))
       else Ok (mk new_value).

End Name.

Module Phone.

Record t : Type := mk { value : str }.

(** The test of the [value] setter, repeated in [Record.edit_phone]. *)
Definition bad_format (new_value : str) : bool :=
  negb (len new_value =? 10)%Z || negb (isdigit new_value).

Definition new (new_value : str) : result t :=
  if bad_format new_value
  then Raise (ValueError (IncorrectPhoneFormat new_value))
  else Ok (mk new_value).

(** [self.value = new_value] on an existing phone: the same setter. *)
Definition set_value (self : t) (new_value : str) : result t :=
  new new_value.

End Phone.

(** ** [datetime]

    The part of the standard library's [datetime] that [Birthday] and
    [Record.days_to_birthday] use, after [Lib/datetime.py]. *)

Module datetime.

Local Open Scope Z_scope.

Record t : Type := mk {
  year : Z; month : Z; day : Z;
  hour : Z; minute : Z; second : Z; microsecond : Z
}.

Definition MINYEAR : Z := 1.
Definition MAXYEAR : Z := 9999.

Definition _is_leap (year : Z) : bool :=
  (year mod 4 =? 0) && (negb (year mod 100 =? 0) || (year mod 400 =? 0)).

Definition _days_before_year (year : Z) : Z :=
  let y := year - 1 in
  y * 365 + y / 4 - y / 100 + y / 400.

Definition _DAYS_IN_MONTH (month : Z) : Z :=
  match month with
  | 1 => 31 | 2 => 28 | 3 => 31 | 4 => 30 | 5 => 31 | 6 => 30
  | 7 => 31 | 8 => 31 | 9 => 30 | 10 => 31 | 11 => 30 | 12 => 31
  | _ => 0
  end.

Definition _DAYS_BEFORE_MONTH (month : Z) : Z :=
  match month with
  | 1 => 0 | 2 => 31 | 3 => 59 | 4 => 90 | 5 => 120 | 6 => 151
  | 7 => 181 | 8 => 212 | 9 => 243 | 10 => 273 | 11 => 304 | 12 => 334
  | _ => 0
  end.

Definition _days_in_month (year month : Z) : Z :=
  if (month =? 2) && _is_leap year then 29 else _DAYS_IN_MONTH month.

Definition _days_before_month (year month : Z) : Z :=
  _DAYS_BEFORE_MONTH month
  + (if (2 <? month) && _is_leap year then 1 else 0).

Definition _ymd2ord (year month day : Z) : Z :=
  _days_before_year year + _days_before_month year month + day.

Definition _check_date_fields (year month day : Z) : result unit :=
  if negb ((MINYEAR <=? year) && (year <=? MAXYEAR))
  then Raise (ValueError (YearOutOfRange year))
  else if negb ((1 <=? month) && (month <=? 12))
  then Raise (ValueError MonthOutOfRange)
  else if negb ((1 <=? day) && (day <=? _days_in_month year month))
  then Raise (ValueError DayOutOfRange)
  else Ok tt.

Definition _check_time_fields (hour minute second microsecond : Z)
  : result unit :=
  if (0 <=? hour) && (hour <=? 23) && (0 <=? minute) && (minute <=? 59)
     && (0 <=? second) && (second <=? 59)
     && (0 <=? microsecond) && (microsecond <=? 999999)
  then Ok tt
  else Raise (ValueError TimeOutOfRange).

(** [datetime(year, month, day, hour, minute, second, microsecond)] *)
Definition new (year month day hour minute second microsecond : Z)
  : result t :=
  (_ <- _check_date_fields year month day ;;
   _ <- _check_time_fields hour minute second microsecond ;;
   Ok (mk year month day hour minute second microsecond))%result.

(** [self.replace(year=year)] *)
Definition replace_year (self : t) (year : Z) : result t :=
  new year (month self) (day self)
      (hour self) (minute self) (second self) (microsecond self).

Definition toordinal (self : t) : Z :=
  _ymd2ord (year self) (month self) (day self).

(** Comparison goes through the tuple of the seven fields. *)
Definition fields (self : t) : list Z :=
  [year self; month self; day self;
   hour self; minute self; second self; microsecond self].

Fixpoint tuple_gtb (a b : list Z) : bool :=
  match a, b with
  | x :: a', y :: b' => (y <? x) || ((x =? y) && tuple_gtb a' b')
  | _ :: _, [] => true
  | [], _ => false
  end.

(** [self > other] *)
Definition gtb (self other : t) : bool :=
  tuple_gtb (fields self) (fields other).

(** A [timedelta] in its normal form: [0 <= seconds < 86400] and
    [0 <= microseconds < 1000000]; [days] carries the sign. *)
Record timedelta : Type := mk_timedelta {
  days : Z; seconds : Z; microseconds : Z
}.

(** [timedelta(days, seconds, microseconds)] on integers: the carries of
    the constructor's [divmod]s leave the floor quotient in [days]. *)
Definition timedelta_new (d s us : Z) : timedelta :=
  let s' := s + us / 1000000 in
  mk_timedelta (d + s' / 86400) (s' mod 86400) (us mod 1000000).

(** [self - other] of two naive datetimes *)
Definition sub (self other : t) : timedelta :=
  let days1 := toordinal self in
  let days2 := toordinal other in
  let secs1 := second self + minute self * 60 + hour self * 3600 in
  let secs2 := second other + minute other * 60 + hour other * 3600 in
  timedelta_new (days1 - days2) (secs1 - secs2)
                (microsecond self - microsecond other).

(** What [datetime.now()] can return. *)
Definition valid (self : t) : Prop :=
  new (year self) (month self) (day self) (hour self) (minute self)
      (second self) (microsecond self) = Ok self.

End datetime.

(** ** [datetime.strptime(s, "%Y-%m-%d")]

    After [Lib/_strptime.py]: the format compiles to the regular expression
    [(?P<Y>\d\d\d\d)-(?P<m>1[0-2]|0[1-9]|[1-9])-(?P<d>3[0-1]|[1-2]\d|0[1-9]|[1-9]| [1-9])],
    matched at the start of the string; text left over is an error. *)

Module strptime.

(** A piece of a pattern gives every way it matches a prefix of the
    input, as (matched text, rest), in the order in which the
    backtracking matcher of [re] tries them. *)
Definition matcher := str -> list (str * str).

Definition class (p : char -> bool) : matcher :=
  fun s =>
    match s with
    | c :: rest => if p c then [([c], rest)] else []
    | [] => []
    end.

Definition seq (a b : matcher) : matcher :=
  fun s =>
    flat_map (fun xr => map (fun yr => (fst xr ++ fst yr, snd yr))
                            (b (snd xr)))
             (a s).

Definition alt (a b : matcher) : matcher :=
  fun s => a s ++ b s.

Definition chr (c : char) : matcher := class (char_eqb c).

Definition range (lo hi : char) : matcher :=
  class (fun c => (lo <=? c)%N && (c <=? hi)%N).

(** [\d] *)
Definition digit : matcher := class isdecimal_char.

Definition c0 : char := 48%N.
Definition c1 : char := 49%N.
Definition c2 : char := 50%N.
Definition c3 : char := 51%N.
Definition c9 : char := 57%N.
Definition space : char := 32%N.
Definition dash : char := 45%N.

Definition group_Y : matcher := seq digit (seq digit (seq digit digit)).

Definition group_m : matcher :=
  alt (seq (chr c1) (range c0 c2))
 (alt (seq (chr c0) (range c1 c9))
      (range c1 c9)).

Definition group_d : matcher :=
  alt (seq (chr c3) (range c0 c1))
 (alt (seq (range c1 c2) digit)
 (alt (seq (chr c0) (range c1 c9))
 (alt (range c1 c9)
      (seq (chr space) (range c1 c9))))).

(** [format_regex.match(data_string)]: the first success, as the groups
    Y, m, d and the text after [found.end()]. *)
Definition format_regex (data_string : str)
  : option (str * str * str * str) :=
  hd_error
    (flat_map (fun Y =>
     flat_map (fun d1 =>
     flat_map (fun m =>
     flat_map (fun d2 =>
     map (fun d => (fst Y, fst m, fst d, snd d))
         (group_d (snd d2)))
         (chr dash (snd m)))
         (group_m (snd d1)))
         (chr dash (snd Y)))
         (group_Y data_string)).

(** [int(s)] on the text of a group: blanks before the number are
    skipped, then every character is a decimal digit. *)
Fixpoint digits_value (acc : Z) (s : str) : option Z :=
  match s with
  | [] => Some acc
  | c :: rest =>
      match decimal_value c with
      | Some v => digits_value (10 * acc + Z.of_N v)%Z rest
      | None => None
      end
  end.

Fixpoint int (s : str) : result Z :=
  match s with
  | [] => Raise (ValueError InvalidLiteralForInt)
  | c :: rest =>
      if char_eqb c space then int rest
      else match digits_value 0 s with
           | Some n => Ok n
           | None => Raise (ValueError InvalidLiteralForInt)
           end
  end.

Definition run (data_string : str) : result datetime.t :=
  match format_regex data_string with
  | None => Raise (ValueError DoesNotMatchFormat)
  | Some (Y, m, d, rest) =>
      if truthy rest then Raise (ValueError UnconvertedDataRemains)
      else
        (year <- int Y ;;
         month <- int m ;;
         day <- int d ;;
         (* julian = date(year, month, day).toordinal() - ... *)
         _ <- datetime._check_date_fields year month day ;;
         datetime.new year month day 0 0 0 0)%result
  end.

End strptime.

Module Birthday.

Record t : Type := mk { value : str; date : datetime.t }.

(** The [value] setter: any [ValueError] of [strptime] is replaced by
    the module's own. *)
Definition new (new_value : str) : result t :=
  match strptime.run new_value with
  | Ok d => Ok (mk new_value d)
  | Raise (ValueError _) =>
      Raise (ValueError (IncorrectBirthdayFormat new_value))
  end.

End Birthday.

(** ** [class Record] *)

Module ContactRecord.

Record t : Type := mk {
  name : Name.t;
  phones : list Phone.t;
  birthday : option Birthday.t
}.

Definition set_phones (self : t) (ps : list Phone.t) : t :=
  mk (name self) ps (birthday self).

(** A method returns its outcome and the object as the call leaves it,
    also when it raises. *)
Definition method (A : Type) : Type := t -> result A * t.

(** [Record(name, birthday)] *)
Definition new (name_ : str) (birthday_ : option str) : result t :=
  (n <- Name.new name_ ;;
   match birthday_ with
   | Some b =>
       if truthy b
       then (b' <- Birthday.new b ;; Ok (mk n [] (Some b')))
       else Ok (mk n [] None)
   | None => Ok (mk n [] None)
   end)%result.

Definition add_phone (phone : str) : method unit :=
  fun self =>
    if (len (phones self) <? 2)%Z then
      match Phone.new phone with
      | Ok phone_item => (Ok tt, set_phones self (phones self ++ [phone_item]))
      | Raise e => (Raise e, self)
      end
    else (Raise (ValueError AtMostTwoPhones), self).

Definition remove_phone (phone : str) : method unit :=
  fun self =>
    (Ok tt,
     set_phones self
       (filter (fun p => negb (str_eqb (Phone.value p) phone))
               (phones self))).

(** The loop of [edit_phone] over the phone objects: the assignment
    [phone_item.value = new_phone] runs the setter of [Phone].  It gives
    [found] and the phones as the loop leaves them. *)
Fixpoint edit_loop (old_phone new_phone : str) (ps : list Phone.t)
         (found : bool) : result bool * list Phone.t :=
  match ps with
  | [] => (Ok found, [])
  | phone_item :: rest =>
      if str_eqb (Phone.value phone_item) old_phone then
        match Phone.set_value phone_item new_phone with
        | Ok p' =>
            let r := edit_loop old_phone new_phone rest true in
            (fst r, p' :: snd r)
        | Raise e => (Raise e, phone_item :: rest)
        end
      else
        let r := edit_loop old_phone new_phone rest found in
        (fst r, phone_item :: snd r)
  end.

Definition edit_phone (old_phone new_phone : str) : method unit :=
  fun self =>
    if Phone.bad_format new_phone
    then (Raise (ValueError (IncorrectPhoneFormat new_phone)), self)
    else
      let r := edit_loop old_phone new_phone (phones self) false in
      match fst r with
      | Ok found =>
          if negb found
          then (Raise (ValueError (NumberDoesNotExist old_phone)),
                set_phones self (snd r))
          else (Ok tt, set_phones self (snd r))
      | Raise e => (Raise e, set_phones self (snd r))
      end.

Definition find_phone (phone : str) (self : t) : option Phone.t :=
  find (fun p => str_eqb (Phone.value p) phone) (phones self).

(** [days_to_birthday], with the value of [datetime.now()] as
    [today]. *)
Definition days_to_birthday (self : t) (today : datetime.t)
  : result (option Z) :=
  match birthday self with
  | Some b =>
      (birthdate <- datetime.replace_year (Birthday.date b)
                                          (datetime.year today) ;;
       birthdate <- (if datetime.gtb today birthdate
                     then datetime.replace_year birthdate
                                                (datetime.year today + 1)
                     else Ok birthdate) ;;
       let delta := datetime.sub birthdate today in
       Ok (Some (datetime.days delta)))%result
  | None => Ok None
  end.

(** The records a program can hold: made by the constructor and changed
    by the methods only. *)
Inductive reachable : t -> Prop :=
| reach_new name_ birthday_ self :
    new name_ birthday_ = Ok self -> reachable self
| reach_add_phone phone self :
    reachable self -> reachable (snd (add_phone phone self))
| reach_remove_phone phone self :
    reachable self -> reachable (snd (remove_phone phone self))
| reach_edit_phone old_phone new_phone self :
    reachable self ->
    reachable (snd (edit_phone old_phone new_phone self)).

End ContactRecord.

(** ** [class AddressBook] *)

Module AddressBook.

Local Open Scope Z_scope.

(** The [Record] objects created so far; a reference is an index.  Two
    holders of one reference see the same object. *)
Definition ref := nat.

(** A [dict] from names to records, in insertion order. *)
Definition dict := list (str * ref).

Fixpoint dict_get (d : dict) (k : str) : option ref :=
  match d with
  | [] => None
  | (k', v) :: d' => if str_eqb k' k then Some v else dict_get d' k
  end.

(** [k in d] *)
Definition dict_contains (d : dict) (k : str) : bool :=
  match dict_get d k with Some _ => true | None => false end.

(** [d[k] = v]: a present key keeps its place, a new key goes last. *)
Fixpoint dict_set (d : dict) (k : str) (v : ref) : dict :=
  match d with
  | [] => [(k, v)]
  | (k', v') :: d' =>
      if str_eqb k' k then (k', v) :: d' else (k', v') :: dict_set d' k v
  end.

(** [del d[k]] *)
Fixpoint dict_del (d : dict) (k : str) : dict :=
  match d with
  | [] => []
  | (k', v') :: d' =>
      if str_eqb k' k then d' else (k', v') :: dict_del d' k
  end.

(** [list(d.values())] *)
Definition dict_values (d : dict) : list ref := map snd d.

(** The objects of the program and the [data] of the book. *)
Record store : Type := mk {
  objects : list ContactRecord.t;
  data : dict
}.

Definition empty : store := mk [] [].

Definition deref (s : store) (r : ref) : option ContactRecord.t :=
  nth_error (objects s) r.

(** A new object and its reference. *)
Definition alloc (o : ContactRecord.t) (s : store) : ref * store :=
  (List.length (objects s), mk (objects s ++ [o]) (data s)).

(** A method call on the object behind a reference. *)
Definition call {A : Type} (r : ref) (m : ContactRecord.method A)
           (s : store) : option (result A * store) :=
  match deref s r with
  | Some o =>
      let res := m o in
      Some (fst res,
            mk (firstn r (objects s) ++ snd res :: skipn (S r) (objects s))
               (data s))
  | None => None
  end.

Definition add_record (record : ref) (s : store) : store :=
  match deref s record with
  | Some o =>
      mk (objects s)
         (dict_set (data s) (Name.value (ContactRecord.name o)) record)
  | None => s
  end.

Definition find (name : str) (s : store) : option ref :=
  dict_get (data s) name.

Definition delete (name : str) (s : store) : store :=
  if dict_contains (data s) name
  then mk (objects s) (dict_del (data s) name)
  else s.

(** What [add_contact] prints. *)
Inductive printed : Type :=
| AlreadyExists (name : str)
| ErrorText (m : message)
| ContactAdded (name : str)
| InvalidContactName.

(** [Phone(phone2)] under [if phone2:]. *)
Definition phone2_field (phone2 : option str) : result (option Phone.t) :=
  match phone2 with
  | Some p =>
      if truthy p
      then (f <- Phone.new p ;; Ok (Some f))%result
      else Ok None
  | None => Ok None
  end.

(** The two [add_phone] calls on the new record, outside any [try]. *)
Definition add_phones (phone1_field : Phone.t) (phone2_ : option Phone.t)
           (record : ContactRecord.t) : result ContactRecord.t :=
  match ContactRecord.add_phone (Phone.value phone1_field) record with
  | (Ok _, record1) =>
      match phone2_ with
      | Some f =>
          match ContactRecord.add_phone (Phone.value f) record1 with
          | (Ok _, record2) => Ok record2
          | (Raise e, _) => Raise e
          end
      | None => Ok record1
      end
  | (Raise e, _) => Raise e
  end.

Definition add_contact (name phone1 : str) (phone2 birthday : option str)
           (s : store) : result printed * store :=
  if truthy name then
    if dict_contains (data s) name then (Ok (AlreadyExists name), s)
    else
      match Name.new name with
      | Raise (ValueError m) => (Ok (ErrorText m), s)
      | Ok name_field =>
      match Phone.new phone1 with
      | Raise (ValueError m) => (Ok (ErrorText m), s)
      | Ok phone1_field =>
      match phone2_field phone2 with
      | Raise (ValueError m) => (Ok (ErrorText m), s)
      | Ok phone2_ =>
      match ContactRecord.new (Name.value name_field) birthday with
      | Raise (ValueError m) => (Ok (ErrorText m), s)
      | Ok record =>
      match add_phones phone1_field phone2_ record with
      | Raise e => (Raise e, s)
      | Ok record' =>
          let a := alloc record' s in
          (Ok (ContactAdded name), add_record (fst a) (snd a))
      end end end end end
  else (Ok InvalidContactName, s).

(** *** The paging generator *)

(** A slice bound of a list of length [n], as [list.__getitem__]
    adjusts it. *)
Definition adjust (n k : Z) : Z :=
  if k <? 0 then Z.max 0 (k + n) else Z.min k n.

(** [l[i:j]] *)
Definition slice {A : Type} (l : list A) (i j : Z) : list A :=
  let i' := adjust (len l) i in
  let j' := adjust (len l) j in
  firstn (Z.to_nat (j' - i')) (skipn (Z.to_nat i') l).

(** The generator object [book.iterator(page_size)]: created and not yet
    run; suspended at the [yield] with its locals; or finished. *)
Inductive generator : Type :=
| Created (page_size : Z)
| Suspended (total_records : Z) (records : list ref)
            (current_page page_size : Z)
| Finished.

(** Calling the generator function runs none of its body. *)
Definition iterator (page_size : Z) : generator := Created page_size.

(** From the test of the [while] to the next [yield] or to the end. *)
Definition loop (total_records : Z) (records : list ref)
           (current_page page_size : Z)
  : option (list ref) * generator :=
  if current_page <? total_records
  then (Some (slice records current_page (current_page + page_size)),
        Suspended total_records records current_page page_size)
  else (None, Finished).

(** [next(g)] while the book is [s]: a page, or [None] for
    [StopIteration]. *)
Definition next (g : generator) (s : store)
  : option (list ref) * generator :=
  match g with
  | Created page_size =>
      let total_records := len (data s) in
      let records := dict_values (data s) in
      loop total_records records 0 page_size
  | Suspended total_records records current_page page_size =>
      loop total_records records (current_page + page_size) page_size
  | Finished => (None, Finished)
  end.

(** A consumer that asks for pages until [StopIteration]; the k-th
    request finds the book as the k-th store of [stores]. *)
Fixpoint drive (g : generator) (stores : list store)
  : list (list ref) * generator :=
  match stores with
  | [] => ([], g)
  | s :: rest =>
      match next g s with
      | (Some page, g') =>
          let r := drive g' rest in (page :: fst r, snd r)
      | (None, g') => ([], g')
      end
  end.

End AddressBook.

(** ** The text of a record and the reporting methods of the book *)

Module Show.

Import AddressBook.

Definition ESC : char := 27%N.
Definition RED : str := ESC :: lit "[91m".
Definition GREEN : str := ESC :: lit "[92m".
Definition MAGENTA : str := ESC :: lit "[95m".
Definition AQUA : str := ESC :: lit "[96m".
Definition RESET : str := ESC :: lit "[0m".

(** [str(n)] of an [int] *)
Definition str_of_int (n : Z) : str :=
  lit (NilZero.string_of_int (Z.to_int n)).

(** An [int] or [None] inside an f-string. *)
Definition format_days (d : option Z) : str :=
  match d with
  | Some n => str_of_int n
  | None => lit "None"
  end.

(** [sep.join(items)] *)
Fixpoint join (sep : str) (items : list str) : str :=
  match items with
  | [] => []
  | [x] => x
  | x :: rest => x ++ sep ++ join sep rest
  end.

(** [Field.__str__], which [Phone] inherits: [str(self.value)] *)
Definition Phone__str__ (self : Phone.t) : str := Phone.value self.

(** [Birthday.__str__] *)
Definition Birthday__str__ (self : Birthday.t) : str := Birthday.value self.

(** [Record.__str__]; [today] is what [datetime.now()] gives inside
    [days_to_birthday], which is called only when there is a birthday. *)
Definition Record__str__ (self : ContactRecord.t) (today : datetime.t)
  : result str :=
  let phone_str :=
    join (lit "; ") (map Phone__str__ (ContactRecord.phones self)) in
  let birthday_str :=
    match ContactRecord.birthday self with
    | Some b => lit "Birthday: " ++ AQUA ++ Birthday__str__ b
    | None => []
    end in
  (days_to_birthday <-
     match ContactRecord.birthday self with
     | Some _ =>
         (d <- ContactRecord.days_to_birthday self today ;;
          Ok (lit "Days to Birth: " ++ AQUA ++ format_days d))
     | None => Ok []
     end ;;
   Ok (MAGENTA ++ lit "Contact name: " ++ AQUA
       ++ Name.value (ContactRecord.name self) ++ lit "," ++ MAGENTA
       ++ lit " phones:" ++ AQUA ++ lit " " ++ phone_str ++ lit ", "
       ++ MAGENTA ++ lit " " ++ birthday_str ++ lit ", " ++ MAGENTA
       ++ days_to_birthday ++ RESET))%result.

(** What [find_contact], [delete_contact] and [show_all_contacts]
    print. *)
Inductive report : Type :=
| RecordText (text : str)
| ContactNotFound (name : str)
| ContactDeleted (name : str).

(** [find_contact]: a record is always true, so the test is on [None]. A
    reference always has its object; one that had none would count as
    not found. *)
Definition find_contact (name : str) (s : store) (today : datetime.t)
  : result report :=
  match find name s with
  | Some found_record =>
      match deref s found_record with
      | Some o =>
          (text <- Record__str__ o today ;; Ok (RecordText text))%result
      | None => Ok (ContactNotFound name)
      end
  | None => Ok (ContactNotFound name)
  end.

Definition delete_contact (name : str) (s : store) : report * store :=
  if dict_contains (data s) name
  then (ContactDeleted name, mk (objects s) (dict_del (data s) name))
  else (ContactNotFound name, s).

(** The loop of [show_all_contacts] over the values: the lines printed
    and how the loop ended.  The k-th record printed reads the clock as
    [clock k]. *)
Fixpoint print_records (records : list ref) (s : store)
         (clock : nat -> datetime.t) (k : nat) : list str * result unit :=
  match records with
  | [] => ([], Ok tt)
  | record :: rest =>
      match deref s record with
      | Some o =>
          match Record__str__ o (clock k) with
          | Ok text =>
              let r := print_records rest s clock (S k) in
              (text :: fst r, snd r)
          | Raise e => ([], Raise e)
          end
      | None => print_records rest s clock k
      end
  end.

Definition show_all_contacts (s : store) (clock : nat -> datetime.t)
  : list str * result unit :=
  print_records (dict_values (data s)) s clock 0.

(** The methods of [Record] that change it. *)
Inductive record_method : ContactRecord.method unit -> Prop :=
| by_add_phone phone : record_method (ContactRecord.add_phone phone)
| by_remove_phone phone : record_method (ContactRecord.remove_phone phone)
| by_edit_phone old_phone new_phone :
    record_method (ContactRecord.edit_phone old_phone new_phone).

(** The books a program can reach from the empty book: by [add_contact],
    by [add_record] of a new record, by [delete] (or [delete_contact]),
    and by a method call on a record that [find] gave. *)
Inductive book_reachable : store -> Prop :=
| book_empty : book_reachable empty
| book_add_contact name phone1 phone2 birthday s :
    book_reachable s ->
    book_reachable (snd (add_contact name phone1 phone2 birthday s))
| book_add_record o s :
    book_reachable s -> ContactRecord.reachable o ->
    book_reachable (add_record (fst (alloc o s)) (snd (alloc o s)))
| book_delete name s :
    book_reachable s -> book_reachable (delete name s)
| book_method name r m res s s' :
    book_reachable s -> find name s = Some r -> record_method m ->
    call r m s = Some (res, s') -> book_reachable s'.

End Show.

(** * The program of [main.py]

    [main.py] has its own copies of the classes.  [Record] and the methods
    of [AddressBook] other than [add_contact] are those of [classes.py]
    word for word.  The fields differ: [Name] checks nothing; [Phone] and
    [Birthday] make their checks, the same ones, in [__init__], and
    [value] is a plain attribute.  Their [ValueError]s carry other texts
    than those of [classes.py]; a [message] stands for the kind of the
    error and its data. *)

Module Main.

Import AddressBook.

Local Open Scope Z_scope.

(** [c.isspace()], which [str.strip()] and [str.split()] use: the
    characters of bidirectional type WS, B or S and of category Zs. *)
Definition isspace (c : char) : bool :=
  ((9 <=? c) && (c <=? 13) || (28 <=? c) && (c <=? 32) || (c =? 133)
   || (c =? 160) || (c =? 5760) || (8192 <=? c) && (c <=? 8202)
   || (c =? 8232) || (c =? 8233) || (c =? 8239) || (c =? 8287)
   || (c =? 12288))%N.

Fixpoint lstrip (s : str) : str :=
  match s with
  | [] => []
  | c :: rest => if isspace c then lstrip rest else s
  end.

Definition rstrip (s : str) : str := rev (lstrip (rev s)).

(** [s.strip()] *)
Definition strip (s : str) : str := rstrip (lstrip s).

(** [s.split()] from the character after [word], the part of a word read
    so far. *)
Fixpoint split_from (word : str) (s : str) : list str :=
  match s with
  | [] => match word with [] => [] | _ :: _ => [word] end
  | c :: rest =>
      if isspace c
      then match word with
           | [] => split_from [] rest
           | _ :: _ => word :: split_from [] rest
           end
      else split_from (word ++ [c]) rest
  end.

(** [s.split()]: the words between runs of whitespace. *)
Definition split (s : str) : list str := split_from [] s.

(** [Record(name, birthday)]: [Name(name)] takes any value. *)
Definition Record_new (name_ : str) (birthday_ : option str)
  : result ContactRecord.t :=
  match birthday_ with
  | Some b =>
      if truthy b
      then (b' <- Birthday.new b ;;
            Ok (ContactRecord.mk (Name.mk name_) [] (Some b')))%result
      else Ok (ContactRecord.mk (Name.mk name_) [] None)
  | None => Ok (ContactRecord.mk (Name.mk name_) [] None)
  end.

(** The loop of [edit_phone]: here [phone_item.value = new_phone] is a
    plain assignment. *)
Fixpoint edit_loop (old_phone new_phone : str) (ps : list Phone.t)
         (found : bool) : bool * list Phone.t :=
  match ps with
  | [] => (found, [])
  | phone_item :: rest =>
      if str_eqb (Phone.value phone_item) old_phone then
        let r := edit_loop old_phone new_phone rest true in
        (fst r, Phone.mk new_phone :: snd r)
      else
        let r := edit_loop old_phone new_phone rest found in
        (fst r, phone_item :: snd r)
  end.

Definition edit_phone (old_phone new_phone : str)
  : ContactRecord.method unit :=
  fun self =>
    if Phone.bad_format new_phone
    then (Raise (ValueError (IncorrectPhoneFormat new_phone)), self)
    else
      let r := edit_loop old_phone new_phone
                         (ContactRecord.phones self) false in
      if negb (fst r)
      then (Raise (ValueError (NumberDoesNotExist old_phone)),
            ContactRecord.set_phones self (snd r))
      else (Ok tt, ContactRecord.set_phones self (snd r)).

(** What [add_contact] prints. *)
Inductive printed : Type :=
| AlreadyExists (name : str)
| IncorrectPhone1 (phone1 : str)
| IncorrectPhone2 (phone2 : str)
| ErrorText (m : message)
| ContactAdded (name : str)
| InvalidContactName.

(** [phone2 and (len(phone2) != 10 or not phone2.isdigit())] *)
Definition bad_phone2 (phone2 : option str) : option str :=
  match phone2 with
  | Some p => if truthy p && Phone.bad_format p then Some p else None
  | None => None
  end.

(** [record.add_phone(phone2)] under [if phone2:]. *)
Definition add_phone2 (phone2 : option str) : ContactRecord.method unit :=
  fun record =>
    match phone2 with
    | Some p =>
        if truthy p then ContactRecord.add_phone p record
        else (Ok tt, record)
    | None => (Ok tt, record)
    end.

Definition add_contact (name phone1 : str) (phone2 birthday : option str)
           (s : store) : result printed * store :=
  if truthy name then
    if dict_contains (data s) name then (Ok (AlreadyExists name), s)
    else if Phone.bad_format phone1 then (Ok (IncorrectPhone1 phone1), s)
    else
      match bad_phone2 phone2 with
      | Some p => (Ok (IncorrectPhone2 p), s)
      | None =>
      match Record_new name birthday with
      | Raise (ValueError m) => (Ok (ErrorText m), s)
      | Ok record =>
      match ContactRecord.add_phone phone1 record with
      | (Raise e, _) => (Raise e, s)
      | (Ok _, record1) =>
      match add_phone2 phone2 record1 with
      | (Raise e, _) => (Raise e, s)
      | (Ok _, record2) =>
          let a := alloc record2 s in
          (Ok (ContactAdded name), add_record (fst a) (snd a))
      end end end end
  else (Ok InvalidContactName, s).

(** What the program writes: the prompts of [input] and the lines of
    [print].  Writing is taken to succeed: the encoding of the output has
    every character that is written. *)
Inductive output : Type :=
| PromptCommand
| PromptPageSize
| PromptShowMore
| Goodbye
| AddReport (p : printed)
| InvalidAddArguments
| InvalidNumber
| PhoneEdited (name : str)
| EditError (m : message)
| EditNotFound (name : str)
| InvalidEditArguments
| Report (r : Show.report)
| InvalidFindArguments
| InvalidDeleteArguments
| UnknownCommand.

(** How the body of [main] ends: by [break]; by an exception of the
    classes; by the [EOFError] of [input] when the input has ended. *)
Inductive ending : Type :=
| Broke
| Raised (e : exn)
| EndOfInput
| OutOfFuel.

(** One command either leads back to the top of the [while], with the
    book, the input left and the count of clock readings, or ends the
    body. *)
Inductive control : Type :=
| Next (s : store) (inputs : list str) (k : nat)
| Stop (e : ending).

(** What a call of the decorated [main] gives. *)
Inductive outcome : Type :=
| Returns (value : option str)
| RaisesEOFError
| Unfinished.

(** The wrapper of [user_error] around the body: of the exceptions it
    catches, the body can raise [ValueError] only. *)
Definition user_error (e : ending) : outcome :=
  match e with
  | Broke => Returns None
  | Raised (ValueError _) => Returns (Some (lit "Error: Invalid value format."))
  | EndOfInput => RaisesEOFError
  | OutOfFuel => Unfinished
  end.

Section Program.

(** [str.lower] and [int] of a string are those of the interpreter in
    use: the first follows its Unicode tables, the second its limit on
    the number of digits.  [int] gives [None] for a [ValueError].  The
    readings of [datetime.now()] are [clock 0], [clock 1], ... *)
Variable lower : str -> str.
Variable int : str -> option Z.
Variable clock : nat -> datetime.t.

Definition parse_command (command : str) : option str * list str :=
  match split command with
  | [] => (None, [])
  | first :: args => (Some (lower first), args)
  end.

(** [action == "..."], where [action] can be [None]. *)
Definition action_is (action : option str) (word : string) : bool :=
  match action with
  | Some a => str_eqb a (lit word)
  | None => false
  end.

(** The [for] over the pages inside the [try] of the show command, from
    the request of a page on.  A [ValueError] out of [print(record)] is
    caught by the [except ValueError] of the command. *)
Fixpoint pages (inputs : list str) (g : generator) (s : store) (k : nat)
  : list output * control :=
  match next g s with
  | (None, _) => ([], Next s inputs k)
  | (Some page, g') =>
      let r := Show.print_records page s clock k in
      let texts := map (fun t => Report (Show.RecordText t)) (fst r) in
      let k' := (k + List.length (fst r))%nat in
      match snd r with
      | Raise (ValueError _) =>
          (texts ++ [InvalidNumber], Next s inputs (S k'))
      | Ok _ =>
          match inputs with
          | [] => (texts ++ [PromptShowMore], Stop EndOfInput)
          | show_more :: rest =>
              if negb (str_eqb (lower show_more) (lit "2"))
              then (texts ++ [PromptShowMore], Next s rest k')
              else
                let r' := pages rest g' s k' in
                (texts ++ PromptShowMore :: fst r', snd r')
          end
      end
  end.

(** The body of the [while] after the test for exit.  A record is always
    true in [if record:], so the test is on [None]; a reference always
    has its object, one that had none would count as not found. *)
Definition command (user_input : str) (s : store) (inputs : list str)
           (k : nat) : list output * control :=
  let (action, args) := parse_command user_input in
  if action_is action "add" then
    match args with
    | name :: phone1 :: more =>
        let phone2 := nth_error more 0 in
        let birthday := nth_error more 1 in
        match add_contact name phone1 phone2 birthday s with
        | (Ok p, s') => ([AddReport p], Next s' inputs k)
        | (Raise e, _) => ([], Stop (Raised e))
        end
    | _ => ([InvalidAddArguments], Next s inputs k)
    end
  else if action_is action "show" || action_is action "2" then
    match inputs with
    | [] => ([PromptPageSize], Stop EndOfInput)
    | page_size :: rest =>
        match int page_size with
        | Some n =>
            let r := pages rest (iterator n) s k in
            (PromptPageSize :: fst r, snd r)
        | None => ([PromptPageSize; InvalidNumber], Next s rest k)
        end
    end
  else if action_is action "edit" then
    match args with
    | [name; old_phone; new_phone] =>
        match find name s with
        | Some record =>
            match call record (edit_phone old_phone new_phone) s with
            | Some (Ok _, s') => ([PhoneEdited name], Next s' inputs k)
            | Some (Raise (ValueError m), s') =>
                ([EditError m], Next s' inputs k)
            | None => ([EditNotFound name], Next s inputs k)
            end
        | None => ([EditNotFound name], Next s inputs k)
        end
    | _ => ([InvalidEditArguments], Next s inputs k)
    end
  else if action_is action "find" then
    match args with
    | [name] =>
        match Show.find_contact name s (clock k) with
        | Ok r => ([Report r], Next s inputs (S k))
        | Raise e => ([], Stop (Raised e))
        end
    | _ => ([InvalidFindArguments], Next s inputs k)
    end
  else if action_is action "delete" then
    match args with
    | [name] =>
        let r := Show.delete_contact name s in
        ([Report (fst r)], Next (snd r) inputs k)
    | _ => ([InvalidDeleteArguments], Next s inputs k)
    end
  else ([UnknownCommand], Next s inputs k).

(** The [while True] of [main], at most [fuel] times round: a line is
    read and stripped; [exit] or [6] breaks; else the command runs. *)
Fixpoint main_loop (fuel : nat) (s : store) (inputs : list str) (k : nat)
  : list output * ending :=
  match fuel with
  | O => ([], OutOfFuel)
  | S fuel' =>
      match inputs with
      | [] => ([PromptCommand], EndOfInput)
      | line :: rest =>
          let user_input := strip line in
          if str_eqb user_input (lit "exit") || str_eqb user_input (lit "6")
          then ([PromptCommand; Goodbye], Broke)
          else
            let r := command user_input s rest k in
            match snd r with
            | Next s' inputs' k' =>
                let r' := main_loop fuel' s' inputs' k' in
                (PromptCommand :: fst r ++ fst r', snd r')
            | Stop e => (PromptCommand :: fst r, e)
            end
      end
  end.

(** [main()] on the lines [inputs] of the standard input: what is
    written and what the call gives. *)
Definition main (fuel : nat) (inputs : list str) : list output * outcome :=
  let r := main_loop fuel empty inputs 0 in
  (fst r, user_error (snd r)).

End Program.

End Main.

(** ** Notions of the specification

    None of these is in the source; the properties below are stated with
    them.  The specification speaks of the date-time that the birthday's
    month and day give in a year, of that date being strictly before now,
    and of the whole days between now and it: [stamp], [occurrence] and
    [whole_days] say it on the time line, for comparison with
    [ContactRecord.days_to_birthday].  It speaks of consecutive pages, all
    of one size but the last: [paged]. *)

(** The position of a naive date-time on the time line, in microseconds. *)
Definition stamp (d : datetime.t) : Z :=
  ((datetime.toordinal d * 86400
    + datetime.hour d * 3600 + datetime.minute d * 60 + datetime.second d)
   * 1000000 + datetime.microsecond d)%Z.

(** The birthday's month and day in [year], at midnight. *)
Definition occurrence (b : Birthday.t) (year : Z) : datetime.t :=
  datetime.mk year (datetime.month (Birthday.date b))
              (datetime.day (Birthday.date b)) 0 0 0 0.

(** Whole days from [now] to [target], rounded down. *)
Definition whole_days (now target : datetime.t) : Z :=
  ((stamp target - stamp now) / 86400000000)%Z.

(** The first instant of a day. *)
Definition midnight (d : datetime.t) : bool :=
  ((datetime.hour d =? 0) && (datetime.minute d =? 0)
   && (datetime.second d =? 0) && (datetime.microsecond d =? 0))%Z.

(** The phones of a new contact: the first, then the second if given. *)
Definition new_phones_of (p1 : Phone.t) (p2 : option Phone.t)
  : list Phone.t :=
  p1 :: match p2 with Some f => [f] | None => [] end.

(** [paged k l pages]: [pages] cuts [l] into consecutive pieces of [k]
    items, the last piece holding what remains (from 1 to [k] items). *)
Inductive paged {A : Type} (k : nat) : list A -> list (list A) -> Prop :=
| paged_nil : paged k [] []
| paged_last (l : list A) :
    l <> [] -> (List.length l <= k)%nat -> paged k l [l]
| paged_more (page rest : list A) (pages : list (list A)) :
    List.length page = k -> rest <> [] -> paged k rest pages ->
    paged k (page ++ rest) (page :: pages).

(** A generator whose body has begun to run. *)
Definition started (g : AddressBook.generator) : Prop :=
  match g with
  | AddressBook.Created _ => False
  | _ => True
  end.

(** The character of the decimal digit [d]. *)
Definition digit_char (d : Z) : char := (48 + Z.to_N d)%N.

(** A date written as [date.isoformat()] writes it: four digits of year,
    two of month, two of day, with dashes. *)
Definition isoformat (y m d : Z) : str :=
  ([digit_char (y / 1000); digit_char (y / 100 mod 10);
    digit_char (y / 10 mod 10); digit_char (y mod 10)]
   ++ [45%N; digit_char (m / 10); digit_char (m mod 10)]
   ++ [45%N; digit_char (d / 10); digit_char (d mod 10)])%Z.

(** The same date with its month and its day written with one digit
    each, as in 2000-1-1. *)
Definition unpadded (y m d : Z) : str :=
  ([digit_char (y / 1000); digit_char (y / 100 mod 10);
    digit_char (y / 10 mod 10); digit_char (y mod 10)]
   ++ [45%N; digit_char m] ++ [45%N; digit_char d])%Z.

(** What holds of every book a program can reach: no name twice, no
    record under two names, and every record there, made by the
    constructor and the methods, under its own name. *)
Definition book_ok (s : AddressBook.store) : Prop :=
  NoDup (map fst (AddressBook.data s)) /\
  NoDup (AddressBook.dict_values (AddressBook.data s)) /\
  forall k r, In (k, r) (AddressBook.data s) ->
    exists o, AddressBook.deref s r = Some o /\
              Name.value (ContactRecord.name o) = k /\
              ContactRecord.reachable o.

(** A word of a command line: not empty, and without whitespace. *)
Definition is_word (w : str) : bool :=
  truthy w && forallb (fun c => negb (Main.isspace c)) w.

(** Words written on one line with one blank between them. *)
Definition line (ws : list str) : str := Show.join (lit " ") ws.

(** [str.lower] on the letters A-Z, other characters kept. *)
Definition ascii_lower (s : str) : str :=
  map (fun c => if (65 <=? c)%N && (c <=? 90)%N then (c + 32)%N else c) s.

(** The text of a record as a reader sees it: the name, the phones with
    a semicolon and a blank between them, the string of the birthday if
    there is one and, with a birthday, the number of days [days], each
    part behind its label and its colour. *)
Definition record_text (o : ContactRecord.t) (days : option Z) : str :=
  Show.MAGENTA ++ lit "Contact name: " ++ Show.AQUA
  ++ Name.value (ContactRecord.name o) ++ lit "," ++ Show.MAGENTA
  ++ lit " phones:" ++ Show.AQUA ++ lit " "
  ++ Show.join (lit "; ") (map Phone.value (ContactRecord.phones o))
  ++ lit ", " ++ Show.MAGENTA ++ lit " "
  ++ match ContactRecord.birthday o with
     | Some b => lit "Birthday: " ++ Show.AQUA ++ Birthday.value b
     | None => []
     end
  ++ lit ", " ++ Show.MAGENTA
  ++ match ContactRecord.birthday o with
     | Some _ => lit "Days to Birth: " ++ Show.AQUA ++ Show.format_days days
     | None => []
     end
  ++ Show.RESET.

(** The phones of a contact that [main.py] adds: the first, then the
    second if given and not empty. *)
Definition given_phones (phone1 : str) (phone2 : option str)
  : list Phone.t :=
  Phone.mk phone1
  :: match phone2 with
     | Some p => if truthy p then [Phone.mk p] else []
     | None => []
     end.

(** A [Birthday] as its constructor leaves it. *)
Definition constructed (b : Birthday.t) : Prop :=
  Birthday.new (Birthday.value b) = Ok b.

(** The texts of the records of [pages], page by page, the first one
    printed at the reading [k] of the clock. *)
Fixpoint printed_pages (s : AddressBook.store) (clock : nat -> datetime.t)
         (pages : list (list AddressBook.ref)) (k : nat) : list (list str) :=
  match pages with
  | [] => []
  | page :: rest =>
      let texts := fst (Show.print_records page s clock k) in
      texts :: printed_pages s clock rest (k + List.length texts)
  end.

(** What the show command writes for the texts of one page: the texts,
    then the question whether to go on. *)
Definition shown_page (texts : list str) : list Main.output :=
  map (fun t => Main.Report (Show.RecordText t)) texts
  ++ [Main.PromptShowMore].




(** A book whose records have their objects and no birthday on
    29 February. *)
Definition plain_book (s : AddressBook.store) : Prop :=
  forall r, In r (AddressBook.dict_values (AddressBook.data s)) ->
    exists o,
      AddressBook.deref s r = Some o /\
      forall b, ContactRecord.birthday o = Some b ->
        constructed b /\
        ~ (datetime.month (Birthday.date b) = 2%Z /\
           datetime.day (Birthday.date b) = 29%Z).

(** * Properties *)

(** ** Strings *)

Lemma char_eqb_eq (a b : char) : char_eqb a b = true <-> a = b.
Proof. unfold char_eqb. apply N.eqb_eq. Qed.

Lemma str_eqb_eq (a b : str) : str_eqb a b = true <-> a = b.
Proof.
  revert b. induction a as [|x a IH]; intros [|y b]; simpl;
    try (split; [discriminate | congruence]); try tauto.
  rewrite andb_true_iff, char_eqb_eq, IH.
  split; [intros [-> ->]; reflexivity | intros H; inversion H; auto].
Qed.

Lemma str_eqb_refl (a : str) : str_eqb a a = true.
Proof. apply str_eqb_eq. reflexivity. Qed.

Lemma str_eqb_neq (a b : str) : str_eqb a b = false <-> a <> b.
Proof.
  rewrite <- str_eqb_eq. destruct (str_eqb a b); split; congruence.
Qed.

Lemma truthy_true (s : str) : truthy s = true <-> s <> [].
Proof. destruct s; simpl; split; congruence. Qed.

Lemma len_nonneg {A : Type} (l : list A) : (0 <= len l)%Z.
Proof. unfold len. lia. Qed.

Lemma len_app {A : Type} (l1 l2 : list A) :
  len (l1 ++ l2) = (len l1 + len l2)%Z.
Proof. unfold len. rewrite length_app. lia. Qed.

(** The characters [0-9] are digits of [str.isdigit]. *)
Lemma ascii_digit_isdigit (c : char) :
  is_ascii_digit c = true -> isdigit_char c = true.
Proof.
  unfold is_ascii_digit, isdigit_char, isdecimal_char, decimal_value.
  intros H. apply andb_true_iff in H. destruct H as [H1 H2].
  apply N.leb_le in H1. apply N.leb_le in H2.
  assert (E : ((48 <=? c)%N && (c <? 48 + 10)%N) = true).
  { apply andb_true_iff. split; [apply N.leb_le | apply N.ltb_lt]; lia. }
  unfold decimal_zeros. cbn [find]. rewrite E. reflexivity.
Qed.

(** ** Name *)

(** What the pattern of [Name] accepts: letters, and then nothing or one
    newline. *)
Lemma Name_re_match_iff (s : str) :
  Name.re_match s = true <->
  exists letters,
    forallb is_ascii_letter letters = true /\
    (s = letters \/ s = letters ++ [10%N]).
Proof.
  induction s as [|c s IH]; simpl.
  - split; [intros _; exists []; auto | reflexivity].
  - destruct (is_ascii_letter c) eqn:Ec.
    + rewrite IH. split.
      * intros [l [Hl Hs]]. exists (c :: l). simpl. rewrite Ec, Hl.
        split; [reflexivity|].
        destruct Hs as [-> | ->]; [left | right]; reflexivity.
      * intros [[|x l] [Hl Hs]].
        -- destruct Hs as [Hs | Hs]; [discriminate|].
           simpl in Hs. inversion Hs; subst. discriminate.
        -- simpl in Hl. apply andb_true_iff in Hl. destruct Hl as [_ Hl].
           exists l. split; [exact Hl|].
           destruct Hs as [Hs | Hs]; inversion Hs; subst; auto.
    + destruct s as [|d s].
      * split.
        -- intros H. apply char_eqb_eq in H. subst c.
           exists []. simpl. auto.
        -- intros [[|x l] [Hl Hs]].
           ++ destruct Hs as [Hs | Hs]; [discriminate|].
              inversion Hs. reflexivity.
           ++ simpl in Hl. apply andb_true_iff in Hl. destruct Hl as [Hx _].
              destruct Hs as [Hs | Hs]; inversion Hs; subst; congruence.
      * split; [discriminate|].
        intros [[|x l] [Hl Hs]].
        -- destruct Hs as [Hs | Hs]; discriminate.
        -- simpl in Hl. apply andb_true_iff in Hl. destruct Hl as [Hx _].
           destruct Hs as [Hs | Hs]; inversion Hs; subst; congruence.
Qed.

(** X1: a non-empty string of the letters A-Z and a-z makes a [Name] that
    holds it. *)
Lemma Name_new_letters (s : str) :
  s <> [] -> forallb is_ascii_letter s = true ->
  Name.new s = Ok (Name.mk s) /\ Name.value (Name.mk s) = s.
Proof.
  intros Hne Hl. unfold Name.new.
  apply truthy_true in Hne. rewrite Hne. simpl.
  assert (E : Name.re_match s = true).
  { apply Name_re_match_iff. exists s. auto. }
  rewrite E. simpl. auto.
Qed.

Lemma Name_new_letters_witness :
  Name.new (lit "Ann") = Ok (Name.mk (lit "Ann")) /\
  Name.value (Name.mk (lit "Ann")) = lit "Ann".
Proof.
  apply (Name_new_letters (lit "Ann")); [discriminate | reflexivity].
Defined.

(** The empty string is refused. *)
Lemma Name_new_empty : Name.new [] = Raise (ValueError NameCannotBeEmpty).
Proof. reflexivity. Qed.

(** [Name] succeeds exactly on the non-empty strings its pattern accepts,
    and fails with a [ValueError] on the others. *)
Lemma Name_new_ok_iff (s : str) :
  (Name.new s = Ok (Name.mk s) <-> s <> [] /\ Name.re_match s = true) /\
  ((exists m, Name.new s = Raise (ValueError m)) <->
   s = [] \/ Name.re_match s = false).
Proof.
  unfold Name.new. destruct s as [|c s].
  - cbn [truthy negb]. split; split.
    + discriminate.
    + intros [H _]. contradiction H. reflexivity.
    + auto.
    + eauto.
  - cbn [truthy negb]. destruct (Name.re_match (c :: s)); cbn [negb];
      split; split.
    + intros _. split; [discriminate | reflexivity].
    + reflexivity.
    + intros [m H]. discriminate.
    + intros [H | H]; discriminate.
    + discriminate.
    + intros [_ H]. discriminate.
    + auto.
    + eauto.
Qed.

(** X2: [Name] accepts exactly the non-empty strings made of letters and,
    possibly, one final newline. *)
Lemma Name_new_accepts_iff (s : str) :
  Name.new s = Ok (Name.mk s) <->
  s <> [] /\
  exists letters,
    forallb is_ascii_letter letters = true /\
    (s = letters \/ s = letters ++ [10%N]).
Proof.
  rewrite (proj1 (Name_new_ok_iff s)), Name_re_match_iff. reflexivity.
Qed.

(** C6: a string of letters followed by one newline is not letters-only,
    yet [Name] accepts it and stores it, where the claim has a
    [ValidationError]; the pattern ends in [$], which also matches before a
    final newline. *)
Theorem Name_accepts_trailing_newline :
  let s := lit "abc" ++ [10%N] in
  Name.new s = Ok (Name.mk s) /\
  forallb is_ascii_letter s = false /\
  Name.re_match (lit "abc") = true /\
  Name.new (lit "ab c") = Raise (ValueError (NameOnlyLetters (lit "ab c"))).
Proof. vm_compute. repeat split. Qed.

(** ** Phone *)

Lemma isdigit_iff (s : str) :
  isdigit s = true <-> s <> [] /\ Forall (fun c => isdigit_char c = true) s.
Proof.
  unfold isdigit. rewrite andb_true_iff, truthy_true, forallb_forall,
    Forall_forall. reflexivity.
Qed.

Lemma Phone_bad_format_false (s : str) :
  Phone.bad_format s = false <->
  len s = 10%Z /\ Forall (fun c => isdigit_char c = true) s.
Proof.
  unfold Phone.bad_format. rewrite orb_false_iff, !negb_false_iff.
  rewrite Z.eqb_eq, isdigit_iff. split.
  - intros [H1 [_ H2]]. auto.
  - intros [H1 H2]. repeat split; auto.
    intros ->. discriminate.
Qed.

Lemma Phone_new_ok (s : str) :
  Phone.bad_format s = false -> Phone.new s = Ok (Phone.mk s).
Proof. unfold Phone.new. intros ->. reflexivity. Qed.

Lemma Phone_new_raise (s : str) :
  Phone.bad_format s = true ->
  Phone.new s = Raise (ValueError (IncorrectPhoneFormat s)).
Proof. unfold Phone.new. intros ->. reflexivity. Qed.

Lemma Phone_new_inv (s : str) (p : Phone.t) :
  Phone.new s = Ok p -> Phone.bad_format s = false /\ p = Phone.mk s.
Proof.
  unfold Phone.new. destruct (Phone.bad_format s); [discriminate|].
  intros H. inversion H. auto.
Qed.

Lemma Phone_new_raise_inv (s : str) (e : exn) :
  Phone.new s = Raise e ->
  Phone.bad_format s = true /\ e = ValueError (IncorrectPhoneFormat s).
Proof.
  unfold Phone.new. destruct (Phone.bad_format s); [|discriminate].
  intros H. inversion H. auto.
Qed.

(** C7, as the code has it: a string of ten characters that [str.isdigit]
    takes for digits makes a [Phone]; a string of another length, or with
    a character that is not such a digit, is refused with the
    [ValueError] of the phone format; the characters 0-9 are such
    digits. *)
Theorem Phone_new_spec (s : str) :
  (len s = 10%Z -> Forall (fun c => isdigit_char c = true) s ->
   Phone.new s = Ok (Phone.mk s) /\ Phone.value (Phone.mk s) = s) /\
  (len s <> 10%Z \/ (exists c, In c s /\ isdigit_char c = false) ->
   Phone.new s = Raise (ValueError (IncorrectPhoneFormat s))) /\
  (Forall (fun c => is_ascii_digit c = true) s ->
   Forall (fun c => isdigit_char c = true) s).
Proof.
  split; [|split].
  - intros Hl Hd. split; [|reflexivity].
    apply Phone_new_ok. apply Phone_bad_format_false. auto.
  - intros H. apply Phone_new_raise.
    destruct (Phone.bad_format s) eqn:E; [reflexivity|].
    apply Phone_bad_format_false in E. destruct E as [El Ed].
    destruct H as [H | [c [Hc Hn]]]; [contradiction|].
    rewrite Forall_forall in Ed. rewrite (Ed c Hc) in Hn. discriminate.
  - intros H. eapply Forall_impl; [|exact H].
    intros c. apply ascii_digit_isdigit.
Qed.

Lemma Phone_new_spec_witness :
  Phone.new (lit "0123456789") = Ok (Phone.mk (lit "0123456789")) /\
  Phone.new (lit "01234x6789")
  = Raise (ValueError (IncorrectPhoneFormat (lit "01234x6789"))) /\
  Forall (fun c => isdigit_char c = true) (lit "0123456789").
Proof.
  split; [|split].
  - apply (Phone_new_spec (lit "0123456789")).
    + reflexivity.
    + repeat constructor.
  - apply (Phone_new_spec (lit "01234x6789")).
    right. exists 120%N. split; [|reflexivity].
    vm_compute. tauto.
  - apply (Phone_new_spec (lit "0123456789")).
    repeat constructor.
Defined.

(** C7 as stated fails: the ten Arabic-Indic digits U+0660..U+0669 are not
    characters 0-9, and [Phone] accepts them. *)
Lemma Phone_accepts_non_ascii_digits :
  let s := [1632; 1633; 1634; 1635; 1636; 1637; 1638; 1639; 1640; 1641]%N in
  len s = 10%Z /\
  (exists c, In c s /\ is_ascii_digit c = false) /\
  Phone.new s = Ok (Phone.mk s).
Proof.
  cbv zeta. split; [reflexivity|]. split; [|reflexivity].
  exists 1632%N. split; [left; reflexivity | reflexivity].
Qed.

(** ** Record: phones *)

Import ContactRecord.

Lemma set_phones_id (self : ContactRecord.t) :
  set_phones self (phones self) = self.
Proof. destruct self. reflexivity. Qed.

(** C10: with two phones held, [add_phone] raises the capacity error
    whatever the argument, valid or not, and the record is as before. *)
Theorem add_phone_capacity_first (self : ContactRecord.t) (raw : str) :
  List.length (phones self) = 2%nat ->
  add_phone raw self = (Raise (ValueError AtMostTwoPhones), self).
Proof.
  intros H. unfold add_phone, len. rewrite H. reflexivity.
Qed.

Lemma add_phone_capacity_first_witness :
  let self := ContactRecord.mk (Name.mk (lit "Ann"))
                [Phone.mk (lit "0123456789"); Phone.mk (lit "1111111111")]
                None in
  add_phone (lit "not a phone") self
  = (Raise (ValueError AtMostTwoPhones), self).
Proof.
  cbv zeta. apply add_phone_capacity_first. reflexivity.
Defined.

Lemma new_phones (name_ : str) (birthday_ : option str)
      (self : ContactRecord.t) :
  ContactRecord.new name_ birthday_ = Ok self -> phones self = [].
Proof.
  unfold ContactRecord.new. destruct (Name.new name_) as [n|e]; simpl;
    [|discriminate].
  destruct birthday_ as [b|].
  - destruct (truthy b).
    + destruct (Birthday.new b); simpl; [|discriminate].
      intros H. inversion H. reflexivity.
    + intros H. inversion H. reflexivity.
  - intros H. inversion H. reflexivity.
Qed.

Lemma add_phone_length (raw : str) (self : ContactRecord.t) :
  (List.length (phones self) <= 2)%nat ->
  (List.length (phones (snd (add_phone raw self))) <= 2)%nat.
Proof.
  intros H. unfold add_phone, len.
  destruct (Z.of_nat (List.length (phones self)) <? 2)%Z eqn:E.
  - apply Z.ltb_lt in E. destruct (Phone.new raw); simpl; [|exact H].
    rewrite length_app. simpl. lia.
  - simpl. exact H.
Qed.

Lemma edit_loop_length (old_phone new_phone : str) (ps : list Phone.t)
      (found : bool) :
  List.length (snd (edit_loop old_phone new_phone ps found))
  = List.length ps.
Proof.
  revert found. induction ps as [|p ps IH]; intros found; simpl;
    [reflexivity|].
  destruct (str_eqb (Phone.value p) old_phone).
  - destruct (Phone.set_value p new_phone); simpl; [|reflexivity].
    rewrite IH. reflexivity.
  - simpl. rewrite IH. reflexivity.
Qed.

Lemma edit_phone_length (old_phone new_phone : str)
      (self : ContactRecord.t) :
  List.length (phones (snd (edit_phone old_phone new_phone self)))
  = List.length (phones self).
Proof.
  unfold edit_phone. destruct (Phone.bad_format new_phone); [reflexivity|].
  destruct (fst (edit_loop old_phone new_phone (phones self) false))
    as [[|]|e]; simpl; apply edit_loop_length.
Qed.

Lemma reachable_length (self : ContactRecord.t) :
  reachable self -> (List.length (phones self) <= 2)%nat.
Proof.
  induction 1 as [n b self H | raw self _ IH | raw self _ IH
                  | o n self _ IH].
  - rewrite (new_phones _ _ _ H). simpl. lia.
  - apply add_phone_length. exact IH.
  - simpl. etransitivity; [apply filter_length_le | exact IH].
  - rewrite edit_phone_length. exact IH.
Qed.

(** C5: a record made by the constructor and changed by its methods never
    holds more than two phones; [add_phone] on fewer than two phones
    validates its argument and appends it at the end, or raises the
    validation error and changes nothing; on two phones it raises the
    capacity error; and once [remove_phone] has taken one of two phones
    away, the next [add_phone] of a valid phone succeeds. *)
Theorem record_at_most_two_phones :
  (forall self, reachable self -> (List.length (phones self) <= 2)%nat) /\
  (forall self raw p,
      (List.length (phones self) < 2)%nat -> Phone.new raw = Ok p ->
      add_phone raw self = (Ok tt, set_phones self (phones self ++ [p]))) /\
  (forall self raw e,
      (List.length (phones self) < 2)%nat -> Phone.new raw = Raise e ->
      add_phone raw self = (Raise e, self)) /\
  (forall self raw,
      reachable self -> List.length (phones self) = 2%nat ->
      add_phone raw self = (Raise (ValueError AtMostTwoPhones), self)) /\
  (forall self a b x raw p,
      phones self = [a; b] -> Phone.value a = x \/ Phone.value b = x ->
      Phone.new raw = Ok p ->
      let self' := snd (remove_phone x self) in
      (List.length (phones self') < 2)%nat /\
      add_phone raw self'
      = (Ok tt, set_phones self' (phones self' ++ [p]))).
Proof.
  assert (Hadd : forall self raw p,
      (List.length (phones self) < 2)%nat -> Phone.new raw = Ok p ->
      add_phone raw self = (Ok tt, set_phones self (phones self ++ [p]))).
  { intros self raw p Hl Hp. unfold add_phone, len.
    replace (Z.of_nat (List.length (phones self)) <? 2)%Z with true
      by (symmetry; apply Z.ltb_lt; lia).
    rewrite Hp. reflexivity. }
  split; [exact reachable_length|]. split; [exact Hadd|]. split; [|split].
  - intros self raw e Hl He. unfold add_phone, len.
    replace (Z.of_nat (List.length (phones self)) <? 2)%Z with true
      by (symmetry; apply Z.ltb_lt; lia).
    rewrite He. reflexivity.
  - intros self raw _ Hl. unfold add_phone, len. rewrite Hl. reflexivity.
  - intros self a b x raw p Hp Hx Hraw self'.
    assert (Hl : (List.length (phones self') < 2)%nat).
    { subst self'. simpl. rewrite Hp. simpl.
      destruct Hx as [Hx | Hx]; rewrite <- Hx, str_eqb_refl; simpl.
      - destruct (negb (str_eqb (Phone.value b) (Phone.value a)));
          simpl; lia.
      - destruct (negb (str_eqb (Phone.value a) (Phone.value b)));
          simpl; lia. }
    split; [exact Hl|]. apply Hadd; assumption.
Qed.

Lemma record_at_most_two_phones_witness :
  let p1 := Phone.mk (lit "0123456789") in
  let p2 := Phone.mk (lit "1111111111") in
  let p3 := Phone.mk (lit "2222222222") in
  let ann := ContactRecord.mk (Name.mk (lit "Ann")) [] None in
  (List.length (phones ann) <= 2)%nat /\
  add_phone (lit "0123456789") ann = (Ok tt, set_phones ann [p1]) /\
  add_phone (lit "12345") ann
  = (Raise (ValueError (IncorrectPhoneFormat (lit "12345"))), ann) /\
  add_phone (lit "2222222222") (set_phones ann [p1; p2])
  = (Raise (ValueError AtMostTwoPhones), set_phones ann [p1; p2]) /\
  add_phone (lit "2222222222")
            (snd (remove_phone (lit "0123456789") (set_phones ann [p1; p2])))
  = (Ok tt, set_phones ann [p2; p3]).
Proof.
  cbv zeta.
  assert (R0 : reachable (ContactRecord.mk (Name.mk (lit "Ann")) [] None)).
  { apply (reach_new (lit "Ann") None). reflexivity. }
  assert (R1 : reachable
                 (ContactRecord.mk (Name.mk (lit "Ann"))
                                   [Phone.mk (lit "0123456789")] None)).
  { apply (reach_add_phone (lit "0123456789")) in R0. exact R0. }
  assert (R2 : reachable
                 (ContactRecord.mk (Name.mk (lit "Ann"))
                                   [Phone.mk (lit "0123456789");
                                    Phone.mk (lit "1111111111")] None)).
  { apply (reach_add_phone (lit "1111111111")) in R1. exact R1. }
  destruct record_at_most_two_phones as [H1 [H2 [H3 [H4 H5]]]].
  split; [apply H1; exact R0|].
  split.
  { refine (H2 (ContactRecord.mk (Name.mk (lit "Ann")) [] None)
               (lit "0123456789") (Phone.mk (lit "0123456789")) _ _);
      [simpl; lia | reflexivity]. }
  split.
  { refine (H3 (ContactRecord.mk (Name.mk (lit "Ann")) [] None)
               (lit "12345") _ _ _); [simpl; lia | reflexivity]. }
  split.
  { refine (H4 _ (lit "2222222222") R2 _). reflexivity. }
  refine (proj2 (H5 (ContactRecord.mk (Name.mk (lit "Ann"))
                       [Phone.mk (lit "0123456789");
                        Phone.mk (lit "1111111111")] None)
                    (Phone.mk (lit "0123456789"))
                    (Phone.mk (lit "1111111111"))
                    (lit "0123456789") (lit "2222222222")
                    (Phone.mk (lit "2222222222")) _ _ _));
    [reflexivity | left; reflexivity | reflexivity].
Defined.

(** ** Record: [edit_phone] *)

(** With a valid new number the loop replaces every phone equal to the
    old one and reports whether there was one. *)
Lemma edit_loop_valid (old_phone new_phone : str) (ps : list Phone.t)
      (found : bool) :
  Phone.bad_format new_phone = false ->
  edit_loop old_phone new_phone ps found
  = (Ok (found || existsb (fun q => str_eqb (Phone.value q) old_phone) ps),
     map (fun q => if str_eqb (Phone.value q) old_phone
                   then Phone.mk new_phone else q) ps).
Proof.
  intros Hv. revert found. induction ps as [|q ps IH]; intros found; simpl.
  - rewrite orb_false_r. reflexivity.
  - unfold Phone.set_value. rewrite (Phone_new_ok _ Hv).
    destruct (str_eqb (Phone.value q) old_phone); rewrite IH; simpl.
    + rewrite orb_true_r. reflexivity.
    + reflexivity.
Qed.

Lemma map_edit_none (old_phone : str) (p : Phone.t) (ps : list Phone.t) :
  (forall q, In q ps -> Phone.value q <> old_phone) ->
  map (fun q => if str_eqb (Phone.value q) old_phone then p else q) ps = ps
  /\ existsb (fun q => str_eqb (Phone.value q) old_phone) ps = false.
Proof.
  induction ps as [|q ps IH]; intros H; simpl; [auto|].
  assert (E : str_eqb (Phone.value q) old_phone = false).
  { apply str_eqb_neq. apply H. left. reflexivity. }
  rewrite E. destruct IH as [IH1 IH2].
  { intros q' Hq'. apply H. right. exact Hq'. }
  rewrite IH1, IH2. auto.
Qed.

(** C4: [edit_phone] validates the new number first and raises the
    validation error, with the record as it was, whether or not a phone
    equals the old number; with a valid new number it replaces every
    phone equal to the old one, the phones being then the former ones in
    their order with each one that held the old number holding the new
    one, and the name and the birthday being as before; and it raises
    the not-found error, with the record as it was, when no phone equals
    the old number. *)
Theorem edit_phone_spec (self : ContactRecord.t) (old_phone new_phone : str) :
  (forall e, Phone.new new_phone = Raise e ->
     e = ValueError (IncorrectPhoneFormat new_phone) /\
     fst (edit_phone old_phone new_phone self) = Raise e /\
     snd (edit_phone old_phone new_phone self) = self /\
     phones (snd (edit_phone old_phone new_phone self)) = phones self) /\
  (forall p, Phone.new new_phone = Ok p ->
     (exists q, In q (phones self) /\ Phone.value q = old_phone) ->
     fst (edit_phone old_phone new_phone self) = Ok tt /\
     phones (snd (edit_phone old_phone new_phone self))
     = map (fun q => if str_eqb (Phone.value q) old_phone then p else q)
           (phones self) /\
     Phone.value p = new_phone /\
     (forall i q, nth_error (phones self) i = Some q ->
        nth_error (phones (snd (edit_phone old_phone new_phone self))) i
        = Some (if str_eqb (Phone.value q) old_phone
                then Phone.mk new_phone else q)) /\
     List.length (phones (snd (edit_phone old_phone new_phone self)))
     = List.length (phones self) /\
     ContactRecord.name (snd (edit_phone old_phone new_phone self))
     = ContactRecord.name self /\
     birthday (snd (edit_phone old_phone new_phone self))
     = birthday self) /\
  (forall p, Phone.new new_phone = Ok p ->
     (forall q, In q (phones self) -> Phone.value q <> old_phone) ->
     fst (edit_phone old_phone new_phone self)
     = Raise (ValueError (NumberDoesNotExist old_phone)) /\
     snd (edit_phone old_phone new_phone self) = self /\
     phones (snd (edit_phone old_phone new_phone self)) = phones self).
Proof.
  split; [|split].
  - intros e He. apply Phone_new_raise_inv in He. destruct He as [Hb ->].
    split; [reflexivity|]. unfold edit_phone. rewrite Hb.
    cbn [fst snd]. auto.
  - intros p Hp [q [Hq Hv]]. apply Phone_new_inv in Hp.
    destruct Hp as [Hb ->]. unfold edit_phone. rewrite Hb.
    rewrite edit_loop_valid by exact Hb. cbn [fst snd orb].
    assert (E : existsb (fun q => str_eqb (Phone.value q) old_phone)
                        (phones self) = true).
    { apply existsb_exists. exists q. split; [exact Hq|].
      apply str_eqb_eq. exact Hv. }
    rewrite E. cbn [negb fst snd set_phones phones ContactRecord.name
                    birthday Phone.value].
    split; [reflexivity|]. split; [reflexivity|]. split; [reflexivity|].
    split.
    { intros i q0 Hi. rewrite nth_error_map, Hi. reflexivity. }
    split; [apply length_map|]. split; reflexivity.
  - intros p Hp Hnone. apply Phone_new_inv in Hp.
    destruct Hp as [Hb ->]. unfold edit_phone. rewrite Hb.
    rewrite edit_loop_valid by exact Hb. cbn [fst snd orb].
    destruct (map_edit_none old_phone (Phone.mk new_phone) _ Hnone)
      as [E1 E2].
    rewrite E1, E2. cbn [negb fst snd]. rewrite set_phones_id. auto.
Qed.

Lemma edit_phone_spec_witness :
  let one := Phone.mk (lit "1111111111") in
  let two := Phone.mk (lit "2222222222") in
  let ann := ContactRecord.mk (Name.mk (lit "Ann")) [one; one] None in
  (fst (edit_phone (lit "3333333333") (lit "22") ann)
   = Raise (ValueError (IncorrectPhoneFormat (lit "22"))) /\
   phones (snd (edit_phone (lit "3333333333") (lit "22") ann))
   = [one; one]) /\
  (fst (edit_phone (lit "1111111111") (lit "2222222222") ann) = Ok tt /\
   phones (snd (edit_phone (lit "1111111111") (lit "2222222222") ann))
   = [two; two]) /\
  (fst (edit_phone (lit "3333333333") (lit "2222222222") ann)
   = Raise (ValueError (NumberDoesNotExist (lit "3333333333"))) /\
   phones (snd (edit_phone (lit "3333333333") (lit "2222222222") ann))
   = [one; one]).
Proof.
  cbv zeta.
  pose (ann := ContactRecord.mk (Name.mk (lit "Ann"))
                 [Phone.mk (lit "1111111111"); Phone.mk (lit "1111111111")]
                 None).
  split; [|split].
  - destruct (proj1 (edit_phone_spec ann (lit "3333333333") (lit "22"))
                    (ValueError (IncorrectPhoneFormat (lit "22")))
                    eq_refl) as [_ [H1 [_ H2]]].
    split; [exact H1|exact H2].
  - destruct (proj1 (proj2 (edit_phone_spec ann (lit "1111111111")
                                            (lit "2222222222")))
                    (Phone.mk (lit "2222222222")) eq_refl
                    (ex_intro _ (Phone.mk (lit "1111111111"))
                              (conj (or_introl eq_refl) eq_refl)))
      as [H1 [H2 _]].
    split; [exact H1|exact H2].
  - destruct (proj2 (proj2 (edit_phone_spec ann (lit "3333333333")
                                            (lit "2222222222")))
                    (Phone.mk (lit "2222222222")) eq_refl) as [H1 [_ H2]].
    + intros q [<- | [<- | []]]; vm_compute; discriminate.
    + split; [exact H1|exact H2].
Defined.

(** ** [datetime] arithmetic *)

Section DatetimeFacts.

Local Open Scope Z_scope.
Import datetime.

Lemma new_ok_iff (y m d h mi s us : Z) (x : datetime.t) :
  datetime.new y m d h mi s us = Ok x <->
  x = datetime.mk y m d h mi s us /\
  1 <= y <= 9999 /\ 1 <= m <= 12 /\ 1 <= d <= _days_in_month y m /\
  0 <= h <= 23 /\ 0 <= mi <= 59 /\ 0 <= s <= 59 /\ 0 <= us <= 999999.
Proof.
  unfold datetime.new, _check_date_fields, _check_time_fields,
    MINYEAR, MAXYEAR.
  destruct ((1 <=? y) && (y <=? 9999)) eqn:Ey; cbn [negb bind].
  2:{ split; [discriminate|]. intros [_ [H _]].
      apply andb_false_iff in Ey. destruct Ey as [E|E];
        apply Z.leb_gt in E; lia. }
  apply andb_true_iff in Ey. destruct Ey as [Ey1 Ey2].
  apply Z.leb_le in Ey1. apply Z.leb_le in Ey2.
  destruct ((1 <=? m) && (m <=? 12)) eqn:Em; cbn [negb bind].
  2:{ split; [discriminate|]. intros [_ [_ [H _]]].
      apply andb_false_iff in Em. destruct Em as [E|E];
        apply Z.leb_gt in E; lia. }
  apply andb_true_iff in Em. destruct Em as [Em1 Em2].
  apply Z.leb_le in Em1. apply Z.leb_le in Em2.
  destruct ((1 <=? d) && (d <=? _days_in_month y m)) eqn:Ed;
    cbn [negb bind].
  2:{ split; [discriminate|]. intros [_ [_ [_ [H _]]]].
      apply andb_false_iff in Ed. destruct Ed as [E|E];
        apply Z.leb_gt in E; lia. }
  apply andb_true_iff in Ed. destruct Ed as [Ed1 Ed2].
  apply Z.leb_le in Ed1. apply Z.leb_le in Ed2.
  destruct ((0 <=? h) && (h <=? 23) && (0 <=? mi) && (mi <=? 59)
            && (0 <=? s) && (s <=? 59)
            && (0 <=? us) && (us <=? 999999)) eqn:Et; cbn [bind].
  - repeat (apply andb_true_iff in Et; destruct Et as [Et ?]).
    repeat match goal with
           | H : (_ <=? _) = true |- _ => apply Z.leb_le in H
           end.
    split.
    + intros H'. inversion H'. repeat split; assumption.
    + intros [-> _]. reflexivity.
  - split; [discriminate|]. intros [_ [_ [_ [_ H]]]].
    repeat (apply andb_false_iff in Et; destruct Et as [Et|Et]);
      apply Z.leb_gt in Et; lia.
Qed.

Lemma valid_bounds (x : datetime.t) :
  datetime.valid x <->
  1 <= year x <= 9999 /\ 1 <= month x <= 12 /\
  1 <= day x <= _days_in_month (year x) (month x) /\
  0 <= hour x <= 23 /\ 0 <= minute x <= 59 /\ 0 <= second x <= 59 /\
  0 <= microsecond x <= 999999.
Proof.
  unfold datetime.valid. rewrite new_ok_iff. destruct x. simpl.
  split; [intros [_ H]; exact H | intros H; split; [reflexivity | exact H]].
Qed.

Lemma days_before_year_succ (y : Z) :
  _days_before_year (y + 1)
  = _days_before_year y + (if _is_leap y then 366 else 365).
Proof.
  unfold _days_before_year, _is_leap.
  replace (y + 1 - 1) with y by lia.
  destruct (y mod 4 =? 0) eqn:E4; destruct (y mod 100 =? 0) eqn:E100;
    destruct (y mod 400 =? 0) eqn:E400; cbn [andb orb negb];
    rewrite ?Z.eqb_eq, ?Z.eqb_neq in *;
    Z.div_mod_to_equations; lia.
Qed.

Ltac each_month m :=
  let H := fresh "Hm" in
  assert (H : m = 1 \/ m = 2 \/ m = 3 \/ m = 4 \/ m = 5 \/ m = 6 \/
              m = 7 \/ m = 8 \/ m = 9 \/ m = 10 \/ m = 11 \/ m = 12)
    by lia;
  repeat (destruct H as [H | H]; [subst m|]); [..|subst m].

Ltac month_tables :=
  cbn [_DAYS_IN_MONTH _DAYS_BEFORE_MONTH Z.eqb Z.ltb Z.compare Pos.eqb
       Pos.compare Pos.compare_cont andb] in *.

(** The day of the year of a date of [year] is between 1 and the length
    of the year. *)
Lemma yday_bounds (y m d : Z) :
  1 <= m <= 12 -> 1 <= d <= _days_in_month y m ->
  1 <= _days_before_month y m + d <= (if _is_leap y then 366 else 365).
Proof.
  intros Hm Hd. unfold _days_before_month, _days_in_month in *.
  each_month m; destruct (_is_leap y); month_tables; lia.
Qed.

(** Within a year a later month is a later day of the year. *)
Lemma yday_mono (y m1 d1 m2 d2 : Z) :
  1 <= m1 <= 12 -> 1 <= d1 <= _days_in_month y m1 ->
  1 <= m2 <= 12 -> 1 <= d2 <= _days_in_month y m2 ->
  m1 < m2 ->
  _days_before_month y m1 + d1 < _days_before_month y m2 + d2.
Proof.
  intros Hm1 Hd1 Hm2 Hd2 Hlt.
  unfold _days_before_month, _days_in_month in *.
  each_month m1; each_month m2; try lia;
    destruct (_is_leap y); month_tables; lia.
Qed.

(** The floor of the difference on the time line is what [timedelta]
    keeps in [days]. *)
Lemma sub_days (a b : datetime.t) :
  days (sub a b) = whole_days b a.
Proof.
  unfold whole_days, stamp, sub, timedelta_new. cbn [days].
  Z.div_mod_to_equations. lia.
Qed.

(** [self > other] as an order on the fields. *)
Lemma gtb_iff (a b : datetime.t) :
  gtb a b = true <->
  year b < year a \/ (year a = year b /\
  (month b < month a \/ (month a = month b /\
  (day b < day a \/ (day a = day b /\
  (hour b < hour a \/ (hour a = hour b /\
  (minute b < minute a \/ (minute a = minute b /\
  (second b < second a \/ (second a = second b /\
   microsecond b < microsecond a))))))))))).
Proof.
  unfold gtb, fields. cbn [tuple_gtb].
  rewrite andb_false_r, orb_false_r.
  repeat first [rewrite orb_true_iff | rewrite andb_true_iff].
  rewrite !Z.ltb_lt, !Z.eqb_eq. reflexivity.
Qed.

(** In one year, [>] is the order of the time line. *)
Lemma gtb_same_year (a b : datetime.t) :
  valid a -> valid b -> year a = year b ->
  (gtb a b = true <-> stamp b < stamp a).
Proof.
  intros Ha Hb Hy. rewrite gtb_iff.
  apply valid_bounds in Ha. apply valid_bounds in Hb.
  unfold stamp, toordinal, _ymd2ord.
  destruct a as [y m1 d1 h1 mi1 s1 us1].
  destruct b as [y' m2 d2 h2 mi2 s2 us2].
  cbn [year month day hour minute second microsecond] in *. subst y'.
  pose proof (yday_mono y m1 d1 m2 d2) as L1.
  pose proof (yday_mono y m2 d2 m1 d1) as L2.
  assert (m1 = m2 ->
          _days_before_month y m1 = _days_before_month y m2)
    by (intros ->; reflexivity).
  lia.
Qed.

(** A date of next year is at least a day after any date of this
    year. *)
Lemma toordinal_next_year (a b : datetime.t) :
  valid a -> valid b -> year b = year a + 1 ->
  toordinal a + 1 <= toordinal b.
Proof.
  intros Ha Hb Hy.
  apply valid_bounds in Ha. apply valid_bounds in Hb.
  unfold toordinal, _ymd2ord. rewrite Hy in *.
  rewrite days_before_year_succ.
  pose proof (yday_bounds (year a) (month a) (day a)) as L1.
  pose proof (yday_bounds (year a + 1) (month b) (day b)) as L2.
  destruct (_is_leap (year a)); destruct (_is_leap (year a + 1)); lia.
Qed.

End DatetimeFacts.

(** ** Birthday and [days_to_birthday] *)

Section Birthdays.

Local Open Scope Z_scope.
Import datetime.

(** A parsed date is a valid date at midnight. *)
Lemma strptime_run_valid (s : str) (d : datetime.t) :
  strptime.run s = Ok d ->
  valid d /\ hour d = 0 /\ minute d = 0 /\ second d = 0
  /\ microsecond d = 0.
Proof.
  unfold strptime.run.
  destruct (strptime.format_regex s) as [[[[Y m] dd] rest]|];
    [|discriminate].
  destruct (truthy rest); [discriminate|].
  destruct (strptime.int Y) as [y|]; cbn [bind]; [|discriminate].
  destruct (strptime.int m) as [mo|]; cbn [bind]; [|discriminate].
  destruct (strptime.int dd) as [da|]; cbn [bind]; [|discriminate].
  destruct (_check_date_fields y mo da); cbn [bind]; [|discriminate].
  intros H. pose proof H as H'. apply new_ok_iff in H'.
  destruct H' as [-> _]. cbn. unfold valid. cbn. auto.
Qed.

Lemma constructed_date (b : Birthday.t) :
  constructed b ->
  valid (Birthday.date b) /\
  Birthday.date b
  = mk (year (Birthday.date b)) (month (Birthday.date b))
       (day (Birthday.date b)) 0 0 0 0.
Proof.
  unfold constructed, Birthday.new.
  destruct (strptime.run (Birthday.value b)) as [d|[m]] eqn:E;
    [|discriminate].
  intros H. inversion H as [Hb]. rewrite <- Hb. cbn.
  apply strptime_run_valid in E. destruct E as [Hv [? [? [? ?]]]].
  split; [exact Hv|]. destruct d. cbn in *. congruence.
Qed.

(** [replace(year=y)] on a constructed birthday gives the occurrence of
    the birthday in [y], when that is a date. *)
Lemma replace_year_occurrence (b : Birthday.t) (y : Z) (x : datetime.t) :
  constructed b ->
  replace_year (Birthday.date b) y = Ok x ->
  x = occurrence b y /\ valid x.
Proof.
  intros Hc H. destruct (constructed_date b Hc) as [_ Hd].
  unfold replace_year in H. rewrite Hd in H. cbn in H.
  pose proof H as H'. apply new_ok_iff in H'. destruct H' as [-> _].
  split; [reflexivity | exact H].
Qed.

Lemma replace_year_again (b : Birthday.t) (y y' : Z) :
  replace_year (occurrence b y) y' = replace_year (occurrence b y') y'.
Proof. reflexivity. Qed.

Lemma whole_days_nonneg (now target : datetime.t) :
  stamp now <= stamp target -> 0 <= whole_days now target.
Proof.
  intros H. unfold whole_days. apply Z.div_pos; lia.
Qed.

(** A date of next year is after every instant of this year. *)
Lemma stamp_next_year (a b : datetime.t) :
  valid a -> valid b -> year b = year a + 1 -> stamp a <= stamp b.
Proof.
  intros Ha Hb Hy. pose proof (toordinal_next_year a b Ha Hb Hy).
  apply valid_bounds in Ha. apply valid_bounds in Hb.
  unfold stamp. lia.
Qed.

(** What [days_to_birthday] returns, when it returns a number. *)
Lemma days_to_birthday_some (self : ContactRecord.t) (today : datetime.t)
      (b : Birthday.t) (n : Z) :
  birthday self = Some b -> constructed b -> valid today ->
  days_to_birthday self today = Ok (Some n) ->
  0 <= n /\
  exists y,
    valid (occurrence b y) /\
    stamp today <= stamp (occurrence b y) /\
    (y = year today \/
     (y = year today + 1 /\
      valid (occurrence b (year today)) /\
      stamp (occurrence b (year today)) < stamp today)) /\
    n = whole_days today (occurrence b y).
Proof.
  intros Hb Hc Ht. unfold days_to_birthday. rewrite Hb.
  destruct (replace_year (Birthday.date b) (year today)) as [bd|e] eqn:E1;
    cbn [bind]; [|discriminate].
  destruct (replace_year_occurrence b _ bd Hc E1) as [-> Hv1].
  destruct (gtb today (occurrence b (year today))) eqn:G.
  - rewrite replace_year_again.
    destruct (replace_year (occurrence b (year today + 1))
                           (year today + 1)) as [bd'|e] eqn:E2;
      cbn [bind]; [|discriminate].
    assert (bd' = occurrence b (year today + 1)) as ->.
    { unfold replace_year in E2. cbn in E2. apply new_ok_iff in E2.
      destruct E2 as [-> _]. reflexivity. }
    assert (Hv2 : valid (occurrence b (year today + 1))) by exact E2.
    intros H.
    assert (Hn : n = whole_days today (occurrence b (year today + 1)))
      by (rewrite <- sub_days; congruence).
    rewrite Hn. clear H.
    assert (Hle : stamp today <= stamp (occurrence b (year today + 1))).
    { apply stamp_next_year; [exact Ht | exact Hv2 | reflexivity]. }
    split; [apply whole_days_nonneg; exact Hle|].
    exists (year today + 1). split; [exact Hv2|]. split; [exact Hle|].
    split; [|reflexivity]. right. split; [reflexivity|].
    split; [exact Hv1|].
    apply (gtb_same_year today (occurrence b (year today)));
      [exact Ht | exact Hv1 | reflexivity | exact G].
  - cbn [bind]. intros H.
    assert (Hn : n = whole_days today (occurrence b (year today)))
      by (rewrite <- sub_days; congruence).
    rewrite Hn. clear H.
    assert (Hle : stamp today <= stamp (occurrence b (year today))).
    { destruct (Z.le_gt_cases (stamp today)
                              (stamp (occurrence b (year today))))
        as [L|L]; [exact L|].
      apply (gtb_same_year today (occurrence b (year today))) in L;
        [congruence | exact Ht | exact Hv1 | reflexivity]. }
    split; [apply whole_days_nonneg; exact Hle|].
    exists (year today). split; [exact Hv1|]. split; [exact Hle|].
    split; [left|]; reflexivity.
Qed.

(** Every month but February is as long in one year as in another, and
    February has at least 28 days. *)
Lemma occurrence_valid (b : Birthday.t) (y : Z) :
  constructed b -> 1 <= y <= 9999 ->
  ~ (month (Birthday.date b) = 2 /\ day (Birthday.date b) = 29) ->
  valid (occurrence b y).
Proof.
  intros Hc Hy Hn. destruct (constructed_date b Hc) as [Hv _].
  apply valid_bounds in Hv. apply valid_bounds.
  unfold occurrence. cbn [year month day hour minute second microsecond].
  destruct Hv as [_ [Hm [Hd _]]].
  assert (day (Birthday.date b) <= _days_in_month y (month (Birthday.date b))).
  { unfold _days_in_month in *.
    destruct (month (Birthday.date b) =? 2) eqn:E2.
    - apply Z.eqb_eq in E2.
      destruct (_is_leap (year (Birthday.date b))), (_is_leap y);
        cbn [andb] in *; rewrite E2 in *; cbn [_DAYS_IN_MONTH] in *; lia.
    - cbn [andb] in *. lia. }
  lia.
Qed.

Lemma replace_year_valid (b : Birthday.t) (y : Z) :
  constructed b -> valid (occurrence b y) ->
  replace_year (Birthday.date b) y = Ok (occurrence b y).
Proof.
  intros Hc Hv. destruct (constructed_date b Hc) as [_ Hd].
  unfold replace_year. rewrite Hd. exact Hv.
Qed.

(** A birthday other than 29 February has its days counted in every
    year but the last. *)
Lemma days_to_birthday_total (self : ContactRecord.t) (today : datetime.t)
      (b : Birthday.t) :
  birthday self = Some b -> constructed b -> valid today ->
  ~ (month (Birthday.date b) = 2 /\ day (Birthday.date b) = 29) ->
  year today < 9999 ->
  exists n, days_to_birthday self today = Ok (Some n).
Proof.
  intros Hb Hc Ht Hn Hy. pose proof Ht as Hbd. apply valid_bounds in Hbd.
  unfold days_to_birthday. rewrite Hb.
  rewrite (replace_year_valid b (year today) Hc)
    by (apply occurrence_valid; [exact Hc | lia | exact Hn]).
  cbn [bind].
  destruct (gtb today (occurrence b (year today))).
  - rewrite replace_year_again.
    assert (Hv : valid (occurrence b (year today + 1)))
      by (apply occurrence_valid; [exact Hc | lia | exact Hn]).
    unfold replace_year.
    cbn [occurrence year month day hour minute second microsecond].
    unfold valid in Hv.
    cbn [occurrence year month day hour minute second microsecond] in Hv.
    rewrite Hv. cbn [bind]. eauto.
  - cbn [bind]. eauto.
Qed.

(** 29 February does not exist in a common year: [replace] raises. *)
Lemma replace_feb29_raises (self : ContactRecord.t)
      (today : datetime.t) (b : Birthday.t) :
  birthday self = Some b ->
  month (Birthday.date b) = 2 -> day (Birthday.date b) = 29 ->
  valid today -> _is_leap (year today) = false ->
  days_to_birthday self today = Raise (ValueError DayOutOfRange).
Proof.
  intros Hb Hm Hd Ht Hl. apply valid_bounds in Ht.
  unfold days_to_birthday. rewrite Hb.
  unfold replace_year, datetime.new, _check_date_fields, _days_in_month,
    MINYEAR, MAXYEAR.
  rewrite Hm, Hd, Hl.
  replace (1 <=? year today) with true by (symmetry; apply Z.leb_le; lia).
  replace (year today <=? 9999) with true
    by (symmetry; apply Z.leb_le; lia).
  reflexivity.
Qed.

Lemma midnight_iff (d : datetime.t) :
  midnight d = true <->
  hour d = 0 /\ minute d = 0 /\ second d = 0 /\ microsecond d = 0.
Proof.
  unfold midnight. rewrite !andb_true_iff, !Z.eqb_eq. tauto.
Qed.

Ltac ordinals :=
  repeat match goal with
         | |- context [_ymd2ord ?a ?b ?c] =>
             let v := eval vm_compute in (_ymd2ord a b c) in
             change (_ymd2ord a b c) with v
         end.

(** The birthday 1 January, asked on 1 and on 2 January 2023: the result
    turns on the time of day. *)
Lemma days_to_first_of_january (self : ContactRecord.t)
      (today : datetime.t) (b : Birthday.t) :
  birthday self = Some b -> Birthday.new (lit "2000-01-01") = Ok b ->
  valid today -> year today = 2023 -> month today = 1 ->
  (day today = 1 ->
   days_to_birthday self today
   = Ok (Some (if midnight today then 0 else 364))) /\
  (day today = 2 ->
   days_to_birthday self today
   = Ok (Some (if midnight today then 364 else 363))).
Proof.
  intros Hb Hnew Ht Hy Hm.
  assert (Hd : Birthday.date b = mk 2000 1 1 0 0 0 0)
    by (vm_compute in Hnew; injection Hnew as <-; reflexivity).
  pose proof (midnight_iff today) as Hmid.
  apply valid_bounds in Ht.
  destruct today as [y m d h mi s us].
  cbn [year month day hour minute second microsecond] in *. subst y m.
  unfold days_to_birthday. rewrite Hb, Hd.
  cbn [year month day hour minute second microsecond].
  change (replace_year (mk 2000 1 1 0 0 0 0) 2023)
    with (Ok (mk 2023 1 1 0 0 0 0)).
  cbn [bind].
  change (replace_year (mk 2023 1 1 0 0 0 0) (2023 + 1))
    with (Ok (mk 2024 1 1 0 0 0 0)).
  assert (Hv0 : valid (mk 2023 1 1 0 0 0 0)) by reflexivity.
  assert (Hcase : forall d,
    valid (mk 2023 1 d h mi s us) ->
    (gtb (mk 2023 1 d h mi s us) (mk 2023 1 1 0 0 0 0) = true /\
     stamp (mk 2023 1 1 0 0 0 0) < stamp (mk 2023 1 d h mi s us)) \/
    (gtb (mk 2023 1 d h mi s us) (mk 2023 1 1 0 0 0 0) = false /\
     stamp (mk 2023 1 d h mi s us) <= stamp (mk 2023 1 1 0 0 0 0))).
  { intros d0 Hv.
    pose proof (gtb_same_year _ _ Hv Hv0 eq_refl) as HG.
    destruct (gtb (mk 2023 1 d0 h mi s us) (mk 2023 1 1 0 0 0 0)).
    - left. split; [reflexivity|]. apply HG. reflexivity.
    - right. split; [reflexivity|].
      destruct (Z.le_gt_cases (stamp (mk 2023 1 d0 h mi s us))
                              (stamp (mk 2023 1 1 0 0 0 0))) as [L|L];
        [exact L|]. apply HG in L. discriminate. }
  split; intros ->.
  - destruct (Hcase 1) as [[G L] | [G L]];
      [apply valid_bounds; exact Ht | |];
      rewrite G; cbn [bind]; rewrite sub_days; revert L;
      unfold whole_days, stamp, toordinal;
      cbn [year month day hour minute second microsecond]; ordinals;
      intros L;
      destruct (midnight (mk 2023 1 1 h mi s us)) eqn:M;
      try (apply Hmid in M);
      try (apply not_true_iff_false in M; rewrite Hmid in M);
      do 2 f_equal; Z.div_mod_to_equations; lia.
  - destruct (Hcase 2) as [[G L] | [G L]];
      [apply valid_bounds; exact Ht | |];
      rewrite G; cbn [bind]; rewrite sub_days; revert L;
      unfold whole_days, stamp, toordinal;
      cbn [year month day hour minute second microsecond]; ordinals;
      intros L;
      destruct (midnight (mk 2023 1 2 h mi s us)) eqn:M;
      try (apply Hmid in M);
      try (apply not_true_iff_false in M; rewrite Hmid in M);
      do 2 f_equal; Z.div_mod_to_equations; lia.
Qed.

End Birthdays.

Section DaysToBirthday.

Local Open Scope Z_scope.
Import datetime.

(** [strptime] takes a month or a day of one digit, and a day written
    as a blank and a digit; [Birthday] keeps the string as it was given. *)
Lemma Birthday_accepts_unpadded :
  Birthday.new (lit "2000-1-1")
  = Ok (Birthday.mk (lit "2000-1-1") (mk 2000 1 1 0 0 0 0)) /\
  Birthday.new (lit "2000-12- 1")
  = Ok (Birthday.mk (lit "2000-12- 1") (mk 2000 12 1 0 0 0 0)) /\
  Birthday.new (lit "2000-13-01")
  = Raise (ValueError (IncorrectBirthdayFormat (lit "2000-13-01"))) /\
  Birthday.new (lit "2001-02-29")
  = Raise (ValueError (IncorrectBirthdayFormat (lit "2001-02-29"))).
Proof. vm_compute. repeat split. Qed.

(** The birthday of a record the program can hold was made by the
    constructor of [Birthday]. *)
Lemma reachable_constructed (self : ContactRecord.t) :
  reachable self -> forall b, birthday self = Some b -> constructed b.
Proof.
  induction 1 as [n bd self H | raw self _ IH | raw self _ IH
                  | o n self _ IH]; intros b Hb.
  - unfold ContactRecord.new in H.
    destruct (Name.new n); cbn [bind] in H; [|discriminate].
    destruct bd as [raw|]; [destruct (truthy raw)|].
    + destruct (Birthday.new raw) as [b'|] eqn:E; cbn [bind] in H;
        [|discriminate].
      injection H as <-. cbn [birthday] in Hb. injection Hb as <-.
      unfold constructed. unfold Birthday.new in E |- *.
      destruct (strptime.run raw) as [d|[m]] eqn:Er; [|discriminate].
      injection E as <-. cbn [Birthday.value]. rewrite Er. reflexivity.
    + injection H as <-. discriminate.
    + injection H as <-. discriminate.
  - apply IH. unfold add_phone in Hb.
    destruct (len (phones self) <? 2)%Z; [|exact Hb].
    destruct (Phone.new raw); exact Hb.
  - apply IH. exact Hb.
  - apply IH. unfold edit_phone in Hb.
    destruct (Phone.bad_format n); [exact Hb|].
    destruct (fst (edit_loop o n (phones self) false)) as [[|]|];
      exact Hb.
Qed.

Lemma days_to_birthday_none (self : ContactRecord.t) (today : datetime.t) :
  days_to_birthday self today = Ok None <-> birthday self = None.
Proof.
  unfold days_to_birthday. destruct (birthday self) as [b|].
  - split; [|discriminate].
    destruct (replace_year (Birthday.date b) (year today)) as [bd|];
      cbn [bind]; [|discriminate].
    destruct (gtb today bd); [|cbn [bind]; discriminate].
    destruct (replace_year bd (year today + 1)); cbn [bind]; discriminate.
  - split; reflexivity.
Qed.

(** C3, as the code has it, for a record made by the constructor and
    changed by the methods, and a valid [datetime.now()]:
    [days_to_birthday] returns [None] exactly when the record has no
    birthday.  When it returns a number, the number is not negative and
    is the whole days, rounded down, from now to the birthday's month and
    day at midnight in the current year, or in the next year when the
    date in the current year is strictly before now.  It does return a
    number for every birthday but 29 February, in every year but the
    last.  For the birthday 2000-01-01 it returns, on 2023-01-01, 0 at
    midnight and 364 at any later time of the day, and on 2023-01-02, 364
    at midnight and 363 at any later time of the day. *)
Theorem days_to_birthday_spec (self : ContactRecord.t)
        (today : datetime.t) :
  valid today -> reachable self ->
  (days_to_birthday self today = Ok None <-> birthday self = None) /\
  (forall n, days_to_birthday self today = Ok (Some n) ->
     0 <= n /\
     exists b y,
       birthday self = Some b /\
       valid (occurrence b y) /\
       stamp today <= stamp (occurrence b y) /\
       (y = year today \/
        (y = year today + 1 /\
         valid (occurrence b (year today)) /\
         stamp (occurrence b (year today)) < stamp today)) /\
       n = whole_days today (occurrence b y)) /\
  (forall b, birthday self = Some b ->
     ~ (month (Birthday.date b) = 2 /\ day (Birthday.date b) = 29) ->
     year today < 9999 ->
     exists n, days_to_birthday self today = Ok (Some n)) /\
  (forall b, birthday self = Some b ->
     Birthday.new (lit "2000-01-01") = Ok b ->
     year today = 2023 -> month today = 1 ->
     (day today = 1 ->
      days_to_birthday self today
      = Ok (Some (if midnight today then 0 else 364))) /\
     (day today = 2 ->
      days_to_birthday self today
      = Ok (Some (if midnight today then 364 else 363)))).
Proof.
  intros Ht Hr. pose proof (reachable_constructed self Hr) as Hc.
  split; [apply days_to_birthday_none|].
  split; [|split].
  - intros n Hn. destruct (birthday self) as [b|] eqn:Hb.
    + destruct (days_to_birthday_some self today b n Hb (Hc b eq_refl)
                                      Ht Hn) as [H0 [y Hy]].
      split; [exact H0|]. exists b, y. split; [reflexivity | exact Hy].
    + unfold days_to_birthday in Hn. rewrite Hb in Hn. discriminate.
  - intros b Hb Hn Hy.
    apply (days_to_birthday_total self today b Hb (Hc b Hb) Ht Hn Hy).
  - intros b Hb Hnew Hy Hm.
    apply (days_to_first_of_january self today b Hb Hnew Ht Hy Hm).
Qed.

Lemma days_to_birthday_spec_witness :
  let b := Birthday.mk (lit "2000-01-01") (mk 2000 1 1 0 0 0 0) in
  let ann := ContactRecord.mk (Name.mk (lit "Ann")) [] (Some b) in
  days_to_birthday ann (mk 2023 1 1 0 0 0 0) = Ok (Some 0) /\
  days_to_birthday ann (mk 2023 1 1 12 0 0 0) = Ok (Some 364) /\
  days_to_birthday ann (mk 2023 1 2 0 0 0 0) = Ok (Some 364) /\
  days_to_birthday ann (mk 2023 1 2 12 0 0 0) = Ok (Some 363).
Proof.
  cbv zeta.
  pose (b := Birthday.mk (lit "2000-01-01") (mk 2000 1 1 0 0 0 0)).
  pose (ann := ContactRecord.mk (Name.mk (lit "Ann")) [] (Some b)).
  assert (Hr : reachable ann).
  { apply (reach_new (lit "Ann") (Some (lit "2000-01-01"))). reflexivity. }
  assert (V : forall d h, In (d, h) [(1, 0); (1, 12); (2, 0); (2, 12)] ->
                          valid (mk 2023 1 d h 0 0 0)).
  { intros d h [H | [H | [H | [H | []]]]]; injection H as <- <-;
      reflexivity. }
  split; [|split; [|split]].
  - refine (proj1 (proj2 (proj2 (proj2
             (days_to_birthday_spec ann (mk 2023 1 1 0 0 0 0) _ Hr)))
             b eq_refl eq_refl eq_refl eq_refl) eq_refl).
    apply V. simpl. tauto.
  - refine (proj1 (proj2 (proj2 (proj2
             (days_to_birthday_spec ann (mk 2023 1 1 12 0 0 0) _ Hr)))
             b eq_refl eq_refl eq_refl eq_refl) eq_refl).
    apply V. simpl. tauto.
  - refine (proj2 (proj2 (proj2 (proj2
             (days_to_birthday_spec ann (mk 2023 1 2 0 0 0 0) _ Hr)))
             b eq_refl eq_refl eq_refl eq_refl) eq_refl).
    apply V. simpl. tauto.
  - refine (proj2 (proj2 (proj2 (proj2
             (days_to_birthday_spec ann (mk 2023 1 2 12 0 0 0) _ Hr)))
             b eq_refl eq_refl eq_refl eq_refl) eq_refl).
    apply V. simpl. tauto.
Defined.

(** C3 as stated fails: for the birthday 2000-01-01, at noon of
    2023-01-01 the result is 364, not 0 nor a small number, and at noon
    of the day after it is 363, neither 364 nor 365. *)
Lemma days_to_birthday_at_noon :
  exists self,
    ContactRecord.new (lit "Ann") (Some (lit "2000-01-01")) = Ok self /\
    valid (mk 2023 1 1 12 0 0 0) /\
    days_to_birthday self (mk 2023 1 1 12 0 0 0) = Ok (Some 364) /\
    valid (mk 2023 1 2 12 0 0 0) /\
    days_to_birthday self (mk 2023 1 2 12 0 0 0) = Ok (Some 363).
Proof.
  eexists. split; [vm_compute; reflexivity|].
  repeat split.
Qed.

(** C9: [Birthday] accepts 2000-02-29, a record with that birthday is
    made by the constructor, and in every year that is not a leap year
    [days_to_birthday] raises the error of [replace] instead of
    returning a number; the same holds of every birthday on
    29 February. *)
Theorem days_to_birthday_feb29_raises :
  (exists b, Birthday.new (lit "2000-02-29") = Ok b /\
             Birthday.date b = mk 2000 2 29 0 0 0 0) /\
  (forall self,
     ContactRecord.new (lit "Bob") (Some (lit "2000-02-29")) = Ok self ->
     forall today, valid today -> _is_leap (year today) = false ->
     days_to_birthday self today = Raise (ValueError DayOutOfRange)) /\
  (exists self, ContactRecord.new (lit "Bob") (Some (lit "2000-02-29"))
                = Ok self) /\
  (forall self b today,
     birthday self = Some b ->
     month (Birthday.date b) = 2 -> day (Birthday.date b) = 29 ->
     valid today -> _is_leap (year today) = false ->
     days_to_birthday self today = Raise (ValueError DayOutOfRange)).
Proof.
  split; [eexists; split; vm_compute; reflexivity|].
  split; [|split].
  - intros self Hnew today Ht Hl. vm_compute in Hnew.
    injection Hnew as <-.
    eapply replace_feb29_raises;
      [reflexivity | reflexivity | reflexivity | exact Ht | exact Hl].
  - eexists. vm_compute. reflexivity.
  - intros self b today. apply replace_feb29_raises.
Qed.

Lemma days_to_birthday_feb29_raises_witness :
  exists self,
    ContactRecord.new (lit "Bob") (Some (lit "2000-02-29")) = Ok self /\
    days_to_birthday self (mk 2023 6 15 10 30 0 0)
    = Raise (ValueError DayOutOfRange).
Proof.
  destruct days_to_birthday_feb29_raises as [_ [H [[self Hs] _]]].
  exists self. split; [exact Hs|].
  apply (H self Hs (mk 2023 6 15 10 30 0 0)); reflexivity.
Defined.

End DaysToBirthday.

(** ** AddressBook: [add_contact] *)

Section AddContact.

Import AddressBook.

Lemma dict_contains_false_get (d : dict) (k : str) :
  dict_contains d k = false <-> dict_get d k = None.
Proof.
  unfold dict_contains. destruct (dict_get d k); split; congruence.
Qed.

(** Assigning to an absent key appends the item. *)
Lemma dict_set_absent (d : dict) (k : str) (v : ref) :
  dict_contains d k = false -> dict_set d k v = d ++ [(k, v)].
Proof.
  rewrite dict_contains_false_get.
  induction d as [|[k' v'] d IH]; simpl; [reflexivity|].
  destruct (str_eqb k' k); [discriminate|].
  intros H. rewrite (IH H). reflexivity.
Qed.

Lemma Name_new_inv (s : str) (n : Name.t) :
  Name.new s = Ok n -> n = Name.mk s /\ s <> [].
Proof.
  unfold Name.new. destruct s as [|c s]; [discriminate|].
  cbn [truthy negb]. destruct (negb (Name.re_match (c :: s)));
    [discriminate|].
  intros H. injection H as <-. split; [reflexivity | discriminate].
Qed.

Lemma phone2_field_inv (phone2 : option str) (p2 : option Phone.t) :
  phone2_field phone2 = Ok p2 ->
  (given phone2 = false /\ p2 = None) \/
  (exists p, phone2 = Some p /\ p <> [] /\
             Phone.new p = Ok (Phone.mk p) /\ p2 = Some (Phone.mk p)).
Proof.
  unfold phone2_field. destruct phone2 as [p|].
  - cbn [given]. destruct (truthy p) eqn:Et.
    + destruct (Phone.new p) as [f|e] eqn:Ep; cbn [bind]; [|discriminate].
      intros H. injection H as <-. right. exists p.
      apply truthy_true in Et. apply Phone_new_inv in Ep.
      destruct Ep as [Hb ->]. rewrite (Phone_new_ok p Hb). auto.
    + intros H. injection H as <-. left. auto.
  - intros H. injection H as <-. left. auto.
Qed.

(** The two [add_phone] calls on the new record cannot fail: it has no
    phone and the numbers were validated. *)
Lemma add_phones_fresh (p1 : Phone.t) (p2 : option Phone.t)
      (record : ContactRecord.t) :
  phones record = [] ->
  Phone.new (Phone.value p1) = Ok p1 ->
  (forall f, p2 = Some f -> Phone.new (Phone.value f) = Ok f) ->
  add_phones p1 p2 record
  = Ok (set_phones record (new_phones_of p1 p2)).
Proof.
  intros Hr H1 H2. unfold add_phones, add_phone. rewrite Hr.
  cbn [len List.length Z.of_nat Z.ltb Z.compare]. rewrite H1.
  cbn [app set_phones phones].
  destruct p2 as [f|]; [|reflexivity].
  cbn [len List.length Z.of_nat Z.ltb Z.compare Pos.of_succ_nat
       Pos.compare Pos.compare_cont].
  rewrite (H2 f eq_refl). reflexivity.
Qed.

Lemma add_record_alloc (o : ContactRecord.t) (s : store) :
  add_record (fst (alloc o s)) (snd (alloc o s))
  = mk (objects s ++ [o])
       (dict_set (data s) (Name.value (ContactRecord.name o))
                 (List.length (objects s))).
Proof.
  unfold add_record, alloc, deref. cbn [fst snd objects data].
  rewrite nth_error_app2 by lia. rewrite Nat.sub_diag. reflexivity.
Qed.

Lemma ContactRecord_new_inv (name_ : str) (birthday_ : option str)
      (r : ContactRecord.t) :
  ContactRecord.new name_ birthday_ = Ok r ->
  ContactRecord.name r = Name.mk name_ /\ phones r = [].
Proof.
  intros H. split; [|exact (new_phones _ _ _ H)].
  unfold ContactRecord.new in H.
  destruct (Name.new name_) as [n|e] eqn:En; cbn [bind] in H;
    [|discriminate].
  apply Name_new_inv in En. destruct En as [-> _].
  destruct birthday_ as [b|].
  - destruct (truthy b).
    + destruct (Birthday.new b); cbn [bind] in H; [|discriminate].
      injection H as <-. reflexivity.
    + injection H as <-. reflexivity.
  - injection H as <-. reflexivity.
Qed.

(** The last steps of a call whose checks all pass. *)
Lemma add_contact_finish (s : store) (name : str) (p1 : Phone.t)
      (p2 : option Phone.t) (r : ContactRecord.t) (phone1 : str)
      (phone2 birthday : option str) :
  dict_contains (data s) name = false ->
  Phone.new phone1 = Ok p1 -> phone2_field phone2 = Ok p2 ->
  ContactRecord.new name birthday = Ok r ->
  match add_phones p1 p2 r with
  | Raise e => (Raise e, s)
  | Ok record' =>
      (Ok (ContactAdded name),
       add_record (fst (alloc record' s)) (snd (alloc record' s)))
  end
  = (Ok (ContactAdded name),
     mk (objects s ++ [set_phones r (new_phones_of p1 p2)])
        (data s ++ [(name, List.length (objects s))])).
Proof.
  intros Hc Hp1 Hp2 Hr.
  destruct (ContactRecord_new_inv _ _ _ Hr) as [Hname Hphones].
  apply Phone_new_inv in Hp1. destruct Hp1 as [Hb1 ->].
  rewrite add_phones_fresh.
  - rewrite add_record_alloc. cbn [ContactRecord.name set_phones].
    rewrite Hname. cbn [Name.value].
    rewrite (dict_set_absent _ _ _ Hc). reflexivity.
  - exact Hphones.
  - apply Phone_new_ok. exact Hb1.
  - intros f ->. apply phone2_field_inv in Hp2.
    destruct Hp2 as [[_ H] | [p [_ [_ [Hp H]]]]]; [discriminate|].
    injection H as ->. exact Hp.
Qed.

(** C1, as the code has it: the checks of [add_contact] in their order.
    An empty name is reported first; then a name already in the book;
    then a name that [Name] refuses; then a first phone that [Phone]
    refuses; then a second phone, if given and not the empty string, that
    [Phone] refuses; then a birthday, if given and not the empty string,
    that [Birthday] refuses when the record is built.  Each report leaves
    the objects and the book as they were.  When every check passes the
    record is built, gets the first phone and then the second, and is
    the one new object and the one new, last entry of the book.  No
    exception leaves the call. *)
Theorem add_contact_checks (s : store) (name phone1 : str)
        (phone2 birthday : option str) :
  let out := add_contact name phone1 phone2 birthday s in
  (name = [] -> out = (Ok InvalidContactName, s)) /\
  (name <> [] -> dict_contains (data s) name = true ->
   out = (Ok (AlreadyExists name), s)) /\
  (name <> [] -> dict_contains (data s) name = false ->
   forall m, Name.new name = Raise (ValueError m) ->
   out = (Ok (ErrorText m), s)) /\
  (dict_contains (data s) name = false ->
   forall n, Name.new name = Ok n ->
   (forall m, Phone.new phone1 = Raise (ValueError m) ->
    out = (Ok (ErrorText m), s)) /\
   (forall p1, Phone.new phone1 = Ok p1 ->
    (forall p m, phone2 = Some p -> p <> [] ->
     Phone.new p = Raise (ValueError m) ->
     out = (Ok (ErrorText m), s)) /\
    (forall p2, phone2_field phone2 = Ok p2 ->
     (forall b m, birthday = Some b -> b <> [] ->
      Birthday.new b = Raise (ValueError m) ->
      out = (Ok (ErrorText m), s)) /\
     (forall r, ContactRecord.new name birthday = Ok r ->
      out = (Ok (ContactAdded name),
             mk (objects s ++ [set_phones r (new_phones_of p1 p2)])
                (data s ++ [(name, List.length (objects s))])))))) /\
  (exists p, fst out = Ok p /\ (p <> ContactAdded name -> snd out = s)).
Proof.
  cbv zeta. unfold add_contact.
  split; [intros ->; reflexivity|].
  split.
  { intros Hne Hc. apply truthy_true in Hne. rewrite Hne, Hc.
    reflexivity. }
  split.
  { intros Hne Hc m Hn. apply truthy_true in Hne.
    rewrite Hne, Hc, Hn. reflexivity. }
  split.
  { intros Hc n Hn. destruct (Name_new_inv _ _ Hn) as [-> Hne].
    apply truthy_true in Hne. rewrite Hne, Hc, Hn.
    split; [intros m Hp; rewrite Hp; reflexivity|].
    intros p1 Hp1. rewrite Hp1.
    split.
    { intros p m -> Hpne Hp. unfold phone2_field.
      apply truthy_true in Hpne. rewrite Hpne, Hp. reflexivity. }
    intros p2 Hp2. rewrite Hp2. cbn [Name.value].
    split.
    { intros b m -> Hbne Hb. unfold ContactRecord.new.
      rewrite Hn. cbn [bind]. apply truthy_true in Hbne.
      rewrite Hbne, Hb. reflexivity. }
    intros r Hr. rewrite Hr.
    apply (add_contact_finish s name p1 p2 r phone1 phone2 birthday);
      assumption. }
  destruct (truthy name) eqn:Hne;
    [|eexists; split; [reflexivity | reflexivity]].
  destruct (dict_contains (data s) name) eqn:Hc;
    [eexists; split; [reflexivity | reflexivity]|].
  destruct (Name.new name) as [n|[m]] eqn:Hn;
    [|eexists; split; [reflexivity | reflexivity]].
  destruct (Name_new_inv _ _ Hn) as [-> _]. cbn [Name.value].
  destruct (Phone.new phone1) as [p1|[m]] eqn:Hp1;
    [|eexists; split; [reflexivity | reflexivity]].
  destruct (phone2_field phone2) as [p2|[m]] eqn:Hp2;
    [|eexists; split; [reflexivity | reflexivity]].
  destruct (ContactRecord.new name birthday) as [r|[m]] eqn:Hr;
    [|eexists; split; [reflexivity | reflexivity]].
  rewrite (add_contact_finish s name p1 p2 r phone1 phone2 birthday)
    by assumption.
  eexists. split; [reflexivity|]. intros H. contradiction H. reflexivity.
Qed.

Lemma add_contact_checks_witness :
  let s :=
    snd (add_contact (lit "Ann") (lit "0123456789") None None empty) in
  add_contact [] (lit "0123456789") None None s
  = (Ok InvalidContactName, s) /\
  add_contact (lit "Ann") (lit "bad") None None s
  = (Ok (AlreadyExists (lit "Ann")), s) /\
  add_contact (lit "B0b") (lit "bad") None None s
  = (Ok (ErrorText (NameOnlyLetters (lit "B0b"))), s) /\
  add_contact (lit "Bob") (lit "bad") (Some (lit "worse")) None s
  = (Ok (ErrorText (IncorrectPhoneFormat (lit "bad"))), s) /\
  add_contact (lit "Bob") (lit "1111111111") (Some (lit "worse"))
              (Some (lit "never")) s
  = (Ok (ErrorText (IncorrectPhoneFormat (lit "worse"))), s) /\
  add_contact (lit "Bob") (lit "1111111111") (Some (lit "2222222222"))
              (Some (lit "never")) s
  = (Ok (ErrorText (IncorrectBirthdayFormat (lit "never"))), s) /\
  add_contact (lit "Bob") (lit "1111111111") (Some (lit "2222222222"))
              None s
  = (Ok (ContactAdded (lit "Bob")),
     mk (objects s
         ++ [ContactRecord.mk (Name.mk (lit "Bob"))
               [Phone.mk (lit "1111111111"); Phone.mk (lit "2222222222")]
               None])
        (data s ++ [(lit "Bob", 1%nat)])).
Proof.
  cbv zeta.
  pose (s := snd (add_contact (lit "Ann") (lit "0123456789") None None
                              empty)).
  pose (one := Phone.mk (lit "1111111111")).
  pose (two := Phone.mk (lit "2222222222")).
  assert (Hc : dict_contains (data s) (lit "Bob") = false) by reflexivity.
  assert (Hn : Name.new (lit "Bob") = Ok (Name.mk (lit "Bob")))
    by reflexivity.
  split.
  { refine (proj1 (add_contact_checks s [] (lit "0123456789") None None) _).
    reflexivity. }
  split.
  { refine (proj1 (proj2 (add_contact_checks s (lit "Ann") (lit "bad")
                                             None None)) _ _);
      [discriminate | reflexivity]. }
  split.
  { refine (proj1 (proj2 (proj2 (add_contact_checks s (lit "B0b")
                                   (lit "bad") None None))) _ _ _ _);
      [discriminate | reflexivity | reflexivity]. }
  split.
  { refine (proj1 (proj1 (proj2 (proj2 (proj2
              (add_contact_checks s (lit "Bob") (lit "bad")
                                  (Some (lit "worse")) None))))
              Hc _ Hn) _ _).
    reflexivity. }
  split.
  { refine (proj1 (proj2 (proj1 (proj2 (proj2 (proj2
              (add_contact_checks s (lit "Bob") (lit "1111111111")
                                  (Some (lit "worse"))
                                  (Some (lit "never"))))))
              Hc _ Hn) one _) (lit "worse") _ _ _ _);
      [reflexivity | reflexivity | discriminate | reflexivity]. }
  split.
  { refine (proj1 (proj2 (proj2 (proj1 (proj2 (proj2 (proj2
              (add_contact_checks s (lit "Bob") (lit "1111111111")
                                  (Some (lit "2222222222"))
                                  (Some (lit "never"))))))
              Hc _ Hn) one _) (Some two) _) (lit "never") _ _ _ _);
      [reflexivity | reflexivity | reflexivity | discriminate
      | reflexivity]. }
  refine (proj2 (proj2 (proj2 (proj1 (proj2 (proj2 (proj2
            (add_contact_checks s (lit "Bob") (lit "1111111111")
                                (Some (lit "2222222222")) None))))
            Hc _ Hn) one _) (Some two) _)
            (ContactRecord.mk (Name.mk (lit "Bob")) [] None) _);
    reflexivity.
Defined.

(** C1 as stated fails: a second phone or a birthday given as the empty
    string is not validated, though [Phone] and [Birthday] refuse the
    empty string; the contact is added without it. *)
Lemma add_contact_empty_arguments :
  let bob phones :=
    mk [ContactRecord.mk (Name.mk (lit "Bob")) phones None]
       [(lit "Bob", 0%nat)] in
  Phone.new [] = Raise (ValueError (IncorrectPhoneFormat [])) /\
  add_contact (lit "Bob") (lit "0123456789") (Some []) None empty
  = (Ok (ContactAdded (lit "Bob")), bob [Phone.mk (lit "0123456789")]) /\
  Birthday.new [] = Raise (ValueError (IncorrectBirthdayFormat [])) /\
  add_contact (lit "Bob") (lit "0123456789") None (Some []) empty
  = (Ok (ContactAdded (lit "Bob")), bob [Phone.mk (lit "0123456789")]).
Proof. cbv zeta. repeat split. Qed.

End AddContact.

(** ** AddressBook: the paging generator *)

Section Paging.

Import AddressBook.
Local Open Scope Z_scope.

Lemma paged_concat {A : Type} (k : nat) (l : list A)
      (pages : list (list A)) :
  paged k l pages -> List.concat pages = l.
Proof.
  induction 1 as [|l Hne Hl|page rest pages Hp Hne _ IH]; simpl.
  - reflexivity.
  - apply app_nil_r.
  - rewrite IH. reflexivity.
Qed.

Lemma paged_empty {A : Type} (k : nat) (pages : list (list A)) :
  paged k [] pages -> pages = [].
Proof.
  intros H. remember (@nil A) as l eqn:E.
  destruct H as [|l Hne Hl|page rest pages Hp Hne Hr].
  - reflexivity.
  - contradiction.
  - apply app_eq_nil in E. destruct E as [_ E]. contradiction.
Qed.

Lemma paged_nonempty {A : Type} (k : nat) (l : list A)
      (pages : list (list A)) :
  paged k l pages -> l <> [] -> pages <> [].
Proof.
  intros H Hne. destruct H; [contradiction Hne; reflexivity | | ];
    discriminate.
Qed.

(** Every page holds from 1 to [k] items, and every page but the last
    holds [k]. *)
Lemma paged_sizes {A : Type} (k : nat) (l : list A)
      (pages : list (list A)) :
  (1 <= k)%nat -> paged k l pages ->
  forall i page, nth_error pages i = Some page ->
    (1 <= List.length page <= k)%nat /\
    ((S i < List.length pages)%nat -> List.length page = k).
Proof.
  intros Hk H.
  induction H as [|l Hne Hl|page rest pages Hp Hne Hr IH];
    intros i p Hi.
  - destruct i; discriminate.
  - destruct i as [|i]; [|destruct i; discriminate].
    injection Hi as <-. split.
    + destruct l; [contradiction Hne; reflexivity|]. simpl in *. lia.
    + simpl. lia.
  - destruct i as [|i].
    + injection Hi as <-. split; [lia | intros _; exact Hp].
    + simpl in Hi. destruct (IH i p Hi) as [H1 H2].
      split; [exact H1|]. simpl. intros Hlt. apply H2. lia.
Qed.

(** There are no more pages than items. *)
Lemma paged_count {A : Type} (k : nat) (l : list A)
      (pages : list (list A)) :
  (1 <= k)%nat -> paged k l pages ->
  (List.length pages <= List.length l)%nat.
Proof.
  intros Hk H.
  induction H as [|l Hne Hl|page rest pages Hp Hne Hr IH]; simpl.
  - lia.
  - destruct l; [contradiction Hne; reflexivity|]. simpl. lia.
  - rewrite length_app. lia.
Qed.

(** The slice the generator takes, while there are records left. *)
Lemma slice_page {A : Type} (l : list A) (cp ps : Z) :
  0 <= cp < len l -> 1 <= ps ->
  slice l cp (cp + ps) = firstn (Z.to_nat ps) (skipn (Z.to_nat cp) l).
Proof.
  intros Hcp Hps. unfold slice, adjust.
  replace (cp <? 0) with false by (symmetry; apply Z.ltb_ge; lia).
  replace (cp + ps <? 0) with false by (symmetry; apply Z.ltb_ge; lia).
  rewrite (Z.min_l cp) by lia.
  destruct (Z.le_gt_cases (cp + ps) (len l)) as [L|L].
  - rewrite Z.min_l by lia. f_equal. lia.
  - rewrite Z.min_r by lia.
    assert (E : List.length (skipn (Z.to_nat cp) l)
                = Z.to_nat (len l - cp)).
    { rewrite length_skipn. unfold len. lia. }
    rewrite !firstn_all2; [reflexivity | lia | lia].
Qed.

Lemma In_slice {A : Type} (l : list A) (i j : Z) (x : A) :
  In x (slice l i j) -> In x l.
Proof.
  unfold slice. intros H.
  rewrite <- (firstn_skipn (Z.to_nat (adjust (len l) i)) l).
  apply in_or_app. right.
  rewrite <- (firstn_skipn (Z.to_nat (adjust (len l) j - adjust (len l) i))
                           (skipn (Z.to_nat (adjust (len l) i)) l)).
  apply in_or_app. left. exact H.
Qed.

Lemma drive_cons (g : generator) (s : store) (l : list store) :
  drive g (s :: l)
  = match next g s with
    | (Some page, g') => (page :: fst (drive g' l), snd (drive g' l))
    | (None, g') => ([], g')
    end.
Proof. reflexivity. Qed.

(** A consumer that keeps asking while the book is [s] gets the pages
    of what is left of [records] and then [StopIteration]. *)
Lemma drive_loop_paged (fuel : nat) :
  forall (g : generator) (s : store) (records : list ref) (cp ps : Z),
    1 <= ps -> 0 <= cp ->
    next g s = loop (len records) records cp ps ->
    len records - cp <= Z.of_nat fuel ->
    snd (drive g (repeat s (S fuel))) = Finished /\
    paged (Z.to_nat ps) (skipn (Z.to_nat cp) records)
          (fst (drive g (repeat s (S fuel)))).
Proof.
  induction fuel as [|fuel IH]; intros g s records cp ps Hps Hcp Hg Hf;
    [change (repeat s 1) with [s]
    |change (repeat s (S (S fuel))) with (s :: repeat s (S fuel))];
    rewrite drive_cons, Hg; unfold loop.
  - replace (cp <? len records) with false
      by (symmetry; apply Z.ltb_ge; lia).
    cbn [fst snd]. split; [reflexivity|].
    rewrite skipn_all2 by (unfold len in *; lia). constructor.
  - destruct (cp <? len records) eqn:E.
    + apply Z.ltb_lt in E.
      destruct (IH (Suspended (len records) records cp ps) s records
                   (cp + ps) ps Hps) as [IH1 IH2];
        [lia | reflexivity | lia |].
      cbn [fst snd].
      split; [exact IH1|].
      rewrite slice_page by lia.
      set (l := skipn (Z.to_nat cp) records) in *.
      assert (El : skipn (Z.to_nat (cp + ps)) records
                   = skipn (Z.to_nat ps) l).
      { subst l. rewrite skipn_skipn. f_equal. lia. }
      rewrite El in IH2.
      assert (Hl : List.length l = Z.to_nat (len records - cp)).
      { subst l. rewrite length_skipn. unfold len. lia. }
      destruct (skipn (Z.to_nat ps) l) as [|x rest] eqn:Er.
      * rewrite (paged_empty _ _ IH2).
        assert (Hle : (List.length l <= Z.to_nat ps)%nat).
        { assert (H0 : List.length (skipn (Z.to_nat ps) l) = 0%nat)
            by (rewrite Er; reflexivity).
          rewrite length_skipn in H0. lia. }
        rewrite firstn_all2 by exact Hle.
        apply paged_last; [|exact Hle].
        intros H0. rewrite H0 in Hl. simpl in Hl. lia.
      * rewrite <- (firstn_skipn (Z.to_nat ps) l) at 1. rewrite Er.
        apply paged_more; [|discriminate|exact IH2].
        rewrite length_firstn.
        assert (H0 : List.length (skipn (Z.to_nat ps) l)
                     = S (List.length rest))
          by (rewrite Er; reflexivity).
        rewrite length_skipn in H0. lia.
    + apply Z.ltb_ge in E. cbn [fst snd]. split; [reflexivity|].
      rewrite skipn_all2 by (unfold len in *; lia). constructor.
Qed.

(** Once started, the generator no longer looks at the book. *)
Lemma next_started (g : generator) (s s' : store) :
  started g -> next g s = next g s' /\ started (snd (next g s)).
Proof.
  destruct g as [ps|t r cp ps|]; cbn [started next];
    [contradiction| |auto].
  intros _. split; [reflexivity|].
  unfold loop. destruct (cp + ps <? t); exact I.
Qed.

Lemma drive_started (l1 : list store) :
  forall (g : generator) (l2 : list store),
    started g -> List.length l1 = List.length l2 ->
    drive g l1 = drive g l2.
Proof.
  induction l1 as [|s1 l1 IH]; intros g [|s2 l2] Hg Hl;
    try discriminate; [reflexivity|].
  cbn [drive]. destruct (next_started g s1 s2 Hg) as [E Hs].
  rewrite <- E. destruct (next g s1) as [[page|] g'].
  - cbn [snd] in Hs. rewrite (IH g' l2 Hs); [reflexivity|].
    simpl in Hl. lia.
  - reflexivity.
Qed.

Lemma next_created_started (ps : Z) (s : store) :
  started (snd (next (Created ps) s)).
Proof.
  cbn [next]. unfold loop.
  destruct (0 <? len (data s)); exact I.
Qed.

(** The records a generator holds. *)
Lemma drive_pages_in (l : list store) :
  forall t records cp ps page x,
    In page (fst (drive (Suspended t records cp ps) l)) ->
    In x page -> In x records.
Proof.
  induction l as [|s l IH]; intros t records cp ps page x Hp Hx;
    cbn [drive fst] in Hp; [contradiction|].
  cbn [next] in Hp. unfold loop in Hp.
  destruct (cp + ps <? t); [|contradiction].
  cbn [fst] in Hp. destruct Hp as [<- | Hp].
  - apply In_slice in Hx. exact Hx.
  - apply (IH t records (cp + ps) ps page x Hp Hx).
Qed.

Lemma paged_five_by_two {A : Type} (l : list A) (pages : list (list A)) :
  paged 2 l pages -> List.length l = 5%nat ->
  map (@List.length A) pages = [2; 2; 1]%nat.
Proof.
  intros H Hl.
  destruct H as [|l Hne Hle|p1 r1 pages Hp1 Hne1 H];
    [discriminate | lia |].
  rewrite length_app in Hl.
  destruct H as [|l Hne Hle|p2 r2 pages Hp2 Hne2 H];
    [contradiction | lia |].
  rewrite length_app in Hl.
  destruct H as [|l Hne Hle|p3 r3 pages Hp3 Hne3 H];
    [contradiction | | rewrite length_app in Hl; lia].
  simpl. repeat f_equal; lia.
Qed.

(** C8: asked for pages until it stops, with [page_size] at least 1, the
    generator stops after finitely many pages; the pages, one after the
    other, are the records of the book in the order of the [dict], which
    is the order of insertion; every page holds from 1 to [page_size]
    records and every page but the last holds [page_size]; there are no
    more pages than records; 5 records by pages of 2 give pages of 2, 2
    and 1 records; and a record stored under a new name comes last in
    that order. *)
Theorem iterator_pages (s : store) (page_size : Z) (fuel : nat) :
  1 <= page_size -> (List.length (data s) <= fuel)%nat ->
  let run := drive (iterator page_size) (repeat s (S fuel)) in
  snd run = Finished /\
  List.concat (fst run) = dict_values (data s) /\
  (forall i page, nth_error (fst run) i = Some page ->
     1 <= len page <= page_size /\
     ((S i < List.length (fst run))%nat -> len page = page_size)) /\
  (List.length (fst run) <= List.length (data s))%nat /\
  (List.length (data s) = 5%nat -> page_size = 2 ->
   map (@len ref) (fst run) = [2; 2; 1]) /\
  (forall name record,
     dict_contains (data s) name = false ->
     dict_values (dict_set (data s) name record)
     = dict_values (data s) ++ [record]).
Proof.
  intros Hps Hfuel. cbv zeta.
  assert (Hlen : List.length (dict_values (data s))
                 = List.length (data s))
    by (unfold dict_values; apply length_map).
  destruct (drive_loop_paged fuel (iterator page_size) s
              (dict_values (data s)) 0 page_size Hps (Z.le_refl 0))
    as [Hfin Hpaged].
  { cbn [iterator next]. unfold len. rewrite Hlen. reflexivity. }
  { unfold len. rewrite Hlen. lia. }
  cbn [Z.to_nat skipn] in Hpaged.
  split; [exact Hfin|].
  split; [apply (paged_concat _ _ _ Hpaged)|].
  split; [|split; [|split]].
  - intros i page Hi.
    destruct (paged_sizes (Z.to_nat page_size) _ _ ltac:(lia) Hpaged
                          i page Hi) as [H1 H2].
    unfold len. split; [lia|]. intros Hlt. specialize (H2 Hlt). lia.
  - rewrite <- Hlen. apply (paged_count (Z.to_nat page_size)); [lia|].
    exact Hpaged.
  - intros H5 ->. rewrite <- Hlen in H5.
    change (Z.to_nat 2) with 2%nat in Hpaged.
    pose proof (paged_five_by_two _ _ Hpaged H5) as Hm.
    unfold len. rewrite <- (map_map (@List.length ref) Z.of_nat).
    rewrite Hm. reflexivity.
  - intros name record Hc. rewrite (dict_set_absent _ _ _ Hc).
    unfold dict_values. rewrite map_app. reflexivity.
Qed.

Lemma iterator_pages_witness :
  let add n s :=
    snd (add_contact (lit n) (lit "0123456789") None None s) in
  let s := add "e"%string (add "d"%string (add "c"%string
             (add "b"%string (add "a"%string empty)))) in
  drive (iterator 2) (repeat s 6)
  = ([[0; 1]; [2; 3]; [4]]%nat, Finished) /\
  snd (drive (iterator 2) (repeat s 6)) = Finished /\
  map (@len ref) (fst (drive (iterator 2) (repeat s 6))) = [2; 2; 1].
Proof.
  cbv zeta.
  pose (add := fun n s =>
    snd (add_contact (lit n) (lit "0123456789") None None s)).
  pose (s := add "e"%string (add "d"%string (add "c"%string
               (add "b"%string (add "a"%string empty))))).
  assert (H1 : 1 <= 2) by lia.
  assert (H2 : (List.length (data s) <= 5)%nat) by (vm_compute; lia).
  destruct (iterator_pages s 2 5 H1 H2) as [Hfin [_ [_ [_ [H5 _]]]]].
  split; [reflexivity|]. split; [exact Hfin|].
  apply H5; reflexivity.
Defined.

(** C2, as the code has it: the generator takes its snapshot when the
    first page is asked for, not when [iterator] is called.  Whatever
    the book becomes after the first request, the pages are those of a
    book that stays as it was at the first request, and every record of
    every page was in the book at the first request. *)
Theorem iterator_snapshot (page_size : Z) (s0 : store)
        (later : list store) :
  drive (iterator page_size) (s0 :: later)
  = drive (iterator page_size) (repeat s0 (S (List.length later))) /\
  (forall page r,
     In page (fst (drive (iterator page_size) (s0 :: later))) ->
     In r page -> In r (dict_values (data s0))).
Proof.
  split.
  - change (repeat s0 (S (List.length later)))
      with (s0 :: repeat s0 (List.length later)).
    rewrite !drive_cons.
    pose proof (next_created_started page_size s0) as Hs.
    unfold iterator.
    destruct (next (Created page_size) s0) as [[page|] g']; [|reflexivity].
    cbn [snd] in Hs.
    rewrite (drive_started later g' (repeat s0 (List.length later)) Hs)
      by (rewrite repeat_length; reflexivity).
    reflexivity.
  - intros page r Hp Hr. rewrite drive_cons in Hp.
    cbn [iterator next] in Hp. unfold loop in Hp.
    destruct (0 <? len (data s0)); [|contradiction].
    cbn [fst] in Hp. destruct Hp as [<- | Hp].
    + apply In_slice in Hr. exact Hr.
    + apply (drive_pages_in later _ _ _ _ page r Hp Hr).
Qed.

(** C2 as stated fails: a record added after the call of [iterator] and
    before the first page is asked for is in the pages. *)
Lemma iterator_sees_later_record :
  let s0 :=
    snd (add_contact (lit "Ann") (lit "0123456789") None None empty) in
  let g := iterator 2 in
  let s1 :=
    snd (add_contact (lit "Bob") (lit "1111111111") None None s0) in
  dict_values (data s0) = [0%nat] /\
  find (lit "Bob") s0 = None /\
  find (lit "Bob") s1 = Some 1%nat /\
  drive g [s1; s1] = ([[0; 1]]%nat, Finished).
Proof. cbv zeta. repeat split. Qed.

(** A page holds the records themselves: a phone edited through
    the book after the page was handed out is edited in the page. *)
Lemma page_shows_later_edit :
  let s0 :=
    snd (add_contact (lit "Ann") (lit "0123456789") None None empty) in
  exists s1,
    fst (drive (iterator 2) [s0]) = [[0%nat]] /\
    call 0%nat (edit_phone (lit "0123456789") (lit "1111111111")) s0
    = Some (Ok tt, s1) /\
    option_map phones (deref s0 0%nat)
    = Some [Phone.mk (lit "0123456789")] /\
    option_map phones (deref s1 0%nat)
    = Some [Phone.mk (lit "1111111111")].
Proof. cbv zeta. eexists. repeat split. Qed.

End Paging.


(** ** Record: phones added, found, edited and removed *)

Section PhoneLookup.

Lemma Phone_eta (p : Phone.t) : Phone.mk (Phone.value p) = p.
Proof. destruct p. reflexivity. Qed.

(** Looking for one number in the phones that are left once another number
    was filtered out. *)
Lemma find_filter_other (q phone : str) (ps : list Phone.t) :
  q <> phone ->
  find (fun p => str_eqb (Phone.value p) q)
       (filter (fun p => negb (str_eqb (Phone.value p) phone)) ps)
  = find (fun p => str_eqb (Phone.value p) q) ps.
Proof.
  intros Hq. induction ps as [|p ps IH]; simpl; [reflexivity|].
  destruct (str_eqb (Phone.value p) phone) eqn:Ep; simpl.
  - apply str_eqb_eq in Ep.
    assert (E : str_eqb (Phone.value p) q = false).
    { apply str_eqb_neq. congruence. }
    rewrite E. exact IH.
  - destruct (str_eqb (Phone.value p) q); [reflexivity | exact IH].
Qed.

Lemma find_filter_same (phone : str) (ps : list Phone.t) :
  find (fun p => str_eqb (Phone.value p) phone)
       (filter (fun p => negb (str_eqb (Phone.value p) phone)) ps)
  = None.
Proof.
  induction ps as [|p ps IH]; simpl; [reflexivity|].
  destruct (str_eqb (Phone.value p) phone) eqn:Ep; simpl; [exact IH|].
  rewrite Ep. exact IH.
Qed.

Lemma filter_absent (phone : str) (ps : list Phone.t) :
  find (fun p => str_eqb (Phone.value p) phone) ps = None ->
  filter (fun p => negb (str_eqb (Phone.value p) phone)) ps = ps.
Proof.
  induction ps as [|p ps IH]; simpl; [reflexivity|].
  destruct (str_eqb (Phone.value p) phone); [discriminate|].
  intros H. simpl. rewrite (IH H). reflexivity.
Qed.

(** X3: [remove_phone] never raises; afterwards the number is not found,
    every other number is found as before, the name and the birthday are as
    before, and a record that did not hold the number is unchanged. *)
Theorem remove_phone_spec (self : ContactRecord.t) (phone : str) :
  fst (remove_phone phone self) = Ok tt /\
  find_phone phone (snd (remove_phone phone self)) = None /\
  (forall q, q <> phone ->
     find_phone q (snd (remove_phone phone self)) = find_phone q self) /\
  (find_phone phone self = None -> snd (remove_phone phone self) = self) /\
  ContactRecord.name (snd (remove_phone phone self))
  = ContactRecord.name self /\
  birthday (snd (remove_phone phone self)) = birthday self.
Proof.
  unfold remove_phone, find_phone. cbn [fst snd set_phones phones].
  split; [reflexivity|]. split; [apply find_filter_same|].
  split; [intros q Hq; apply find_filter_other; exact Hq|].
  split; [|split; reflexivity].
  intros H. rewrite (filter_absent _ _ H). apply set_phones_id.
Qed.

Lemma find_app_last (q : str) (ps : list Phone.t) (p : Phone.t) :
  find (fun x => str_eqb (Phone.value x) q) (ps ++ [p])
  = match find (fun x => str_eqb (Phone.value x) q) ps with
    | Some x => Some x
    | None => if str_eqb (Phone.value p) q then Some p else None
    end.
Proof.
  induction ps as [|x ps IH]; simpl; [reflexivity|].
  destruct (str_eqb (Phone.value x) q); [reflexivity | exact IH].
Qed.

Lemma find_phone_value (q : str) (self : ContactRecord.t) (p : Phone.t) :
  find_phone q self = Some p -> Phone.value p = q /\ In p (phones self).
Proof.
  unfold find_phone. intros H. apply find_some in H.
  destruct H as [Hin Hv]. apply str_eqb_eq in Hv. auto.
Qed.

(** What a successful [add_phone] did. *)
Lemma add_phone_ok_inv (raw : str) (self self' : ContactRecord.t) :
  add_phone raw self = (Ok tt, self') ->
  (List.length (phones self) < 2)%nat /\
  Phone.bad_format raw = false /\
  self' = set_phones self (phones self ++ [Phone.mk raw]).
Proof.
  unfold add_phone, len.
  destruct (Z.of_nat (List.length (phones self)) <? 2)%Z eqn:E;
    [|discriminate].
  apply Z.ltb_lt in E.
  destruct (Phone.new raw) as [p|e] eqn:Ep; [|discriminate].
  apply Phone_new_inv in Ep. destruct Ep as [Hb ->].
  intros H. injection H as <-. split; [lia|]. auto.
Qed.

(** X4: a phone that [add_phone] accepted is found under its number, it is
    the last of the phones, one more than before, and every other number is
    found as before. *)
Theorem add_phone_then_find (raw : str) (self self' : ContactRecord.t) :
  add_phone raw self = (Ok tt, self') ->
  (exists p, find_phone raw self' = Some p /\ Phone.value p = raw) /\
  phones self' = phones self ++ [Phone.mk raw] /\
  List.length (phones self') = S (List.length (phones self)) /\
  (forall q, q <> raw -> find_phone q self' = find_phone q self).
Proof.
  intros H. apply add_phone_ok_inv in H. destruct H as [_ [_ ->]].
  unfold find_phone. cbn [set_phones phones].
  split; [|split; [reflexivity|split]].
  - rewrite find_app_last. cbn [Phone.value]. rewrite str_eqb_refl.
    destruct (find (fun x => str_eqb (Phone.value x) raw) (phones self))
      as [x|] eqn:E.
    + exists x. split; [reflexivity|]. apply find_some in E.
      apply str_eqb_eq. apply E.
    + exists (Phone.mk raw). auto.
  - rewrite length_app. simpl. lia.
  - intros q Hq. rewrite find_app_last. cbn [Phone.value].
    assert (E : str_eqb raw q = false) by (apply str_eqb_neq; congruence).
    rewrite E.
    destruct (find (fun x => str_eqb (Phone.value x) q) (phones self));
      reflexivity.
Qed.

Lemma add_phone_then_find_witness :
  let ann := ContactRecord.mk (Name.mk (lit "Ann"))
               [Phone.mk (lit "0123456789")] None in
  let ann' := set_phones ann
                [Phone.mk (lit "0123456789"); Phone.mk (lit "1111111111")] in
  exists p, find_phone (lit "1111111111") ann' = Some p /\
            Phone.value p = lit "1111111111".
Proof.
  cbv zeta.
  refine (proj1 (add_phone_then_find (lit "1111111111")
                   (ContactRecord.mk (Name.mk (lit "Ann"))
                      [Phone.mk (lit "0123456789")] None) _ _)).
  reflexivity.
Defined.

(** What a successful [edit_phone] did. *)
Lemma edit_phone_ok_inv (old_phone new_phone : str)
      (self self' : ContactRecord.t) :
  edit_phone old_phone new_phone self = (Ok tt, self') ->
  Phone.bad_format new_phone = false /\
  existsb (fun q => str_eqb (Phone.value q) old_phone) (phones self) = true
  /\ self' = set_phones self
               (map (fun q => if str_eqb (Phone.value q) old_phone
                              then Phone.mk new_phone else q)
                    (phones self)).
Proof.
  unfold edit_phone.
  destruct (Phone.bad_format new_phone) eqn:Hb; [discriminate|].
  rewrite edit_loop_valid by exact Hb. cbn [fst snd orb].
  destruct (existsb (fun q => str_eqb (Phone.value q) old_phone)
                    (phones self)); cbn [negb]; [|discriminate].
  intros H. injection H as <-. auto.
Qed.

Lemma find_map_edit_old (old_phone new_phone : str) (ps : list Phone.t) :
  old_phone <> new_phone ->
  find (fun x => str_eqb (Phone.value x) old_phone)
       (map (fun q => if str_eqb (Phone.value q) old_phone
                      then Phone.mk new_phone else q) ps) = None.
Proof.
  intros Hne. induction ps as [|p ps IH]; simpl; [reflexivity|].
  destruct (str_eqb (Phone.value p) old_phone) eqn:E.
  - cbn [Phone.value].
    assert (E' : str_eqb new_phone old_phone = false)
      by (apply str_eqb_neq; congruence).
    rewrite E'. exact IH.
  - rewrite E. exact IH.
Qed.

Lemma find_map_edit_other (old_phone new_phone q : str)
      (ps : list Phone.t) :
  q <> old_phone -> q <> new_phone ->
  find (fun x => str_eqb (Phone.value x) q)
       (map (fun p => if str_eqb (Phone.value p) old_phone
                      then Phone.mk new_phone else p) ps)
  = find (fun x => str_eqb (Phone.value x) q) ps.
Proof.
  intros H1 H2. induction ps as [|p ps IH]; simpl; [reflexivity|].
  destruct (str_eqb (Phone.value p) old_phone) eqn:E.
  - cbn [Phone.value]. apply str_eqb_eq in E.
    assert (E1 : str_eqb new_phone q = false)
      by (apply str_eqb_neq; congruence).
    assert (E2 : str_eqb (Phone.value p) q = false)
      by (apply str_eqb_neq; congruence).
    rewrite E1, E2. exact IH.
  - destruct (str_eqb (Phone.value p) q); [reflexivity | exact IH].
Qed.

Lemma find_map_edit_new (old_phone new_phone : str) (ps : list Phone.t) :
  existsb (fun q => str_eqb (Phone.value q) old_phone) ps = true ->
  exists p,
    find (fun x => str_eqb (Phone.value x) new_phone)
         (map (fun q => if str_eqb (Phone.value q) old_phone
                        then Phone.mk new_phone else q) ps) = Some p /\
    Phone.value p = new_phone.
Proof.
  induction ps as [|p ps IH]; simpl; [discriminate|].
  destruct (str_eqb (Phone.value p) old_phone) eqn:E.
  - intros _. cbn [Phone.value]. rewrite str_eqb_refl.
    exists (Phone.mk new_phone). auto.
  - cbn [orb]. intros H.
    destruct (str_eqb (Phone.value p) new_phone) eqn:E'.
    + exists p. split; [reflexivity|]. apply str_eqb_eq. exact E'.
    + apply IH. exact H.
Qed.

Lemma map_edit_same (phone : str) (ps : list Phone.t) :
  map (fun q => if str_eqb (Phone.value q) phone
                then Phone.mk phone else q) ps = ps.
Proof.
  induction ps as [|p ps IH]; simpl; [reflexivity|]. rewrite IH.
  destruct (str_eqb (Phone.value p) phone) eqn:E; [|reflexivity].
  apply str_eqb_eq in E. rewrite <- E, Phone_eta. reflexivity.
Qed.

(** X5: after a successful [edit_phone] to a different number, the old
    number is no longer found and the new one is; every other number is
    found as before and there are as many phones as before.  Editing a
    number to itself leaves the record as it was. *)
Theorem edit_phone_then_find (old_phone new_phone : str)
        (self self' : ContactRecord.t) :
  edit_phone old_phone new_phone self = (Ok tt, self') ->
  List.length (phones self') = List.length (phones self) /\
  (exists p, find_phone new_phone self' = Some p /\
             Phone.value p = new_phone) /\
  (old_phone <> new_phone -> find_phone old_phone self' = None) /\
  (forall q, q <> old_phone -> q <> new_phone ->
     find_phone q self' = find_phone q self) /\
  (old_phone = new_phone -> self' = self).
Proof.
  intros H. apply edit_phone_ok_inv in H. destruct H as [Hb [Hex ->]].
  unfold find_phone. cbn [set_phones phones].
  split; [apply length_map|].
  split; [apply find_map_edit_new; exact Hex|].
  split; [apply find_map_edit_old|].
  split; [intros q H1 H2; apply find_map_edit_other; assumption|].
  intros ->. rewrite map_edit_same. apply set_phones_id.
Qed.

Lemma edit_phone_then_find_witness :
  let one := Phone.mk (lit "1111111111") in
  let ann := ContactRecord.mk (Name.mk (lit "Ann"))
               [Phone.mk (lit "0123456789"); one] None in
  find_phone (lit "0123456789")
    (set_phones ann [Phone.mk (lit "2222222222"); one]) = None.
Proof.
  cbv zeta.
  refine (proj1 (proj2 (proj2 (edit_phone_then_find
            (lit "0123456789") (lit "2222222222")
            (ContactRecord.mk (Name.mk (lit "Ann"))
               [Phone.mk (lit "0123456789"); Phone.mk (lit "1111111111")]
               None) _ _))) _);
    [reflexivity | discriminate].
Defined.

Lemma reachable_valid (self : ContactRecord.t) :
  reachable self ->
  Name.new (Name.value (ContactRecord.name self))
  = Ok (ContactRecord.name self) /\
  Forall (fun p => Phone.new (Phone.value p) = Ok p) (phones self).
Proof.
  induction 1 as [n bd self H | raw self _ IH | raw self _ IH
                  | o n self _ IH].
  - destruct (ContactRecord_new_inv _ _ _ H) as [Hn Hp].
    rewrite Hn, Hp. split; [|constructor].
    unfold ContactRecord.new in H.
    destruct (Name.new n) as [x|] eqn:E; [|discriminate].
    destruct (Name_new_inv _ _ E) as [-> _]. exact E.
  - destruct IH as [IH1 IH2]. unfold add_phone.
    destruct (len (phones self) <? 2)%Z; [|split; assumption].
    destruct (Phone.new raw) as [p|e] eqn:E; [|split; assumption].
    cbn [snd set_phones ContactRecord.name phones].
    split; [exact IH1|]. apply Forall_app. split; [exact IH2|].
    constructor; [|constructor].
    apply Phone_new_inv in E. destruct E as [Hb ->].
    apply Phone_new_ok. exact Hb.
  - destruct IH as [IH1 IH2].
    cbn [remove_phone snd set_phones ContactRecord.name phones].
    split; [exact IH1|].
    rewrite Forall_forall in *. intros p Hp.
    apply filter_In in Hp. apply IH2. apply Hp.
  - destruct IH as [IH1 IH2]. unfold edit_phone.
    destruct (Phone.bad_format n) eqn:Hb; [split; assumption|].
    rewrite edit_loop_valid by exact Hb. cbn [fst snd].
    assert (Hmap : Forall (fun p => Phone.new (Phone.value p) = Ok p)
               (map (fun q => if str_eqb (Phone.value q) o
                              then Phone.mk n else q) (phones self))).
    { rewrite Forall_forall in *. intros p Hp. apply in_map_iff in Hp.
      destruct Hp as [q [Hq Hin]].
      destruct (str_eqb (Phone.value q) o).
      - subst p. apply Phone_new_ok. exact Hb.
      - subst p. apply IH2. exact Hin. }
    destruct (negb _); cbn [snd set_phones ContactRecord.name phones];
      split; assumption.
Qed.

(** X6: in a record made by the constructor and changed by its methods, the
    name passes the test of [Name], every phone passes the test of [Phone],
    and there are at most two phones. *)
Theorem reachable_fields_valid (self : ContactRecord.t) :
  reachable self ->
  Name.new (Name.value (ContactRecord.name self))
  = Ok (ContactRecord.name self) /\
  Forall (fun p => Phone.new (Phone.value p) = Ok p) (phones self) /\
  (List.length (phones self) <= 2)%nat.
Proof.
  intros H. destruct (reachable_valid self H) as [H1 H2].
  split; [exact H1|]. split; [exact H2|]. apply reachable_length. exact H.
Qed.

Lemma reachable_fields_valid_witness :
  let ann := ContactRecord.mk (Name.mk (lit "Ann"))
               [Phone.mk (lit "0123456789")] None in
  Name.new (lit "Ann") = Ok (Name.mk (lit "Ann")) /\
  Forall (fun p => Phone.new (Phone.value p) = Ok p) (phones ann) /\
  (List.length (phones ann) <= 2)%nat.
Proof.
  cbv zeta.
  refine (reachable_fields_valid
            (ContactRecord.mk (Name.mk (lit "Ann"))
                              [Phone.mk (lit "0123456789")] None) _).
  apply (reach_add_phone (lit "0123456789")
           (ContactRecord.mk (Name.mk (lit "Ann")) [] None)).
  apply (reach_new (lit "Ann") None). reflexivity.
Defined.

End PhoneLookup.


(** ** Birthday: dates in ISO form *)

Section BirthdayIso.

Local Open Scope Z_scope.
Import datetime.

Ltac each_digit a :=
  let H := fresh "Hd" in
  assert (H : a = 0 \/ a = 1 \/ a = 2 \/ a = 3 \/ a = 4 \/
              a = 5 \/ a = 6 \/ a = 7 \/ a = 8 \/ a = 9) by lia;
  repeat (destruct H as [H | H]; [subst a|]); [..|subst a].

Lemma digit_char_decimal (a : Z) :
  0 <= a <= 9 ->
  decimal_value (digit_char a) = Some (Z.to_N a).
Proof. intros H. each_digit a; reflexivity. Qed.

Lemma digit_class (a : Z) (rest : str) :
  0 <= a <= 9 ->
  strptime.digit (digit_char a :: rest) = [([digit_char a], rest)].
Proof.
  intros H. unfold strptime.digit, strptime.class, isdecimal_char.
  rewrite (digit_char_decimal a H). reflexivity.
Qed.

Lemma group_Y_digits (a b c e : Z) (rest : str) :
  0 <= a <= 9 -> 0 <= b <= 9 -> 0 <= c <= 9 -> 0 <= e <= 9 ->
  strptime.group_Y
    (digit_char a :: digit_char b :: digit_char c :: digit_char e :: rest)
  = [([digit_char a; digit_char b; digit_char c; digit_char e], rest)].
Proof.
  intros Ha Hb Hc He. unfold strptime.group_Y, strptime.seq.
  rewrite (digit_class a _ Ha). cbn [flat_map fst snd app map].
  rewrite (digit_class b _ Hb). cbn [flat_map fst snd app map].
  rewrite (digit_class c _ Hc). cbn [flat_map fst snd app map].
  rewrite (digit_class e _ He). reflexivity.
Qed.

(** The month group and the dash after it, on two digits. *)
Lemma group_m_digits {X : Type} (K : str -> str -> list X) (a b : Z)
      (rest : str) :
  0 <= a <= 9 -> 0 <= b <= 9 ->
  flat_map (fun m => flat_map (fun d2 => K (fst m) (snd d2))
                              (strptime.chr strptime.dash (snd m)))
           (strptime.group_m
              (digit_char a :: digit_char b :: 45%N :: rest))
  = if (1 <=? 10 * a + b) && (10 * a + b <=? 12)
    then K [digit_char a; digit_char b] rest
    else [].
Proof.
  intros Ha Hb. each_digit a; each_digit b; cbn;
    rewrite ?app_nil_r; reflexivity.
Qed.

(** The first way the day group matches two digits. *)
Lemma group_d_digits (c e : Z) :
  0 <= c <= 9 -> 0 <= e <= 9 ->
  hd_error (strptime.group_d [digit_char c; digit_char e])
  = if (1 <=? 10 * c + e) && (10 * c + e <=? 31)
    then Some ([digit_char c; digit_char e], [])
    else if 1 <=? c then Some ([digit_char c], [digit_char e])
    else None.
Proof.
  intros Hc He. each_digit c; each_digit e; reflexivity.
Qed.

Lemma int_two_digits (a b : Z) :
  0 <= a <= 9 -> 0 <= b <= 9 ->
  strptime.int [digit_char a; digit_char b] = Ok (10 * a + b).
Proof. intros Ha Hb. each_digit a; each_digit b; reflexivity. Qed.

Lemma int_four_digits (a b c e : Z) :
  0 <= a <= 9 -> 0 <= b <= 9 -> 0 <= c <= 9 -> 0 <= e <= 9 ->
  strptime.int [digit_char a; digit_char b; digit_char c; digit_char e]
  = Ok (1000 * a + 100 * b + 10 * c + e).
Proof.
  intros Ha Hb Hc He.
  assert (Hs : char_eqb (digit_char a) strptime.space = false)
    by (each_digit a; reflexivity).
  cbn [strptime.int]. rewrite Hs. cbn [strptime.digits_value].
  rewrite (digit_char_decimal a Ha), (digit_char_decimal b Hb),
    (digit_char_decimal c Hc), (digit_char_decimal e He).
  f_equal. lia.
Qed.

Lemma chr_dash (rest : str) :
  strptime.chr strptime.dash (45%N :: rest) = [([45%N], rest)].
Proof. reflexivity. Qed.

Lemma hd_error_map {A B : Type} (f : A -> B) (l : list A) :
  hd_error (map f l) = option_map f (hd_error l).
Proof. destruct l; reflexivity. Qed.

(** What the pattern of the format finds in four digits, a dash, two
    digits, a dash and two digits. *)
Lemma format_regex_iso (a b c e ma mb dc de : Z) :
  0 <= a <= 9 -> 0 <= b <= 9 -> 0 <= c <= 9 -> 0 <= e <= 9 ->
  0 <= ma <= 9 -> 0 <= mb <= 9 -> 0 <= dc <= 9 -> 0 <= de <= 9 ->
  strptime.format_regex
    ([digit_char a; digit_char b; digit_char c; digit_char e]
     ++ [45%N; digit_char ma; digit_char mb]
     ++ [45%N; digit_char dc; digit_char de])
  = if (1 <=? 10 * ma + mb) && (10 * ma + mb <=? 12)
    then
      if (1 <=? 10 * dc + de) && (10 * dc + de <=? 31)
      then Some ([digit_char a; digit_char b; digit_char c; digit_char e],
                 [digit_char ma; digit_char mb],
                 [digit_char dc; digit_char de], [])
      else if 1 <=? dc
      then Some ([digit_char a; digit_char b; digit_char c; digit_char e],
                 [digit_char ma; digit_char mb],
                 [digit_char dc], [digit_char de])
      else None
    else None.
Proof.
  intros Ha Hb Hc He Hma Hmb Hdc Hde.
  unfold strptime.format_regex. cbn [app].
  rewrite group_Y_digits by assumption.
  cbn [flat_map fst snd]. rewrite chr_dash. cbn [flat_map fst snd].
  rewrite !app_nil_r.
  rewrite (group_m_digits
             (fun mt r =>
                map (fun d : str * str =>
                       ([digit_char a; digit_char b; digit_char c;
                         digit_char e], mt, fst d, snd d))
                    (strptime.group_d r))) by assumption.
  destruct ((1 <=? 10 * ma + mb) && (10 * ma + mb <=? 12));
    [|reflexivity].
  rewrite hd_error_map, group_d_digits by assumption.
  destruct ((1 <=? 10 * dc + de) && (10 * dc + de <=? 31));
    [reflexivity|].
  destruct (1 <=? dc); reflexivity.
Qed.

(** The date checks, as one test. *)
Lemma date_fields_test (y m d : Z) :
  (_ <- _check_date_fields y m d ;; datetime.new y m d 0 0 0 0)%result
  = Ok (datetime.mk y m d 0 0 0 0)
  \/ exists e,
       (_ <- _check_date_fields y m d ;; datetime.new y m d 0 0 0 0)%result
       = Raise e /\
       ((1 <=? y) && (y <=? 9999) && (1 <=? m) && (m <=? 12)
        && (1 <=? d) && (d <=? _days_in_month y m) = false).
Proof.
  unfold datetime.new, _check_date_fields, MINYEAR, MAXYEAR.
  destruct (1 <=? y); [|right; eexists; split; reflexivity].
  destruct (y <=? 9999); [|right; eexists; split; reflexivity].
  destruct (1 <=? m); [|right; eexists; split; reflexivity].
  destruct (m <=? 12); [|right; eexists; split; reflexivity].
  destruct (1 <=? d); [|right; eexists; split; reflexivity].
  destruct (d <=? _days_in_month y m);
    [|right; eexists; split; reflexivity].
  left. reflexivity.
Qed.

(** What [Birthday] does with a string in ISO form. *)
Lemma Birthday_iso_cases (y m d : Z) :
  0 <= y <= 9999 -> 0 <= m <= 99 -> 0 <= d <= 99 ->
  Birthday.new (isoformat y m d)
  = if (1 <=? y) && (1 <=? m) && (m <=? 12)
       && (1 <=? d) && (d <=? _days_in_month y m)
    then Ok (Birthday.mk (isoformat y m d) (datetime.mk y m d 0 0 0 0))
    else Raise (ValueError (IncorrectBirthdayFormat (isoformat y m d))).
Proof.
  intros Hy Hm Hd.
  assert (Hy9 : (y <=? 9999) = true) by (apply Z.leb_le; lia).
  assert (Hdim : 1 <= m <= 12 -> _days_in_month y m <= 31).
  { intros H. unfold _days_in_month.
    destruct ((m =? 2) && _is_leap y); [lia|].
    assert (Hc : m = 1 \/ m = 2 \/ m = 3 \/ m = 4 \/ m = 5 \/ m = 6 \/
                 m = 7 \/ m = 8 \/ m = 9 \/ m = 10 \/ m = 11 \/ m = 12)
      by lia.
    repeat (destruct Hc as [Hc | Hc]; [subst m; cbn; lia|]).
    subst m; cbn; lia. }
  set (a := y / 1000). set (b := y / 100 mod 10).
  set (c := y / 10 mod 10). set (e := y mod 10).
  set (ma := m / 10). set (mb := m mod 10).
  set (dc := d / 10). set (de := d mod 10).
  assert (Ha : 0 <= a <= 9) by (subst a; Z.div_mod_to_equations; lia).
  assert (Hb : 0 <= b <= 9) by (subst b; Z.div_mod_to_equations; lia).
  assert (Hc : 0 <= c <= 9) by (subst c; Z.div_mod_to_equations; lia).
  assert (He : 0 <= e <= 9) by (subst e; Z.div_mod_to_equations; lia).
  assert (Hma : 0 <= ma <= 9) by (subst ma; Z.div_mod_to_equations; lia).
  assert (Hmb : 0 <= mb <= 9) by (subst mb; Z.div_mod_to_equations; lia).
  assert (Hdc : 0 <= dc <= 9) by (subst dc; Z.div_mod_to_equations; lia).
  assert (Hde : 0 <= de <= 9) by (subst de; Z.div_mod_to_equations; lia).
  assert (Ey : 1000 * a + 100 * b + 10 * c + e = y)
    by (subst a b c e; Z.div_mod_to_equations; lia).
  assert (Em : 10 * ma + mb = m)
    by (subst ma mb; Z.div_mod_to_equations; lia).
  assert (Ed : 10 * dc + de = d)
    by (subst dc de; Z.div_mod_to_equations; lia).
  unfold Birthday.new, strptime.run.
  change (isoformat y m d)
    with ([digit_char a; digit_char b; digit_char c; digit_char e]
          ++ [45%N; digit_char ma; digit_char mb]
          ++ [45%N; digit_char dc; digit_char de]).
  rewrite (format_regex_iso a b c e ma mb dc de) by assumption.
  rewrite Em, Ed.
  destruct (1 <=? m) eqn:Em1; cbn [andb];
    [|rewrite !andb_false_r; cbn [andb]; reflexivity].
  destruct (m <=? 12) eqn:Em2; cbn [andb];
    [|rewrite !andb_false_r; cbn [andb]; reflexivity].
  destruct (1 <=? d) eqn:Ed1; cbn [andb].
  2:{ rewrite !andb_false_r. cbn [andb].
      replace (1 <=? dc) with false; [reflexivity|].
      symmetry. apply Z.leb_gt. apply Z.leb_gt in Ed1. lia. }
  destruct (d <=? 31) eqn:Ed2.
  2:{ apply Z.leb_le in Em1. apply Z.leb_le in Em2.
      replace (d <=? _days_in_month y m) with false
        by (symmetry; apply Z.leb_gt; apply Z.leb_gt in Ed2; lia).
      rewrite !andb_false_r.
      replace (1 <=? dc) with true; [reflexivity|].
      symmetry. apply Z.leb_le. apply Z.leb_gt in Ed2. lia. }
  cbn [truthy].
  rewrite (int_four_digits a b c e), (int_two_digits ma mb),
    (int_two_digits dc de) by assumption.
  cbn [bind]. rewrite Ey, Em, Ed.
  destruct (date_fields_test y m d) as [E | [x [E Hf]]]; rewrite E.
  - assert (Hv : datetime.new y m d 0 0 0 0
                 = Ok (datetime.mk y m d 0 0 0 0)).
    { unfold bind in E. destruct (_check_date_fields y m d);
        [exact E | discriminate]. }
    apply new_ok_iff in Hv. destruct Hv as [_ [Hy1 [_ [Hd1 _]]]].
    replace (1 <=? y) with true by (symmetry; apply Z.leb_le; lia).
    replace (d <=? _days_in_month y m) with true
      by (symmetry; apply Z.leb_le; lia).
    reflexivity.
  - rewrite Hy9, Em1, Em2, Ed1 in Hf.
    rewrite !andb_true_r in Hf. destruct x as [msg].
    destruct (1 <=? y); cbn [andb] in Hf |- *;
      [rewrite Hf|]; reflexivity.
Qed.

(** X7: of the strings in ISO form, with a year of four digits and a month
    and a day of two, [Birthday] accepts exactly the dates of the calendar
    from year 1 on; it keeps the string and the date, at midnight; it
    refuses the others with its own error. *)
Theorem Birthday_isoformat (y m d : Z) :
  0 <= y <= 9999 -> 0 <= m <= 99 -> 0 <= d <= 99 ->
  Birthday.new (isoformat y m d)
  = if (1 <=? y) && (1 <=? m) && (m <=? 12)
       && (1 <=? d) && (d <=? _days_in_month y m)
    then Ok (Birthday.mk (isoformat y m d) (datetime.mk y m d 0 0 0 0))
    else Raise (ValueError (IncorrectBirthdayFormat (isoformat y m d))).
Proof. exact (Birthday_iso_cases y m d). Qed.

Lemma Birthday_isoformat_witness :
  Birthday.new (lit "2024-02-29")
  = Ok (Birthday.mk (lit "2024-02-29") (datetime.mk 2024 2 29 0 0 0 0)) /\
  Birthday.new (lit "2023-02-29")
  = Raise (ValueError (IncorrectBirthdayFormat (lit "2023-02-29"))).
Proof.
  split.
  - refine (Birthday_isoformat 2024 2 29 _ _ _); lia.
  - refine (Birthday_isoformat 2023 2 29 _ _ _); lia.
Defined.

(** The month group and the dash after it, on one digit. *)
Lemma group_m_digit {X : Type} (K : str -> str -> list X) (b : Z)
      (rest : str) :
  1 <= b <= 9 ->
  flat_map (fun m => flat_map (fun d2 => K (fst m) (snd d2))
                              (strptime.chr strptime.dash (snd m)))
           (strptime.group_m (digit_char b :: 45%N :: rest))
  = K [digit_char b] rest.
Proof.
  intros Hb.
  assert (H : b = 1 \/ b = 2 \/ b = 3 \/ b = 4 \/ b = 5 \/
              b = 6 \/ b = 7 \/ b = 8 \/ b = 9) by lia.
  repeat (destruct H as [H | H];
          [subst b; cbn; rewrite ?app_nil_r; reflexivity|]).
  subst b; cbn; rewrite ?app_nil_r; reflexivity.
Qed.

Lemma group_d_digit (e : Z) :
  1 <= e <= 9 ->
  hd_error (strptime.group_d [digit_char e]) = Some ([digit_char e], []).
Proof.
  intros He.
  assert (H : e = 1 \/ e = 2 \/ e = 3 \/ e = 4 \/ e = 5 \/
              e = 6 \/ e = 7 \/ e = 8 \/ e = 9) by lia.
  repeat (destruct H as [H | H]; [subst e; reflexivity|]).
  subst e; reflexivity.
Qed.

Lemma int_one_digit (a : Z) :
  0 <= a <= 9 -> strptime.int [digit_char a] = Ok a.
Proof. intros Ha. each_digit a; reflexivity. Qed.

Lemma days_in_month_28 (y m : Z) :
  1 <= m <= 12 -> 28 <= _days_in_month y m.
Proof.
  intros H. unfold _days_in_month.
  destruct ((m =? 2) && _is_leap y); [lia|].
  assert (Hc : m = 1 \/ m = 2 \/ m = 3 \/ m = 4 \/ m = 5 \/ m = 6 \/
               m = 7 \/ m = 8 \/ m = 9 \/ m = 10 \/ m = 11 \/ m = 12)
    by lia.
  repeat (destruct Hc as [Hc | Hc]; [subst m; cbn; lia|]).
  subst m; cbn; lia.
Qed.

(** X8: [strptime] does not ask for the zeros of the ISO form: a month and a
    day from 1 to 9 written with one digit each give the same date as the
    ISO form does, and the [Birthday] keeps the string it was given, so that
    two birthdays of one date can hold different strings. *)
Theorem Birthday_unpadded (y m d : Z) :
  1 <= y <= 9999 -> 1 <= m <= 9 -> 1 <= d <= 9 ->
  Birthday.new (unpadded y m d)
  = Ok (Birthday.mk (unpadded y m d) (datetime.mk y m d 0 0 0 0)) /\
  Birthday.new (isoformat y m d)
  = Ok (Birthday.mk (isoformat y m d) (datetime.mk y m d 0 0 0 0)) /\
  unpadded y m d <> isoformat y m d.
Proof.
  intros Hy Hm Hd.
  assert (Hdim := days_in_month_28 y m ltac:(lia)).
  split; [|split].
  - set (a := y / 1000). set (b := y / 100 mod 10).
    set (c := y / 10 mod 10). set (e := y mod 10).
    assert (Ha : 0 <= a <= 9) by (subst a; Z.div_mod_to_equations; lia).
    assert (Hb : 0 <= b <= 9) by (subst b; Z.div_mod_to_equations; lia).
    assert (Hc : 0 <= c <= 9) by (subst c; Z.div_mod_to_equations; lia).
    assert (He : 0 <= e <= 9) by (subst e; Z.div_mod_to_equations; lia).
    assert (Ey : 1000 * a + 100 * b + 10 * c + e = y)
      by (subst a b c e; Z.div_mod_to_equations; lia).
    unfold Birthday.new, strptime.run.
    change (unpadded y m d)
      with ([digit_char a; digit_char b; digit_char c; digit_char e]
            ++ [45%N; digit_char m] ++ [45%N; digit_char d]).
    assert (Ef : strptime.format_regex
                   ([digit_char a; digit_char b; digit_char c; digit_char e]
                    ++ [45%N; digit_char m] ++ [45%N; digit_char d])
                 = Some ([digit_char a; digit_char b; digit_char c;
                          digit_char e], [digit_char m], [digit_char d],
                         [])).
    { unfold strptime.format_regex. cbn [app].
      rewrite group_Y_digits by assumption.
      cbn [flat_map fst snd]. rewrite chr_dash. cbn [flat_map fst snd].
      rewrite !app_nil_r.
      rewrite (group_m_digit
                 (fun mt r =>
                    map (fun d0 : str * str =>
                           ([digit_char a; digit_char b; digit_char c;
                             digit_char e], mt, fst d0, snd d0))
                        (strptime.group_d r))) by assumption.
      rewrite hd_error_map, group_d_digit by assumption. reflexivity. }
    rewrite Ef. cbn [truthy].
    rewrite (int_four_digits a b c e), (int_one_digit m),
      (int_one_digit d) by (assumption || lia).
    cbn [bind]. rewrite Ey.
    destruct (date_fields_test y m d) as [E | [x [E Hf]]].
    + rewrite E. reflexivity.
    + exfalso.
      replace (1 <=? y) with true in Hf by (symmetry; apply Z.leb_le; lia).
      replace (y <=? 9999) with true in Hf
        by (symmetry; apply Z.leb_le; lia).
      replace (1 <=? m) with true in Hf by (symmetry; apply Z.leb_le; lia).
      replace (m <=? 12) with true in Hf by (symmetry; apply Z.leb_le; lia).
      replace (1 <=? d) with true in Hf by (symmetry; apply Z.leb_le; lia).
      replace (d <=? _days_in_month y m) with true in Hf
        by (symmetry; apply Z.leb_le; lia).
      discriminate Hf.
  - rewrite Birthday_iso_cases by lia.
    replace (1 <=? y) with true by (symmetry; apply Z.leb_le; lia).
    replace (1 <=? m) with true by (symmetry; apply Z.leb_le; lia).
    replace (m <=? 12) with true by (symmetry; apply Z.leb_le; lia).
    replace (1 <=? d) with true by (symmetry; apply Z.leb_le; lia).
    replace (d <=? _days_in_month y m) with true
      by (symmetry; apply Z.leb_le; lia).
    reflexivity.
  - intros E. apply (f_equal (@List.length char)) in E. discriminate E.
Qed.

Lemma Birthday_unpadded_witness :
  Birthday.new (lit "2000-1-1")
  = Ok (Birthday.mk (lit "2000-1-1") (datetime.mk 2000 1 1 0 0 0 0)) /\
  Birthday.new (lit "2000-01-01")
  = Ok (Birthday.mk (lit "2000-01-01") (datetime.mk 2000 1 1 0 0 0 0)) /\
  lit "2000-1-1" <> lit "2000-01-01".
Proof.
  refine (Birthday_unpadded 2000 1 1 _ _ _); lia.
Defined.

End BirthdayIso.


(** ** AddressBook: the dict *)

Section Dict.

Import AddressBook.

Lemma dict_get_In (d : dict) (k : str) (v : ref) :
  dict_get d k = Some v -> In (k, v) d.
Proof.
  induction d as [|[k' v'] d IH]; simpl; [discriminate|].
  destruct (str_eqb k' k) eqn:E.
  - apply str_eqb_eq in E. intros H. injection H as <-. subst. auto.
  - auto.
Qed.

Lemma dict_get_None (d : dict) (k : str) :
  dict_get d k = None <-> ~ In k (map fst d).
Proof.
  induction d as [|[k' v'] d IH]; simpl; [tauto|].
  destruct (str_eqb k' k) eqn:E.
  - apply str_eqb_eq in E. split; [discriminate | tauto].
  - apply str_eqb_neq in E. rewrite IH. tauto.
Qed.

Lemma In_dict_get (d : dict) (k : str) (v : ref) :
  NoDup (map fst d) -> In (k, v) d -> dict_get d k = Some v.
Proof.
  induction d as [|[k' v'] d IH]; simpl; [contradiction|].
  intros Hnd [H | H].
  - injection H as -> ->. rewrite str_eqb_refl. reflexivity.
  - inversion Hnd as [|x l Hx Hl]; subst.
    destruct (str_eqb k' k) eqn:E; [|auto].
    apply str_eqb_eq in E. subst k'. contradiction Hx.
    apply (in_map fst) in H. exact H.
Qed.

Lemma dict_get_set_eq (d : dict) (k : str) (v : ref) :
  dict_get (dict_set d k v) k = Some v.
Proof.
  induction d as [|[k' v'] d IH]; simpl.
  - rewrite str_eqb_refl. reflexivity.
  - destruct (str_eqb k' k) eqn:E; simpl; rewrite E; auto.
Qed.

Lemma dict_get_set_ne (d : dict) (k k' : str) (v : ref) :
  k' <> k -> dict_get (dict_set d k v) k' = dict_get d k'.
Proof.
  intros Hne. induction d as [|[k0 v0] d IH]; simpl.
  - assert (E : str_eqb k k' = false) by (apply str_eqb_neq; congruence).
    rewrite E. reflexivity.
  - destruct (str_eqb k0 k) eqn:E; simpl.
    + apply str_eqb_eq in E. subst k0.
      assert (E : str_eqb k k' = false) by (apply str_eqb_neq; congruence).
      rewrite E. reflexivity.
    + destruct (str_eqb k0 k'); auto.
Qed.

(** Assigning to a present key changes no key and no place. *)
Lemma dict_set_present_keys (d : dict) (k : str) (v : ref) :
  dict_contains d k = true -> map fst (dict_set d k v) = map fst d.
Proof.
  unfold dict_contains.
  induction d as [|[k' v'] d IH]; simpl; [discriminate|].
  destruct (str_eqb k' k) eqn:E; simpl; [reflexivity|].
  intros H. rewrite (IH H). reflexivity.
Qed.

Lemma dict_set_shape (d : dict) (k : str) (v : ref) :
  (dict_contains d k = false /\ dict_set d k v = d ++ [(k, v)]) \/
  (exists l1 v0 l2,
     d = l1 ++ (k, v0) :: l2 /\ dict_set d k v = l1 ++ (k, v) :: l2).
Proof.
  unfold dict_contains.
  induction d as [|[k' v'] d IH]; simpl; [left; auto|].
  destruct (str_eqb k' k) eqn:E.
  - apply str_eqb_eq in E. subst k'. right. exists [], v', d. auto.
  - destruct IH as [[H1 H2] | [l1 [v0 [l2 [H1 H2]]]]].
    + left. rewrite H2. auto.
    + right. exists ((k', v') :: l1), v0, l2. rewrite H1 at 1. rewrite H2.
      auto.
Qed.

Lemma dict_del_shape (d : dict) (k : str) :
  (dict_contains d k = false /\ dict_del d k = d) \/
  (exists l1 v0 l2,
     d = l1 ++ (k, v0) :: l2 /\ dict_del d k = l1 ++ l2 /\
     dict_contains d k = true).
Proof.
  unfold dict_contains.
  induction d as [|[k' v'] d IH]; simpl; [left; auto|].
  destruct (str_eqb k' k) eqn:E.
  - apply str_eqb_eq in E. subst k'. right. exists [], v', d. auto.
  - destruct IH as [[H1 H2] | [l1 [v0 [l2 [H1 [H2 H3]]]]]].
    + left. rewrite H2. auto.
    + right. exists ((k', v') :: l1), v0, l2. rewrite H1 at 1. rewrite H2.
      auto.
Qed.

Lemma dict_get_del_ne (d : dict) (k k' : str) :
  k' <> k -> dict_get (dict_del d k) k' = dict_get d k'.
Proof.
  intros Hne. induction d as [|[k0 v0] d IH]; simpl; [reflexivity|].
  destruct (str_eqb k0 k) eqn:E; simpl.
  - apply str_eqb_eq in E. subst k0.
    assert (E : str_eqb k k' = false) by (apply str_eqb_neq; congruence).
    rewrite E. reflexivity.
  - destruct (str_eqb k0 k'); auto.
Qed.

Lemma dict_get_del_eq (d : dict) (k : str) :
  NoDup (map fst d) -> dict_get (dict_del d k) k = None.
Proof.
  intros Hnd. apply dict_get_None.
  destruct (dict_del_shape d k) as [[H1 H2] | [l1 [v0 [l2 [H1 [H2 _]]]]]].
  - rewrite H2. apply dict_get_None.
    unfold dict_contains in H1. destruct (dict_get d k); congruence.
  - rewrite H2. rewrite H1 in Hnd. rewrite map_app in *. simpl in Hnd.
    apply NoDup_remove in Hnd. apply Hnd.
Qed.

Lemma In_dict_set (d : dict) (k : str) (v : ref) (x : str * ref) :
  In x (dict_set d k v) -> x = (k, v) \/ In x d.
Proof.
  destruct (dict_set_shape d k v) as [[_ H] | [l1 [v0 [l2 [H1 H2]]]]].
  - rewrite H. intros Hin. apply in_app_or in Hin.
    destruct Hin as [Hin | [Hin | []]]; auto.
  - rewrite H2, H1. intros Hin. apply in_app_or in Hin.
    destruct Hin as [Hin | [Hin | Hin]]; auto.
    + right. apply in_or_app. auto.
    + right. apply in_or_app. right. right. exact Hin.
Qed.

Lemma In_dict_del (d : dict) (k : str) (x : str * ref) :
  In x (dict_del d k) -> In x d.
Proof.
  destruct (dict_del_shape d k) as [[_ H] | [l1 [v0 [l2 [H1 [H2 _]]]]]].
  - rewrite H. auto.
  - rewrite H2, H1. intros Hin. apply in_app_or in Hin.
    apply in_or_app. destruct Hin; [left | right; right]; assumption.
Qed.

Lemma NoDup_keys_set (d : dict) (k : str) (v : ref) :
  NoDup (map fst d) -> NoDup (map fst (dict_set d k v)).
Proof.
  intros Hnd.
  destruct (dict_set_shape d k v) as [[H1 H2] | [l1 [v0 [l2 [H1 H2]]]]].
  - rewrite H2, map_app. simpl.
    apply (NoDup_Add (Add_app k (map fst d) [])).
    rewrite app_nil_r. split; [exact Hnd|].
    apply dict_get_None. unfold dict_contains in H1.
    destruct (dict_get d k); congruence.
  - rewrite H2. rewrite H1 in Hnd. rewrite map_app in *. exact Hnd.
Qed.

Lemma NoDup_values_set (d : dict) (k : str) (v : ref) :
  NoDup (dict_values d) -> ~ In v (dict_values d) ->
  NoDup (dict_values (dict_set d k v)).
Proof.
  unfold dict_values. intros Hnd Hv.
  destruct (dict_set_shape d k v) as [[H1 H2] | [l1 [v0 [l2 [H1 H2]]]]].
  - rewrite H2, map_app. simpl.
    apply (NoDup_Add (Add_app v (map snd d) [])).
    rewrite app_nil_r. auto.
  - rewrite H2. rewrite H1 in Hnd, Hv. rewrite map_app in *. simpl in *.
    apply (NoDup_Add (Add_app v (map snd l1) (map snd l2))).
    split; [apply (NoDup_remove_1 _ _ _ Hnd)|].
    intros Hin. apply Hv. apply in_app_or in Hin. apply in_or_app.
    destruct Hin; [left | right; right]; assumption.
Qed.

Lemma NoDup_del (d : dict) (k : str) :
  NoDup (map fst d) -> NoDup (dict_values d) ->
  NoDup (map fst (dict_del d k)) /\ NoDup (dict_values (dict_del d k)).
Proof.
  unfold dict_values. intros Hk Hv.
  destruct (dict_del_shape d k) as [[_ H] | [l1 [v0 [l2 [H1 [H2 _]]]]]].
  - rewrite H. auto.
  - rewrite H2. rewrite H1 in Hk, Hv. rewrite !map_app in *. simpl in *.
    split; eapply NoDup_remove_1; eassumption.
Qed.

End Dict.

(** ** AddressBook: objects, and what every reachable book keeps *)

Section Book.

Import AddressBook.
Import Show.

Lemma deref_lt (s : store) (r : ref) (o : ContactRecord.t) :
  deref s r = Some o -> (r < List.length (objects s))%nat.
Proof.
  unfold deref. intros H. apply nth_error_Some. congruence.
Qed.

Lemma deref_alloc_new (o : ContactRecord.t) (s : store) :
  deref (snd (alloc o s)) (fst (alloc o s)) = Some o.
Proof.
  unfold deref, alloc. cbn [fst snd objects].
  rewrite nth_error_app2 by lia. rewrite Nat.sub_diag. reflexivity.
Qed.

Lemma deref_alloc_old (o x : ContactRecord.t) (s : store) (r : ref) :
  deref s r = Some x -> deref (snd (alloc o s)) r = Some x.
Proof.
  intros H. pose proof (deref_lt _ _ _ H) as Hlt.
  unfold deref, alloc in *. cbn [fst snd objects].
  rewrite nth_error_app1 by exact Hlt. exact H.
Qed.

Lemma deref_app_old (s : store) (os : list ContactRecord.t) (d : dict)
      (r : ref) (x : ContactRecord.t) :
  deref s r = Some x -> deref (mk (objects s ++ os) d) r = Some x.
Proof.
  intros H. pose proof (deref_lt _ _ _ H) as Hlt.
  unfold deref in *. cbn [objects].
  rewrite nth_error_app1 by exact Hlt. exact H.
Qed.

(** A method call on the object behind a reference changes that object
    and nothing else. *)
Lemma call_inv {A : Type} (r : ref) (m : ContactRecord.method A)
      (s s' : store) (res : result A) :
  call r m s = Some (res, s') ->
  exists o,
    deref s r = Some o /\ res = fst (m o) /\ data s' = data s /\
    deref s' r = Some (snd (m o)) /\
    (forall r', r' <> r -> deref s' r' = deref s r').
Proof.
  unfold call. destruct (deref s r) as [o|] eqn:E; [|discriminate].
  intros H. injection H as <- <-. exists o.
  pose proof (deref_lt _ _ _ E) as Hlt.
  split; [reflexivity|]. split; [reflexivity|]. split; [reflexivity|].
  unfold deref in *. cbn [objects].
  assert (Hf : List.length (firstn r (objects s)) = r)
    by (apply firstn_length_le; lia).
  split.
  - rewrite nth_error_app2 by lia. rewrite Hf, Nat.sub_diag. reflexivity.
  - intros r' Hne. destruct (Nat.lt_ge_cases r' r) as [L | L].
    + rewrite nth_error_app1 by lia. rewrite nth_error_firstn.
      replace (r' <? r)%nat with true
        by (symmetry; apply Nat.ltb_lt; exact L).
      reflexivity.
    + rewrite nth_error_app2 by lia. rewrite Hf.
      destruct (r' - r)%nat as [|k] eqn:Ek; [lia|].
      cbn [nth_error].
      change (match objects s with [] => [] | _ :: l => skipn r l end)
        with (skipn (S r) (objects s)).
      rewrite nth_error_skipn. f_equal. lia.
Qed.

(** The methods of a record keep its name and its birthday, and give a
    record the program can hold. *)
Lemma record_method_keeps (m : ContactRecord.method unit)
      (o : ContactRecord.t) :
  record_method m ->
  ContactRecord.name (snd (m o)) = ContactRecord.name o /\
  birthday (snd (m o)) = birthday o /\
  (reachable o -> reachable (snd (m o))).
Proof.
  intros [raw | raw | old new].
  - split; [|split; [|apply reach_add_phone]];
      unfold add_phone; destruct (len (phones o) <? 2)%Z;
      try reflexivity; destruct (Phone.new raw); reflexivity.
  - split; [reflexivity|]. split; [reflexivity | apply reach_remove_phone].
  - split; [|split; [|apply reach_edit_phone]];
      unfold edit_phone; destruct (Phone.bad_format new);
      try reflexivity;
      destruct (fst (edit_loop old new (phones o) false)) as [[|]|];
      reflexivity.
Qed.

(** How [add_contact] leaves the book: as it was, or with one new record
    under the name, which was not there. *)
Lemma add_contact_cases (s : store) (name phone1 : str)
      (phone2 birthday_ : option str) :
  (snd (add_contact name phone1 phone2 birthday_ s) = s /\
   forall n, fst (add_contact name phone1 phone2 birthday_ s)
             <> Ok (ContactAdded n)) \/
  (exists r p1 p2,
     dict_contains (data s) name = false /\
     ContactRecord.new name birthday_ = Ok r /\
     Phone.new phone1 = Ok p1 /\ phone2_field phone2 = Ok p2 /\
     add_contact name phone1 phone2 birthday_ s
     = (Ok (ContactAdded name),
        mk (objects s ++ [set_phones r (new_phones_of p1 p2)])
           (data s ++ [(name, List.length (objects s))]))).
Proof.
  unfold add_contact.
  destruct (truthy name); [|left; split; [reflexivity | discriminate]].
  destruct (dict_contains (data s) name) eqn:Hc;
    [left; split; [reflexivity | discriminate]|].
  destruct (Name.new name) as [n|[m]] eqn:Hn;
    [|left; split; [reflexivity | discriminate]].
  destruct (Name_new_inv _ _ Hn) as [-> _]. cbn [Name.value].
  destruct (Phone.new phone1) as [p1|[m]] eqn:Hp1;
    [|left; split; [reflexivity | discriminate]].
  destruct (phone2_field phone2) as [p2|[m]] eqn:Hp2;
    [|left; split; [reflexivity | discriminate]].
  destruct (ContactRecord.new name birthday_) as [r|[m]] eqn:Hr;
    [|left; split; [reflexivity | discriminate]].
  right. exists r, p1, p2.
  rewrite (add_contact_finish s name p1 p2 r phone1 phone2 birthday_)
    by assumption.
  auto.
Qed.

(** The record that [add_contact] builds is one the constructor and
    [add_phone] give. *)
Lemma new_contact_reachable (name phone1 : str) (phone2 birthday_ : option str)
      (r : ContactRecord.t) (p1 : Phone.t) (p2 : option Phone.t) :
  ContactRecord.new name birthday_ = Ok r ->
  Phone.new phone1 = Ok p1 -> phone2_field phone2 = Ok p2 ->
  reachable (set_phones r (new_phones_of p1 p2)).
Proof.
  intros Hr Hp1 Hp2.
  pose proof (reach_new _ _ _ Hr) as R0.
  destruct (ContactRecord_new_inv _ _ _ Hr) as [_ Hph].
  pose proof (reach_add_phone phone1 r R0) as R1.
  assert (E1 : snd (add_phone phone1 r) = set_phones r [p1]).
  { unfold add_phone. rewrite Hph, Hp1. reflexivity. }
  rewrite E1 in R1.
  apply phone2_field_inv in Hp2.
  destruct Hp2 as [[_ ->] | [p [_ [_ [Hp ->]]]]]; [exact R1|].
  pose proof (reach_add_phone p _ R1) as R2.
  assert (E2 : snd (add_phone p (set_phones r [p1]))
               = set_phones r [p1; Phone.mk p]).
  { unfold add_phone. cbn [set_phones phones len List.length].
    rewrite Hp. reflexivity. }
  rewrite E2 in R2. exact R2.
Qed.

Lemma book_ok_fresh (s : store) :
  book_ok s -> ~ In (List.length (objects s)) (dict_values (data s)).
Proof.
  intros [_ [_ H]] Hin. unfold dict_values in Hin.
  apply in_map_iff in Hin. destruct Hin as [[k r] [Hr Hin]].
  cbn [snd] in Hr. subst r. destruct (H _ _ Hin) as [o [Hd _]].
  apply deref_lt in Hd. lia.
Qed.

(** Filing a new object under its name keeps the book in order. *)
Lemma book_ok_add_record (o : ContactRecord.t) (s : store) :
  book_ok s -> reachable o ->
  book_ok (add_record (fst (alloc o s)) (snd (alloc o s))).
Proof.
  intros Hok Ro. pose proof (book_ok_fresh s Hok) as Hfresh.
  destruct Hok as [Hk [Hv He]].
  rewrite add_record_alloc. unfold book_ok. cbn [data].
  split; [apply NoDup_keys_set; exact Hk|].
  split; [apply NoDup_values_set; assumption|].
  intros k r Hin. apply In_dict_set in Hin. destruct Hin as [Hin | Hin].
  - injection Hin as -> ->. exists o. split; [|auto].
    unfold deref. cbn [objects]. rewrite nth_error_app2 by lia.
    rewrite Nat.sub_diag. reflexivity.
  - destruct (He _ _ Hin) as [x [Hd [Hn Hr]]]. exists x.
    split; [|auto]. apply deref_app_old. exact Hd.
Qed.

(** Every reachable book is in order. *)
Lemma book_reachable_ok (s : store) : book_reachable s -> book_ok s.
Proof.
  intros H.
  induction H as [|name phone1 phone2 bd s _ IH|o s _ IH Ro
                  |name s _ IH|name r m res s s' _ IH Hf Hm Hc].
  - repeat split; try constructor. intros k r [].
  - destruct (add_contact_cases s name phone1 phone2 bd)
      as [[E _] | [r [p1 [p2 [Hc [Hr [Hp1 [Hp2 E]]]]]]]].
    + rewrite E. exact IH.
    + rewrite E. cbn [snd].
      pose proof (book_ok_add_record
                    (set_phones r (new_phones_of p1 p2)) s IH
                    (new_contact_reachable _ _ _ _ _ _ _ Hr Hp1 Hp2))
        as Hadd.
      rewrite add_record_alloc in Hadd.
      cbn [ContactRecord.name set_phones] in Hadd.
      destruct (ContactRecord_new_inv _ _ _ Hr) as [Hn _].
      rewrite Hn in Hadd. cbn [Name.value] in Hadd.
      rewrite (dict_set_absent _ _ _ Hc) in Hadd. exact Hadd.
  - apply book_ok_add_record; assumption.
  - unfold delete. destruct (dict_contains (data s) name); [|exact IH].
    destruct IH as [Hk [Hv He]]. unfold book_ok. cbn [data].
    destruct (NoDup_del (data s) name Hk Hv) as [Hk' Hv'].
    split; [exact Hk'|]. split; [exact Hv'|].
    intros k r Hin. apply In_dict_del in Hin.
    destruct (He _ _ Hin) as [o Ho]. exists o. exact Ho.
  - destruct (call_inv _ _ _ _ _ Hc) as [o [Hd [_ [Hdata [Hnew Hoth]]]]].
    destruct IH as [Hk [Hv He]]. unfold book_ok. rewrite Hdata.
    split; [exact Hk|]. split; [exact Hv|].
    intros k r' Hin. destruct (He _ _ Hin) as [x [Hx [Hn Hr]]].
    destruct (Nat.eq_dec r' r) as [-> | Hne].
    + exists (snd (m o)). split; [exact Hnew|].
      assert (x = o) by congruence. subst x.
      destruct (record_method_keeps m o Hm) as [Hname [_ Hreach]].
      rewrite Hname. auto.
    + exists x. rewrite (Hoth r' Hne). auto.
Qed.

(** X9: every book reached from the empty one by [add_contact], [add_record]
    of a new record, [delete] and the methods of the records found holds no
    name twice and no record under two names, and every record of it is
    filed under its own name, has a name and phones that pass their tests,
    and at most two phones. *)
Theorem book_invariant (s : store) :
  book_reachable s ->
  book_ok s /\
  (forall name r, find name s = Some r ->
     exists o, deref s r = Some o /\
               Name.value (ContactRecord.name o) = name /\
               Name.new name = Ok (ContactRecord.name o) /\
               Forall (fun p => Phone.new (Phone.value p) = Ok p)
                      (phones o) /\
               (List.length (phones o) <= 2)%nat).
Proof.
  intros H.
  pose proof (book_reachable_ok s H) as Hok.
  split; [exact Hok|].
  intros name r Hf. destruct Hok as [_ [_ He]].
  destruct (He name r (dict_get_In _ _ _ Hf)) as [o [Hd [Hn Hr]]].
  exists o. split; [exact Hd|]. split; [exact Hn|].
  destruct (reachable_valid o Hr) as [H1 H2].
  rewrite <- Hn. split; [exact H1|]. split; [exact H2|].
  apply reachable_length. exact Hr.
Qed.

Lemma book_invariant_witness :
  let s := snd (add_contact (lit "Ann") (lit "0123456789") None None
                            empty) in
  book_ok s /\
  (forall name r, find name s = Some r ->
     exists o, deref s r = Some o /\
               Name.value (ContactRecord.name o) = name /\
               Name.new name = Ok (ContactRecord.name o) /\
               Forall (fun p => Phone.new (Phone.value p) = Ok p)
                      (phones o) /\
               (List.length (phones o) <= 2)%nat).
Proof.
  cbv zeta.
  refine (book_invariant
            (snd (add_contact (lit "Ann") (lit "0123456789") None None
                              empty)) _).
  apply book_add_contact. apply book_empty.
Defined.

Lemma dict_get_app (d d' : dict) (k : str) :
  dict_get (d ++ d') k
  = match dict_get d k with
    | Some v => Some v
    | None => dict_get d' k
    end.
Proof.
  induction d as [|[k' v'] d IH]; simpl; [reflexivity|].
  destruct (str_eqb k' k); [reflexivity | exact IH].
Qed.

(** The birthday of a new record is the string given, if one was. *)
Lemma ContactRecord_new_birthday (name_ : str) (birthday_ : option str)
      (r : ContactRecord.t) :
  ContactRecord.new name_ birthday_ = Ok r ->
  option_map Birthday.value (birthday r)
  = match birthday_ with
    | Some b => if truthy b then Some b else None
    | None => None
    end.
Proof.
  unfold ContactRecord.new.
  destruct (Name.new name_); cbn [bind]; [|discriminate].
  destruct birthday_ as [b|].
  - destruct (truthy b).
    + unfold Birthday.new. destruct (strptime.run b) as [d|[m]];
        cbn [bind]; [|discriminate].
      intros H. injection H as <-. reflexivity.
    + intros H. injection H as <-. reflexivity.
  - intros H. injection H as <-. reflexivity.
Qed.

(** X10: after [add_contact] has added a contact, [find] gives a new record
    under the name, which was not in the book; the record holds the name,
    the first phone and then the second if one was given, and the birthday
    string if one was given; every other name is found as before, every
    older record is as before, and the new record is the last of the values.
    *)
Theorem add_contact_then_find (s s' : store) (name n phone1 : str)
        (phone2 birthday_ : option str) :
  add_contact name phone1 phone2 birthday_ s = (Ok (ContactAdded n), s') ->
  n = name /\ find name s = None /\
  find name s' = Some (List.length (objects s)) /\
  (exists o,
     deref s' (List.length (objects s)) = Some o /\
     ContactRecord.name o = Name.mk name /\
     phones o
     = Phone.mk phone1
       :: match phone2 with
          | Some p => if truthy p then [Phone.mk p] else []
          | None => []
          end /\
     option_map Birthday.value (birthday o)
     = match birthday_ with
       | Some b => if truthy b then Some b else None
       | None => None
       end) /\
  (forall k, k <> name -> find k s' = find k s) /\
  (forall r o, deref s r = Some o -> deref s' r = Some o) /\
  dict_values (data s') = dict_values (data s) ++ [List.length (objects s)].
Proof.
  intros H.
  destruct (add_contact_cases s name phone1 phone2 birthday_)
    as [[_ Hno] | [r [p1 [p2 [Hc [Hr [Hp1 [Hp2 E]]]]]]]].
  - rewrite H in Hno. contradiction (Hno n). reflexivity.
  - rewrite E in H. injection H as <- <-.
    apply dict_contains_false_get in Hc.
    unfold find. cbn [data].
    split; [reflexivity|]. split; [exact Hc|].
    split.
    { rewrite dict_get_app, Hc. simpl. rewrite str_eqb_refl. reflexivity. }
    split.
    { exists (set_phones r (new_phones_of p1 p2)).
      unfold deref. cbn [objects].
      rewrite nth_error_app2 by lia. rewrite Nat.sub_diag.
      split; [reflexivity|].
      destruct (ContactRecord_new_inv _ _ _ Hr) as [Hn _].
      split; [exact Hn|].
      cbn [set_phones phones birthday]. split.
      - apply Phone_new_inv in Hp1. destruct Hp1 as [_ ->].
        unfold new_phones_of. f_equal.
        unfold phone2_field in Hp2. destruct phone2 as [p|].
        + destruct (truthy p).
          * destruct (Phone.new p) as [f|] eqn:Ep; cbn [bind] in Hp2;
              [|discriminate].
            injection Hp2 as <-. apply Phone_new_inv in Ep.
            destruct Ep as [_ ->]. reflexivity.
          * injection Hp2 as <-. reflexivity.
        + injection Hp2 as <-. reflexivity.
      - apply (ContactRecord_new_birthday _ _ _ Hr). }
    split.
    { intros k Hk. rewrite dict_get_app. simpl.
      assert (E' : str_eqb name k = false)
        by (apply str_eqb_neq; congruence).
      rewrite E'. destruct (dict_get (data s) k); reflexivity. }
    split.
    { intros r0 o Hd. apply deref_app_old. exact Hd. }
    unfold dict_values. rewrite map_app. reflexivity.
Qed.

Lemma add_contact_then_find_witness :
  let s' := snd (add_contact (lit "Ann") (lit "0123456789") None None
                             empty) in
  find (lit "Ann") s' = Some 0%nat.
Proof.
  cbv zeta.
  refine (proj1 (proj2 (proj2
            (add_contact_then_find empty _ (lit "Ann") (lit "Ann")
               (lit "0123456789") None None _)))).
  reflexivity.
Defined.

(** X11: [add_record] files a record under its own name: [find] then gives
    it under that name and gives every other name as before; a name already
    in the book keeps its place and loses its old record; a new name goes
    last. *)
Theorem add_record_spec (s : store) (r : ref) (o : ContactRecord.t) :
  deref s r = Some o ->
  find (Name.value (ContactRecord.name o)) (add_record r s) = Some r /\
  (forall k, k <> Name.value (ContactRecord.name o) ->
     find k (add_record r s) = find k s) /\
  (dict_contains (data s) (Name.value (ContactRecord.name o)) = true ->
   map fst (data (add_record r s)) = map fst (data s)) /\
  (dict_contains (data s) (Name.value (ContactRecord.name o)) = false ->
   data (add_record r s)
   = data s ++ [(Name.value (ContactRecord.name o), r)]) /\
  objects (add_record r s) = objects s.
Proof.
  intros Hd. unfold add_record, find. rewrite Hd. cbn [data objects].
  split; [apply dict_get_set_eq|].
  split; [intros k Hk; apply dict_get_set_ne; exact Hk|].
  split; [apply dict_set_present_keys|].
  split; [apply dict_set_absent | reflexivity].
Qed.

Lemma add_record_spec_witness :
  let ann := ContactRecord.mk (Name.mk (lit "Ann")) [] None in
  let s := snd (alloc ann
             (snd (add_contact (lit "Ann") (lit "0123456789") None None
                               empty))) in
  find (lit "Ann") s = Some 0%nat /\
  find (lit "Ann") (add_record 1%nat s) = Some 1%nat /\
  map fst (data (add_record 1%nat s)) = map fst (data s).
Proof.
  cbv zeta. split; [reflexivity|].
  pose (ann := ContactRecord.mk (Name.mk (lit "Ann")) [] None).
  pose (s := snd (alloc ann
             (snd (add_contact (lit "Ann") (lit "0123456789") None None
                               empty)))).
  destruct (add_record_spec s 1%nat ann eq_refl) as [H1 [_ [H2 _]]].
  split; [exact H1|]. apply H2. reflexivity.
Defined.

(** X12: in a book the program can reach, [delete_contact] reports a
    deletion exactly when the name was there, and changes the book as
    [delete] does; afterwards the name is not found, every other name is
    found as before, and no object has changed.  On a name that is not
    there, nothing changes. *)
Theorem delete_contact_spec (s : store) (name : str) :
  book_reachable s ->
  snd (delete_contact name s) = delete name s /\
  find name (delete name s) = None /\
  (forall k, k <> name -> find k (delete name s) = find k s) /\
  objects (delete name s) = objects s /\
  (forall r, find name s = Some r ->
     fst (delete_contact name s) = ContactDeleted name /\
     S (List.length (data (delete name s))) = List.length (data s)) /\
  (find name s = None ->
   delete_contact name s = (ContactNotFound name, s) /\
   delete name s = s) /\
  book_reachable (delete name s).
Proof.
  intros Hr. destruct (book_reachable_ok s Hr) as [Hk _].
  unfold delete_contact, delete, find, dict_contains.
  destruct (dict_get (data s) name) as [r|] eqn:E; cbn [fst snd data objects].
  - split; [reflexivity|].
    split; [apply dict_get_del_eq; exact Hk|].
    split; [intros k Hne; apply dict_get_del_ne; exact Hne|].
    split; [reflexivity|]. split; [|split; [discriminate|]].
    + intros r0 _. split; [reflexivity|].
      destruct (dict_del_shape (data s) name)
        as [[H1 _] | [l1 [v0 [l2 [H1 [H2 _]]]]]].
      * unfold dict_contains in H1. rewrite E in H1. discriminate.
      * rewrite H2, H1. rewrite !length_app. simpl. lia.
    + pose proof (book_delete name s Hr) as Hd.
      unfold delete, dict_contains in Hd. rewrite E in Hd. exact Hd.
  - split; [reflexivity|]. split; [exact E|].
    split; [reflexivity|]. split; [reflexivity|].
    split; [discriminate|]. split; [auto | exact Hr].
Qed.

Lemma delete_contact_spec_witness :
  let s := snd (add_contact (lit "Ann") (lit "0123456789") None None
                            empty) in
  find (lit "Ann") s = Some 0%nat /\
  find (lit "Ann") (delete (lit "Ann") s) = None.
Proof.
  cbv zeta. split; [reflexivity|].
  refine (proj1 (proj2 (delete_contact_spec
            (snd (add_contact (lit "Ann") (lit "0123456789") None None
                              empty)) (lit "Ann") _))).
  apply book_add_contact. apply book_empty.
Defined.

Lemma NoDup_values_key (d : dict) (k1 k2 : str) (v : ref) :
  NoDup (dict_values d) -> In (k1, v) d -> In (k2, v) d -> k1 = k2.
Proof.
  unfold dict_values.
  induction d as [|[k0 v0] d IH]; simpl; [contradiction|].
  intros Hnd H1 H2. inversion Hnd as [|x l Hx Hl]; subst.
  destruct H1 as [H1 | H1]; destruct H2 as [H2 | H2].
  - congruence.
  - injection H1 as -> ->. contradiction Hx.
    apply (in_map snd) in H2. exact H2.
  - injection H2 as -> ->. contradiction Hx.
    apply (in_map snd) in H1. exact H1.
  - auto.
Qed.

(** X13: in a book the program can reach, a method called on the record that
    [find] gave under a name changes that record where it is: the call has
    the outcome the method has on the record, [find] gives the same records
    under the same names, in the same order, as before, the record found
    under the name is the changed one, and the records found under other
    names are as they were. *)
Theorem method_on_found_record (s : store) (name : str) (r : ref)
        (m : ContactRecord.method unit) :
  book_reachable s -> find name s = Some r -> record_method m ->
  exists o s',
    deref s r = Some o /\
    call r m s = Some (fst (m o), s') /\
    deref s' r = Some (snd (m o)) /\
    data s' = data s /\
    (forall k r', k <> name -> find k s = Some r' ->
       deref s' r' = deref s r') /\
    book_reachable s'.
Proof.
  intros Hr Hf Hm. destruct (book_reachable_ok s Hr) as [Hk [Hv He]].
  destruct (He name r (dict_get_In _ _ _ Hf)) as [o [Hd _]].
  destruct (call r m s) as [[res s']|] eqn:Hc.
  2:{ unfold call in Hc. rewrite Hd in Hc. discriminate. }
  destruct (call_inv _ _ _ _ _ Hc) as [o' [Hd' [Hres [Hdata [Hnew Hoth]]]]].
  assert (o' = o) by congruence. subst o'. subst res.
  exists o, s'. split; [exact Hd|]. split; [reflexivity|].
  split; [exact Hnew|]. split; [exact Hdata|].
  split.
  - intros k r' Hne Hf'. apply Hoth. intros ->. apply Hne.
    apply (NoDup_values_key (data s) k name r Hv);
      apply dict_get_In; assumption.
  - apply (book_method name r m (fst (m o)) s s' Hr Hf Hm Hc).
Qed.

Lemma method_on_found_record_witness :
  let s := snd (add_contact (lit "Ann") (lit "0123456789") None None
                            empty) in
  exists o s',
    deref s 0%nat = Some o /\
    call 0%nat (edit_phone (lit "0123456789") (lit "1111111111")) s
    = Some (fst (edit_phone (lit "0123456789") (lit "1111111111") o), s')
    /\ deref s' 0%nat
       = Some (snd (edit_phone (lit "0123456789") (lit "1111111111") o)).
Proof.
  cbv zeta.
  destruct (method_on_found_record
              (snd (add_contact (lit "Ann") (lit "0123456789") None None
                                empty))
              (lit "Ann") 0%nat
              (edit_phone (lit "0123456789") (lit "1111111111")))
    as [o [s' [H1 [H2 [H3 _]]]]].
  - apply book_add_contact. apply book_empty.
  - reflexivity.
  - constructor.
  - exists o, s'. auto.
Defined.

End Book.

(** ** The days to a birthday, case by case *)

Section BirthdayCases.

Import datetime.
Local Open Scope Z_scope.

Lemma is_leap_next (y : Z) : _is_leap y = true -> _is_leap (y + 1) = false.
Proof.
  unfold _is_leap. intros H. apply andb_true_iff in H.
  destruct H as [H _]. apply Z.eqb_eq in H.
  apply andb_false_iff. left. apply Z.eqb_neq.
  Z.div_mod_to_equations. lia.
Qed.

Lemma occurrence_feb29_valid (b : Birthday.t) (y : Z) :
  month (Birthday.date b) = 2 -> day (Birthday.date b) = 29 ->
  1 <= y <= 9999 -> _is_leap y = true -> valid (occurrence b y).
Proof.
  intros Hm Hd Hy Hl. apply valid_bounds. unfold occurrence.
  cbn [year month day hour minute second microsecond].
  rewrite Hm, Hd. unfold _days_in_month. rewrite Hl. cbn. lia.
Qed.

Lemma new_feb29_common (y : Z) :
  1 <= y <= 9999 -> _is_leap y = false ->
  datetime.new y 2 29 0 0 0 0 = Raise (ValueError DayOutOfRange).
Proof.
  intros Hy Hl.
  unfold datetime.new, _check_date_fields, _days_in_month, MINYEAR, MAXYEAR.
  rewrite Hl.
  replace (1 <=? y) with true by (symmetry; apply Z.leb_le; lia).
  replace (y <=? 9999) with true by (symmetry; apply Z.leb_le; lia).
  reflexivity.
Qed.

Lemma new_year_10000 (m d : Z) :
  datetime.new 10000 m d 0 0 0 0 = Raise (ValueError (YearOutOfRange 10000)).
Proof. reflexivity. Qed.

(** The second [replace], on the date of this year. *)
Lemma replace_next (b : Birthday.t) (y : Z) :
  replace_year (occurrence b y) (y + 1)
  = datetime.new (y + 1) (month (Birthday.date b)) (day (Birthday.date b))
                 0 0 0 0.
Proof. reflexivity. Qed.

(** What [days_to_birthday] gives for a birthday that [Birthday] made,
    at every valid reading of the clock. *)
Lemma days_to_birthday_cases (self : ContactRecord.t) (today : datetime.t)
      (b : Birthday.t) :
  birthday self = Some b -> constructed b -> valid today ->
  (month (Birthday.date b) = 2 -> day (Birthday.date b) = 29 ->
   _is_leap (year today) = false ->
   days_to_birthday self today = Raise (ValueError DayOutOfRange)) /\
  (month (Birthday.date b) = 2 -> day (Birthday.date b) = 29 ->
   _is_leap (year today) = true ->
   gtb today (occurrence b (year today)) = true ->
   days_to_birthday self today = Raise (ValueError DayOutOfRange)) /\
  (month (Birthday.date b) = 2 -> day (Birthday.date b) = 29 ->
   _is_leap (year today) = true ->
   gtb today (occurrence b (year today)) = false ->
   days_to_birthday self today
   = Ok (Some (whole_days today (occurrence b (year today))))) /\
  (~ (month (Birthday.date b) = 2 /\ day (Birthday.date b) = 29) ->
   gtb today (occurrence b (year today)) = false ->
   days_to_birthday self today
   = Ok (Some (whole_days today (occurrence b (year today))))) /\
  (~ (month (Birthday.date b) = 2 /\ day (Birthday.date b) = 29) ->
   gtb today (occurrence b (year today)) = true -> year today < 9999 ->
   days_to_birthday self today
   = Ok (Some (whole_days today (occurrence b (year today + 1))))) /\
  (~ (month (Birthday.date b) = 2 /\ day (Birthday.date b) = 29) ->
   gtb today (occurrence b (year today)) = true -> year today = 9999 ->
   days_to_birthday self today
   = Raise (ValueError (YearOutOfRange 10000))).
Proof.
  intros Hb Hc Ht. pose proof Ht as Hbd. apply valid_bounds in Hbd.
  assert (Hy : 1 <= year today <= 9999) by lia.
  split; [|split; [|split; [|split; [|split]]]].
  - intros Hm Hd Hl. apply (replace_feb29_raises self today b); assumption.
  - intros Hm Hd Hl Hg.
    assert (Hv := occurrence_feb29_valid b (year today) Hm Hd Hy Hl).
    unfold days_to_birthday. rewrite Hb.
    rewrite (replace_year_valid b (year today) Hc Hv). cbn [bind].
    rewrite Hg, replace_next, Hm, Hd.
    destruct (Z.eq_dec (year today) 9999) as [E | E].
    + rewrite E in Hl. discriminate Hl.
    + rewrite new_feb29_common by (lia || apply is_leap_next; exact Hl).
      reflexivity.
  - intros Hm Hd Hl Hg.
    assert (Hv := occurrence_feb29_valid b (year today) Hm Hd Hy Hl).
    unfold days_to_birthday. rewrite Hb.
    rewrite (replace_year_valid b (year today) Hc Hv). cbn [bind].
    rewrite Hg. cbn [bind]. rewrite sub_days. reflexivity.
  - intros Hn Hg.
    assert (Hv := occurrence_valid b (year today) Hc Hy Hn).
    unfold days_to_birthday. rewrite Hb.
    rewrite (replace_year_valid b (year today) Hc Hv). cbn [bind].
    rewrite Hg. cbn [bind]. rewrite sub_days. reflexivity.
  - intros Hn Hg Hlast.
    assert (Hv := occurrence_valid b (year today) Hc Hy Hn).
    assert (Hv' : valid (occurrence b (year today + 1)))
      by (apply occurrence_valid; [exact Hc | lia | exact Hn]).
    unfold days_to_birthday. rewrite Hb.
    rewrite (replace_year_valid b (year today) Hc Hv). cbn [bind].
    rewrite Hg, replace_next.
    unfold valid in Hv'.
    cbn [occurrence year month day hour minute second microsecond] in Hv'.
    rewrite Hv'. cbn [bind]. rewrite sub_days. reflexivity.
  - intros Hn Hg Hlast.
    assert (Hv := occurrence_valid b (year today) Hc Hy Hn).
    unfold days_to_birthday. rewrite Hb.
    rewrite (replace_year_valid b (year today) Hc Hv). cbn [bind].
    rewrite Hg, replace_next, Hlast. reflexivity.
Qed.

End BirthdayCases.

(** ** The text of a record; finding and listing contacts *)

Section Reports.

Import AddressBook.
Import Show.
Local Open Scope Z_scope.

(** [Record.__str__] raises what [days_to_birthday] raises, and nothing
    else. *)
Lemma Record__str__raise (self : ContactRecord.t) (today : datetime.t)
      (e : exn) :
  Record__str__ self today = Raise e <->
  (exists b, birthday self = Some b) /\
  days_to_birthday self today = Raise e.
Proof.
  unfold Record__str__.
  destruct (birthday self) as [b|] eqn:Hb; cbn [bind].
  - destruct (days_to_birthday self today) as [d|e'] eqn:Hd; cbn [bind].
    + split; [discriminate | intros [_ H]; discriminate].
    + split.
      * intros H. injection H as <-. split; [eauto | reflexivity].
      * intros [_ H]. injection H as <-. reflexivity.
  - split; [discriminate|]. intros [[b H] _]. discriminate.
Qed.

Lemma Record__str__ok (self : ContactRecord.t) (today : datetime.t) :
  (birthday self = None \/
   exists d, days_to_birthday self today = Ok d) ->
  exists text, Record__str__ self today = Ok text.
Proof.
  intros H. destruct (Record__str__ self today) as [text|e] eqn:E;
    [eauto|].
  apply Record__str__raise in E. destruct E as [[b Hb] Hd].
  destruct H as [H | [d H]]; congruence.
Qed.

(** The text of a record the program can hold, in a year before the
    last: there is one unless the birthday is 29 February. *)
Lemma Record__str__total (self : ContactRecord.t) (today : datetime.t) :
  reachable self -> datetime.valid today -> datetime.year today < 9999 ->
  (forall b, birthday self = Some b ->
     ~ (datetime.month (Birthday.date b) = 2 /\
        datetime.day (Birthday.date b) = 29)) ->
  exists text, Record__str__ self today = Ok text.
Proof.
  intros Hr Ht Hy Hn. apply Record__str__ok.
  destruct (birthday self) as [b|] eqn:Hb; [right | left; reflexivity].
  destruct (days_to_birthday_total self today b Hb
              (reachable_constructed self Hr b Hb) Ht (Hn b eq_refl) Hy)
    as [n E].
  eauto.
Qed.

Lemma Record__str__feb29 (self : ContactRecord.t) (today : datetime.t)
      (b : Birthday.t) :
  birthday self = Some b ->
  datetime.month (Birthday.date b) = 2 ->
  datetime.day (Birthday.date b) = 29 ->
  datetime.valid today -> datetime._is_leap (datetime.year today) = false ->
  Record__str__ self today = Raise (ValueError DayOutOfRange).
Proof.
  intros Hb Hm Hd Ht Hl. apply Record__str__raise.
  split; [eauto|]. apply (replace_feb29_raises self today b); assumption.
Qed.

(** [Record.__str__] is the text of the record with the days that
    [days_to_birthday] counts. *)
Lemma Record__str__text (self : ContactRecord.t) (today : datetime.t) :
  Record__str__ self today
  = match birthday self with
    | Some _ =>
        (d <- days_to_birthday self today ;; Ok (record_text self d))%result
    | None => Ok (record_text self None)
    end.
Proof.
  unfold Record__str__, record_text.
  destruct (birthday self) as [b|]; cbn [bind]; [|reflexivity].
  destruct (days_to_birthday self today) as [d|e]; reflexivity.
Qed.

(** X14: in a book the program can reach, [find_contact] reports a name
    that is not there as not found and raises nothing.  For a name that
    is there it finds the record filed under that name and prints the
    text of that record: name, phones, birthday and the whole days to
    the next birthday, counted to the date of this year when that is
    not before now and to the date of next year otherwise.  It raises
    the [ValueError] of [datetime.replace], which it does not catch, in
    three cases: the birthday is 29 February and this year is not a
    leap year; the birthday is 29 February, this year is a leap year
    and that date is before now, so that next year is tried; the
    birthday of this year is before now and this year is 9999. *)
Theorem find_contact_spec (s : store) (name : str) (today : datetime.t) :
  book_reachable s -> datetime.valid today ->
  (find name s = None ->
   find_contact name s today = Ok (ContactNotFound name)) /\
  (forall r, find name s = Some r ->
     exists o,
       deref s r = Some o /\
       Name.value (ContactRecord.name o) = name /\
       (birthday o = None ->
        find_contact name s today = Ok (RecordText (record_text o None))) /\
       (forall b, birthday o = Some b ->
          (datetime.month (Birthday.date b) = 2 ->
           datetime.day (Birthday.date b) = 29 ->
           datetime._is_leap (datetime.year today) = false ->
           find_contact name s today = Raise (ValueError DayOutOfRange)) /\
          (datetime.month (Birthday.date b) = 2 ->
           datetime.day (Birthday.date b) = 29 ->
           datetime._is_leap (datetime.year today) = true ->
           datetime.gtb today (occurrence b (datetime.year today)) = true ->
           find_contact name s today = Raise (ValueError DayOutOfRange)) /\
          (datetime.month (Birthday.date b) = 2 ->
           datetime.day (Birthday.date b) = 29 ->
           datetime._is_leap (datetime.year today) = true ->
           datetime.gtb today (occurrence b (datetime.year today)) = false ->
           find_contact name s today
           = Ok (RecordText
                   (record_text o
                      (Some (whole_days today
                               (occurrence b (datetime.year today))))))) /\
          (~ (datetime.month (Birthday.date b) = 2 /\
              datetime.day (Birthday.date b) = 29) ->
           datetime.gtb today (occurrence b (datetime.year today)) = false ->
           find_contact name s today
           = Ok (RecordText
                   (record_text o
                      (Some (whole_days today
                               (occurrence b (datetime.year today))))))) /\
          (~ (datetime.month (Birthday.date b) = 2 /\
              datetime.day (Birthday.date b) = 29) ->
           datetime.gtb today (occurrence b (datetime.year today)) = true ->
           datetime.year today < 9999 ->
           find_contact name s today
           = Ok (RecordText
                   (record_text o
                      (Some (whole_days today
                               (occurrence b (datetime.year today + 1))))))) /\
          (~ (datetime.month (Birthday.date b) = 2 /\
              datetime.day (Birthday.date b) = 29) ->
           datetime.gtb today (occurrence b (datetime.year today)) = true ->
           datetime.year today = 9999 ->
           find_contact name s today
           = Raise (ValueError (YearOutOfRange 10000))))).
Proof.
  intros Hr Ht. unfold find_contact.
  split; [intros ->; reflexivity|].
  intros r Hf. rewrite Hf.
  destruct (book_reachable_ok s Hr) as [_ [_ He]].
  destruct (He name r (dict_get_In _ _ _ Hf)) as [o [Hd [Hname Ro]]].
  exists o. rewrite Hd, Record__str__text.
  split; [reflexivity|]. split; [exact Hname|]. split.
  - intros Hb. rewrite Hb. reflexivity.
  - intros b Hb. rewrite Hb.
    destruct (days_to_birthday_cases o today b Hb
                (reachable_constructed o Ro b Hb) Ht)
      as [C1 [C2 [C3 [C4 [C5 C6]]]]].
    split; [intros Hm Hday Hl; rewrite (C1 Hm Hday Hl); reflexivity|].
    split; [intros Hm Hday Hl Hg; rewrite (C2 Hm Hday Hl Hg); reflexivity|].
    split; [intros Hm Hday Hl Hg; rewrite (C3 Hm Hday Hl Hg); reflexivity|].
    split; [intros Hn Hg; rewrite (C4 Hn Hg); reflexivity|].
    split; [intros Hn Hg Hy; rewrite (C5 Hn Hg Hy); reflexivity|].
    intros Hn Hg Hy. rewrite (C6 Hn Hg Hy). reflexivity.
Qed.

Lemma find_contact_spec_witness :
  let s := snd (add_contact (lit "Bob") (lit "0123456789") None
                            (Some (lit "2000-02-29")) empty) in
  let bob := ContactRecord.mk (Name.mk (lit "Bob"))
               [Phone.mk (lit "0123456789")]
               (Some (Birthday.mk (lit "2000-02-29")
                                  (datetime.mk 2000 2 29 0 0 0 0))) in
  find_contact (lit "Bob") s (datetime.mk 2023 6 15 10 30 0 0)
  = Raise (ValueError DayOutOfRange) /\
  find_contact (lit "Bob") s (datetime.mk 2024 3 1 0 0 0 0)
  = Raise (ValueError DayOutOfRange) /\
  find_contact (lit "Bob") s (datetime.mk 2024 2 1 10 30 0 0)
  = Ok (RecordText (record_text bob (Some 27))) /\
  find_contact (lit "Ann") s (datetime.mk 2023 6 15 10 30 0 0)
  = Ok (ContactNotFound (lit "Ann")).
Proof.
  cbv zeta.
  pose (s := snd (add_contact (lit "Bob") (lit "0123456789") None
                              (Some (lit "2000-02-29")) empty)).
  assert (Hr : book_reachable s)
    by (apply book_add_contact; apply book_empty).
  split; [|split; [|split]].
  - destruct (proj2 (find_contact_spec s (lit "Bob")
                       (datetime.mk 2023 6 15 10 30 0 0) Hr eq_refl)
                    0%nat eq_refl) as [o [Hd [_ [_ H]]]].
    vm_compute in Hd. injection Hd as <-.
    refine (proj1 (H _ eq_refl) _ _ _); reflexivity.
  - destruct (proj2 (find_contact_spec s (lit "Bob")
                       (datetime.mk 2024 3 1 0 0 0 0) Hr eq_refl)
                    0%nat eq_refl) as [o [Hd [_ [_ H]]]].
    vm_compute in Hd. injection Hd as <-.
    refine (proj1 (proj2 (H _ eq_refl)) _ _ _ _); reflexivity.
  - destruct (proj2 (find_contact_spec s (lit "Bob")
                       (datetime.mk 2024 2 1 10 30 0 0) Hr eq_refl)
                    0%nat eq_refl) as [o [Hd [_ [_ H]]]].
    vm_compute in Hd. injection Hd as <-.
    refine (proj1 (proj2 (proj2 (H _ eq_refl))) _ _ _ _); reflexivity.
  - refine (proj1 (find_contact_spec s (lit "Ann")
                     (datetime.mk 2023 6 15 10 30 0 0) Hr eq_refl) _).
    reflexivity.
Defined.

Lemma print_records_ok (records : list ref) (s : store)
      (clock : nat -> datetime.t) :
  (forall r, In r records ->
     exists o, deref s r = Some o /\ reachable o /\
       forall b, birthday o = Some b ->
         ~ (datetime.month (Birthday.date b) = 2 /\
            datetime.day (Birthday.date b) = 29)) ->
  (forall k, datetime.valid (clock k) /\ datetime.year (clock k) < 9999) ->
  forall k,
    snd (print_records records s clock k) = Ok tt /\
    List.length (fst (print_records records s clock k))
    = List.length records.
Proof.
  intros Hrec Hclock. induction records as [|r records IH]; intros k;
    cbn [print_records]; [auto|].
  destruct (Hrec r (or_introl eq_refl)) as [o [Hd [Ro Hn]]]. rewrite Hd.
  destruct (Hclock k) as [Hv Hy].
  destruct (Record__str__total o (clock k) Ro Hv Hy Hn) as [text E].
  rewrite E. cbn [fst snd List.length].
  destruct (IH (fun r' H => Hrec r' (or_intror H)) (S k)) as [H1 H2].
  rewrite H1, H2. auto.
Qed.

Lemma print_records_raise (records : list ref) (s : store)
      (clock : nat -> datetime.t) (r0 : ref) (o0 : ContactRecord.t)
      (b : Birthday.t) :
  (forall r, In r records -> exists o, deref s r = Some o) ->
  In r0 records -> deref s r0 = Some o0 -> birthday o0 = Some b ->
  datetime.month (Birthday.date b) = 2 ->
  datetime.day (Birthday.date b) = 29 ->
  (forall k, datetime.valid (clock k) /\
             datetime._is_leap (datetime.year (clock k)) = false) ->
  forall k,
    (exists e, snd (print_records records s clock k) = Raise e) /\
    (List.length (fst (print_records records s clock k))
     < List.length records)%nat.
Proof.
  intros Hrec Hin Hd0 Hb Hm Hday Hclock.
  induction records as [|r records IH]; intros k; [contradiction|].
  cbn [print_records].
  destruct (Hrec r (or_introl eq_refl)) as [o Hd]. rewrite Hd.
  destruct (Record__str__ o (clock k)) as [text|e] eqn:E.
  - destruct Hin as [-> | Hin].
    + assert (o = o0) by congruence. subst o.
      destruct (Hclock k) as [Hv Hl].
      rewrite (Record__str__feb29 o0 (clock k) b Hb Hm Hday Hv Hl) in E.
      discriminate.
    + destruct (IH (fun r' H => Hrec r' (or_intror H)) Hin (S k))
        as [H1 H2].
      cbn [fst snd List.length]. split; [exact H1 | lia].
  - cbn [fst snd List.length]. split; [eauto | lia].
Qed.

(** X15: [show_all_contacts] on a book the program can reach, the clock
    being valid at every reading.  If no record has a birthday on 29
    February and the year is before the last, it prints one text for each
    record and raises nothing.  If a record has a birthday on 29 February
    and no reading is in a leap year, it raises before it has printed every
    record. *)
Theorem show_all_contacts_spec (s : store) (clock : nat -> datetime.t) :
  book_reachable s -> (forall k, datetime.valid (clock k)) ->
  ((forall name r o b,
      find name s = Some r -> deref s r = Some o -> birthday o = Some b ->
      ~ (datetime.month (Birthday.date b) = 2 /\
         datetime.day (Birthday.date b) = 29)) ->
   (forall k, datetime.year (clock k) < 9999) ->
   snd (show_all_contacts s clock) = Ok tt /\
   List.length (fst (show_all_contacts s clock))
   = List.length (data s)) /\
  ((exists name r o b,
      find name s = Some r /\ deref s r = Some o /\ birthday o = Some b /\
      datetime.month (Birthday.date b) = 2 /\
      datetime.day (Birthday.date b) = 29) ->
   (forall k, datetime._is_leap (datetime.year (clock k)) = false) ->
   (exists e, snd (show_all_contacts s clock) = Raise e) /\
   (List.length (fst (show_all_contacts s clock))
    < List.length (data s))%nat).
Proof.
  intros Hr Hv. destruct (book_reachable_ok s Hr) as [Hk [_ He]].
  assert (Hval : forall r, In r (dict_values (data s)) ->
            exists k, In (k, r) (data s)).
  { intros r Hin. unfold dict_values in Hin. apply in_map_iff in Hin.
    destruct Hin as [[k r'] [E Hin]]. cbn [snd] in E. subst r'. eauto. }
  assert (Hlen : List.length (dict_values (data s))
                 = List.length (data s))
    by (unfold dict_values; apply length_map).
  unfold show_all_contacts. split.
  - intros Hn Hy. rewrite <- Hlen. apply print_records_ok.
    + intros r Hin. destruct (Hval r Hin) as [k Hkr].
      destruct (He k r Hkr) as [o [Hd [_ Ro]]]. exists o.
      split; [exact Hd|]. split; [exact Ro|].
      intros b Hb. apply (Hn k r o b); [|exact Hd|exact Hb].
      apply In_dict_get; assumption.
    + intros k. auto.
  - intros [name [r [o [b [Hf [Hd [Hb [Hm Hday]]]]]]]] Hl.
    rewrite <- Hlen.
    apply (print_records_raise _ s clock r o b); try assumption.
    + intros r' Hin. destruct (Hval r' Hin) as [k Hkr].
      destruct (He k r' Hkr) as [o' [Hd' _]]. eauto.
    + unfold dict_values. apply (in_map snd _ _ (dict_get_In _ _ _ Hf)).
    + intros k. auto.
Qed.

Lemma show_all_contacts_spec_witness :
  let s := snd (add_contact (lit "Bob") (lit "0123456789") None
                            (Some (lit "2000-02-29"))
             (snd (add_contact (lit "Ann") (lit "1111111111") None None
                               empty))) in
  let clock := fun _ : nat => datetime.mk 2023 6 15 10 30 0 0 in
  (exists e, snd (show_all_contacts s clock) = Raise e) /\
  (List.length (fst (show_all_contacts s clock))
   < List.length (data s))%nat.
Proof.
  cbv zeta.
  refine (proj2 (show_all_contacts_spec _ _ _ _) _ _).
  - apply book_add_contact. apply book_add_contact. apply book_empty.
  - intros k. reflexivity.
  - eexists (lit "Bob"), 1%nat, _, _.
    split; [reflexivity|]. split; [reflexivity|].
    split; [reflexivity|]. split; reflexivity.
  - intros k. reflexivity.
Defined.

End Reports.

(** ** The paging generator: page sizes below 1, and the empty book *)

Section PagingEdges.

Import AddressBook.
Local Open Scope Z_scope.

(** A generator that stands at or before the start, with a page size
    that is not positive, never stops. *)
Lemma drive_never_stops (k : nat) :
  forall (s : store) (t : Z) (records : list ref) (cp ps : Z),
    0 < t -> ps <= 0 -> cp <= 0 ->
    List.length
      (fst (drive (Suspended t records cp ps) (repeat s k))) = k /\
    snd (drive (Suspended t records cp ps) (repeat s k)) <> Finished.
Proof.
  induction k as [|k IH]; intros s t records cp ps Ht Hps Hcp.
  - cbn [repeat drive fst snd List.length]. split; [reflexivity|].
    discriminate.
  - change (repeat s (S k)) with (s :: repeat s k).
    rewrite drive_cons. cbn [next]. unfold loop.
    replace (cp + ps <? t) with true by (symmetry; apply Z.ltb_lt; lia).
    cbn [fst snd List.length].
    destruct (IH s t records (cp + ps) ps Ht Hps) as [H1 H2]; [lia|].
    rewrite H1. auto.
Qed.

Lemma slice_empty_range {A : Type} (l : list A) (i : Z) :
  slice l i (i + 0) = [].
Proof.
  unfold slice. rewrite Z.add_0_r, Z.sub_diag. reflexivity.
Qed.

Lemma drive_zero_pages (k : nat) :
  forall (s : store) (t : Z) (records : list ref) (cp : Z),
    0 < t -> cp <= 0 ->
    fst (drive (Suspended t records cp 0) (repeat s k)) = repeat [] k.
Proof.
  induction k as [|k IH]; intros s t records cp Ht Hcp; [reflexivity|].
  change (repeat s (S k)) with (s :: repeat s k).
  rewrite drive_cons. cbn [next]. unfold loop.
  replace (cp + 0 <? t) with true by (symmetry; apply Z.ltb_lt; lia).
  cbn [fst repeat]. rewrite slice_empty_range.
  rewrite (IH s t records (cp + 0) Ht) by lia. reflexivity.
Qed.

(** X16: the paging generator at its edges.  On an empty book it stops at
    the first request, whatever the page size.  On a book that is not empty,
    with a page size of 0 or less it never stops: every request gets a page;
    with a page size of 0 every page is empty. *)
Theorem iterator_page_size_edges (s : store) (page_size : Z) (k : nat) :
  (data s = [] ->
   drive (iterator page_size) (repeat s (S k)) = ([], Finished)) /\
  (data s <> [] -> page_size <= 0 ->
   List.length (fst (drive (iterator page_size) (repeat s k))) = k /\
   snd (drive (iterator page_size) (repeat s k)) <> Finished /\
   (page_size = 0 ->
    fst (drive (iterator page_size) (repeat s k)) = repeat [] k)).
Proof.
  split.
  - intros E. change (repeat s (S k)) with (s :: repeat s k).
    rewrite drive_cons. cbn [iterator next]. rewrite E. reflexivity.
  - intros Hne Hps.
    assert (Ht : 0 < len (data s)).
    { unfold len. destruct (data s); [contradiction|]. simpl. lia. }
    destruct k as [|k].
    { cbn [repeat drive fst snd List.length iterator].
      split; [reflexivity|]. split; [discriminate | reflexivity]. }
    change (repeat s (S k)) with (s :: repeat s k).
    rewrite drive_cons. cbn [iterator next]. unfold loop.
    replace (0 <? len (data s)) with true
      by (symmetry; apply Z.ltb_lt; exact Ht).
    cbn [fst snd List.length].
    destruct (drive_never_stops k s (len (data s))
                (dict_values (data s)) 0 page_size Ht Hps (Z.le_refl 0))
      as [H1 H2].
    rewrite H1. split; [reflexivity|]. split; [exact H2|].
    intros ->. cbn [repeat].
    rewrite (drive_zero_pages k s _ _ 0 Ht (Z.le_refl 0)).
    rewrite (slice_empty_range (dict_values (data s)) 0). reflexivity.
Qed.

Lemma iterator_page_size_edges_witness :
  let s := snd (add_contact (lit "Ann") (lit "0123456789") None None
                            empty) in
  drive (iterator 2) (repeat empty 1) = ([], Finished) /\
  fst (drive (iterator 0) (repeat s 3)) = [[]; []; []] /\
  snd (drive (iterator 0) (repeat s 3)) <> Finished.
Proof.
  cbv zeta.
  pose (s := snd (add_contact (lit "Ann") (lit "0123456789") None None
                              empty)).
  split.
  - refine (proj1 (iterator_page_size_edges empty 2 0) _). reflexivity.
  - destruct (proj2 (iterator_page_size_edges s 0 3)) as [_ [H2 H3]];
      [discriminate | lia |].
    split; [apply H3; reflexivity | exact H2].
Defined.

End PagingEdges.


(** ** main.py: words of a command line *)

Section Words.

Import Main.

Lemma is_word_inv (w : str) :
  is_word w = true ->
  w <> [] /\ Forall (fun c => isspace c = false) w.
Proof.
  unfold is_word. intros H. apply andb_true_iff in H. destruct H as [H1 H2].
  split; [destruct w; [discriminate|discriminate]|].
  rewrite forallb_forall in H2. apply Forall_forall. intros c Hc.
  apply H2 in Hc. destruct (isspace c); [discriminate|reflexivity].
Qed.

Lemma is_word_intro (w : str) :
  w <> [] -> Forall (fun c => isspace c = false) w -> is_word w = true.
Proof.
  intros H1 H2. unfold is_word. apply andb_true_iff. split.
  - destruct w; [contradiction|reflexivity].
  - apply forallb_forall. intros c Hc.
    rewrite Forall_forall in H2. rewrite (H2 c Hc). reflexivity.
Qed.

Lemma split_from_app (t word rest : str) :
  Forall (fun c => isspace c = false) t ->
  split_from word (t ++ rest) = split_from (word ++ t) rest.
Proof.
  intros H. revert word.
  induction H as [|c t Hc _ IH]; intros word; cbn [app split_from].
  - rewrite app_nil_r. reflexivity.
  - rewrite Hc, IH, <- app_assoc. reflexivity.
Qed.

Lemma split_line (ws : list str) :
  Forall (fun w => is_word w = true) ws -> split (line ws) = ws.
Proof.
  unfold split, line. induction 1 as [|w ws Hw Hws IH]; [reflexivity|].
  apply is_word_inv in Hw. destruct Hw as [Hne Hw].
  destruct ws as [|w' ws'].
  - cbn [Show.join]. pose proof (split_from_app w [] [] Hw) as E.
    rewrite app_nil_r in E. rewrite E. cbn [app split_from].
    destruct w; [contradiction|reflexivity].
  - change (Show.join (lit " ") (w :: w' :: ws'))
      with (w ++ lit " " ++ Show.join (lit " ") (w' :: ws')).
    rewrite split_from_app by assumption. cbn [app].
    change (lit " ") with [32%N] in IH |- *. cbn [app split_from].
    change (isspace 32%N) with true. cbv iota.
    destruct w; [contradiction|]. rewrite IH. reflexivity.
Qed.


Lemma lstrip_id (c : char) (s : str) :
  isspace c = false -> lstrip (c :: s) = c :: s.
Proof. intros H. cbn [lstrip]. rewrite H. reflexivity. Qed.

(** A line of words begins and ends with a character that is no
    whitespace. *)
Lemma line_head (w : str) (ws : list str) :
  is_word w = true ->
  exists c rest, line (w :: ws) = c :: rest /\ isspace c = false.
Proof.
  intros Hw. apply is_word_inv in Hw. destruct Hw as [Hne Hw].
  destruct w as [|c w']; [contradiction|].
  inversion Hw; subst. unfold line.
  destruct ws as [|w2 ws].
  - exists c, w'. split; [reflexivity|assumption].
  - exists c, (w' ++ lit " " ++ Show.join (lit " ") (w2 :: ws)).
    split; [reflexivity|assumption].
Qed.

Lemma rev_word_head (w : str) :
  is_word w = true ->
  exists c rest, rev w = c :: rest /\ isspace c = false.
Proof.
  intros Hw. apply is_word_inv in Hw. destruct Hw as [Hne Hw].
  apply Forall_rev in Hw.
  destruct (rev w) as [|c rest] eqn:E.
  - apply (f_equal (@rev char)) in E. rewrite rev_involutive in E.
    contradiction.
  - inversion Hw; subst. exists c, rest. split; [reflexivity|assumption].
Qed.

Lemma line_last (ws : list str) :
  ws <> [] -> Forall (fun w => is_word w = true) ws ->
  exists c rest, rev (line ws) = c :: rest /\ isspace c = false.
Proof.
  intros Hne H. induction H as [|w ws Hw Hws IH]; [contradiction|].
  destruct ws as [|w2 ws'].
  - unfold line. cbn [Show.join]. apply rev_word_head. exact Hw.
  - unfold line.
    change (Show.join (lit " ") (w :: w2 :: ws'))
      with (w ++ lit " " ++ Show.join (lit " ") (w2 :: ws')).
    rewrite !rev_app_distr.
    destruct IH as [c [rest [E Hc]]]; [discriminate|].
    unfold line in E. rewrite E. cbn [app].
    exists c, (rest ++ rev (lit " ") ++ rev w).
    split; [rewrite app_assoc; reflexivity|assumption].
Qed.

Lemma strip_line (ws : list str) :
  ws <> [] -> Forall (fun w => is_word w = true) ws ->
  strip (line ws) = line ws.
Proof.
  intros Hne H. unfold strip, rstrip.
  destruct ws as [|w ws']; [contradiction|].
  destruct (line_head w ws') as [c [rest [E Hc]]];
    [inversion H; assumption|].
  rewrite E, (lstrip_id c rest Hc), <- E.
  destruct (line_last (w :: ws') Hne H) as [c' [rest' [E' Hc']]].
  rewrite E', (lstrip_id c' rest' Hc'), <- E'.
  apply rev_involutive.
Qed.

(** X17: the words of a line written with one blank between them come back
    from [parse_command], the first one in lower case; [strip] leaves such a
    line as it is. *)
Theorem parse_command_line (lower : str -> str) (w : str) (ws : list str) :
  Forall (fun x => is_word x = true) (w :: ws) ->
  strip (line (w :: ws)) = line (w :: ws) /\
  parse_command lower (line (w :: ws)) = (Some (lower w), ws).
Proof.
  intros H. split.
  - apply strip_line; [discriminate|exact H].
  - unfold parse_command. rewrite (split_line (w :: ws) H). reflexivity.
Qed.

Lemma parse_command_line_witness :
  Main.strip (lit "ADD Bob 0123456789") = lit "ADD Bob 0123456789" /\
  Main.parse_command ascii_lower (lit "ADD Bob 0123456789")
  = (Some (lit "add"), [lit "Bob"; lit "0123456789"]).
Proof.
  refine (parse_command_line ascii_lower (lit "ADD")
            [lit "Bob"; lit "0123456789"] _).
  repeat constructor.
Defined.


End Words.


(** ** main.py: the copies of the classes *)

Section Copies.

Import AddressBook.

Lemma edit_loop_copy (old_phone new_phone : str) (ps : list Phone.t) :
  Phone.bad_format new_phone = false ->
  forall found,
    ContactRecord.edit_loop old_phone new_phone ps found
    = (Ok (fst (Main.edit_loop old_phone new_phone ps found)),
       snd (Main.edit_loop old_phone new_phone ps found)).
Proof.
  intros Hb. induction ps as [|p ps IH]; intros found; [reflexivity|].
  cbn [ContactRecord.edit_loop Main.edit_loop].
  destruct (str_eqb (Phone.value p) old_phone).
  - unfold Phone.set_value, Phone.new. rewrite Hb, IH. reflexivity.
  - rewrite IH. reflexivity.
Qed.

(** X19: the two copies of [edit_phone] do the same on every record and
    every pair of numbers: the plain assignment of [main.py] comes after the
    same test as the setter of [classes.py] makes. *)
Theorem edit_phone_copies (old_phone new_phone : str)
        (self : ContactRecord.t) :
  Main.edit_phone old_phone new_phone self
  = ContactRecord.edit_phone old_phone new_phone self.
Proof.
  unfold Main.edit_phone, ContactRecord.edit_phone.
  destruct (Phone.bad_format new_phone) eqn:Hb; [reflexivity|].
  cbv zeta. rewrite (edit_loop_copy _ _ _ Hb). cbn [fst snd].
  reflexivity.
Qed.

Lemma Record_new_inv (name_ : str) (birthday_ : option str)
      (r : ContactRecord.t) :
  Main.Record_new name_ birthday_ = Ok r ->
  ContactRecord.name r = Name.mk name_ /\ phones r = [] /\
  forall b, birthday r = Some b ->
    exists raw, birthday_ = Some raw /\ Birthday.new raw = Ok b.
Proof.
  unfold Main.Record_new. destruct birthday_ as [raw|].
  - destruct (truthy raw).
    + destruct (Birthday.new raw) as [b'|e] eqn:E; cbn [bind];
        [|discriminate].
      intros H. injection H as <-. repeat split.
      intros b Hb. injection Hb as <-. exists raw. auto.
    + intros H. injection H as <-. repeat split. discriminate.
  - intros H. injection H as <-. repeat split. discriminate.
Qed.

Lemma Record_new_copy (name_ : str) (birthday_ : option str) (n : Name.t) :
  Name.new name_ = Ok n ->
  ContactRecord.new name_ birthday_ = Main.Record_new name_ birthday_.
Proof.
  intros Hn. unfold ContactRecord.new, Main.Record_new. rewrite Hn.
  apply Name_new_inv in Hn. destruct Hn as [-> _]. reflexivity.
Qed.

Lemma bad_phone2_none (phone2 : option str) :
  Main.bad_phone2 phone2 = None ->
  forall p, phone2 = Some p -> truthy p = true ->
            Phone.bad_format p = false.
Proof.
  unfold Main.bad_phone2. intros H p -> Ht. rewrite Ht in H.
  destruct (Phone.bad_format p); [discriminate|reflexivity].
Qed.

(** The end of [add_contact] in [main.py], once the checks are passed. *)
Lemma Main_add_contact_finish (s : store) (name phone1 : str)
      (phone2 : option str) (r : ContactRecord.t) :
  dict_contains (data s) name = false ->
  Phone.bad_format phone1 = false -> Main.bad_phone2 phone2 = None ->
  ContactRecord.name r = Name.mk name -> phones r = [] ->
  match ContactRecord.add_phone phone1 r with
  | (Raise e, _) => (Raise e, s)
  | (Ok _, record1) =>
      match Main.add_phone2 phone2 record1 with
      | (Raise e, _) => (Raise e, s)
      | (Ok _, record2) =>
          (Ok (Main.ContactAdded name),
           add_record (fst (alloc record2 s)) (snd (alloc record2 s)))
      end
  end
  = (Ok (Main.ContactAdded name),
     mk (objects s ++ [set_phones r (given_phones phone1 phone2)])
        (data s ++ [(name, List.length (objects s))])).
Proof.
  intros Hc H1 H2 Hn Hp.
  unfold ContactRecord.add_phone at 1. rewrite Hp.
  cbn [len List.length Z.of_nat Z.ltb Z.compare].
  unfold Phone.new. rewrite H1. cbn [app].
  unfold Main.add_phone2, given_phones.
  destruct phone2 as [p|].
  - destruct (truthy p) eqn:Et.
    + unfold ContactRecord.add_phone. cbn [set_phones phones].
      cbn [len List.length Z.of_nat Z.ltb Z.compare Pos.of_succ_nat
           Pos.compare Pos.compare_cont].
      unfold Phone.new.
      rewrite (bad_phone2_none _ H2 p eq_refl Et).
      cbn [app]. rewrite add_record_alloc. unfold set_phones.
      cbn [ContactRecord.name phones birthday].
      rewrite Hn. cbn [Name.value].
      rewrite (dict_set_absent _ _ _ Hc). reflexivity.
    + rewrite add_record_alloc. cbn [ContactRecord.name set_phones].
      rewrite Hn. cbn [Name.value].
      rewrite (dict_set_absent _ _ _ Hc). reflexivity.
  - rewrite add_record_alloc. cbn [ContactRecord.name set_phones].
    rewrite Hn. cbn [Name.value].
    rewrite (dict_set_absent _ _ _ Hc). reflexivity.
Qed.

Lemma Main_add_contact_cases (s : store) (name phone1 : str)
      (phone2 birthday_ : option str) :
  (snd (Main.add_contact name phone1 phone2 birthday_ s) = s /\
   exists p, fst (Main.add_contact name phone1 phone2 birthday_ s) = Ok p /\
             forall n, p <> Main.ContactAdded n) \/
  (exists r,
     truthy name = true /\
     dict_contains (data s) name = false /\
     Phone.bad_format phone1 = false /\ Main.bad_phone2 phone2 = None /\
     Main.Record_new name birthday_ = Ok r /\
     Main.add_contact name phone1 phone2 birthday_ s
     = (Ok (Main.ContactAdded name),
        mk (objects s ++ [set_phones r (given_phones phone1 phone2)])
           (data s ++ [(name, List.length (objects s))]))).
Proof.
  unfold Main.add_contact.
  destruct (truthy name) eqn:Et;
    [|left; split; [reflexivity | eexists; split;
                                  [reflexivity | discriminate]]].
  destruct (dict_contains (data s) name) eqn:Hc;
    [left; split; [reflexivity | eexists; split;
                                 [reflexivity | discriminate]]|].
  destruct (Phone.bad_format phone1) eqn:H1;
    [left; split; [reflexivity | eexists; split;
                                 [reflexivity | discriminate]]|].
  destruct (Main.bad_phone2 phone2) as [p|] eqn:H2;
    [left; split; [reflexivity | eexists; split;
                                 [reflexivity | discriminate]]|].
  destruct (Main.Record_new name birthday_) as [r|[m]] eqn:Hr;
    [|left; split; [reflexivity | eexists; split;
                                  [reflexivity | discriminate]]].
  right. exists r.
  destruct (Record_new_inv _ _ _ Hr) as [Hn [Hp _]].
  rewrite (Main_add_contact_finish s name phone1 phone2 r) by assumption.
  auto 10.
Qed.

End Copies.

Section CopiesOfAddContact.

Import AddressBook.

Ltac refused :=
  split; [reflexivity|cbn [fst]; split; intros H; discriminate H].

Lemma phone2_field_checked (phone2 : option str) :
  Main.bad_phone2 phone2 = None ->
  phone2_field phone2
  = Ok match phone2 with
       | Some p => if truthy p then Some (Phone.mk p) else None
       | None => None
       end.
Proof.
  intros H. unfold phone2_field. destruct phone2 as [p|]; [|reflexivity].
  destruct (truthy p) eqn:Et; [|reflexivity].
  unfold Phone.new. rewrite (bad_phone2_none _ H p eq_refl Et).
  reflexivity.
Qed.

Lemma phone2_field_refused (phone2 : option str) (p : str) :
  Main.bad_phone2 phone2 = Some p ->
  phone2_field phone2 = Raise (ValueError (IncorrectPhoneFormat p)).
Proof.
  unfold Main.bad_phone2, phone2_field. destruct phone2 as [q|];
    [|discriminate].
  destruct (truthy q); cbn [andb]; [|discriminate].
  unfold Phone.new. destruct (Phone.bad_format q); [|discriminate].
  intros H. injection H as ->. reflexivity.
Qed.

(** X20: the two copies of [add_contact] leave the same book, and add or do
    not add together, on every name that [Name] of [classes.py] takes; they
    differ in what they print on a refusal. *)
Theorem add_contact_copies (s : store) (name phone1 : str)
        (phone2 birthday_ : option str) (n : Name.t) :
  Name.new name = Ok n ->
  snd (Main.add_contact name phone1 phone2 birthday_ s)
  = snd (add_contact name phone1 phone2 birthday_ s) /\
  (fst (Main.add_contact name phone1 phone2 birthday_ s)
   = Ok (Main.ContactAdded name) <->
   fst (add_contact name phone1 phone2 birthday_ s)
   = Ok (ContactAdded name)).
Proof.
  intros Hn. unfold Main.add_contact, add_contact.

  destruct (truthy name); [|refused].
  destruct (dict_contains (data s) name) eqn:Hc;
    [refused|].
  rewrite Hn.
  destruct (Phone.bad_format phone1) eqn:H1;
    [rewrite (Phone_new_raise _ H1); refused
    |rewrite (Phone_new_ok _ H1)].
  destruct (Main.bad_phone2 phone2) as [p|] eqn:H2.
  { rewrite (phone2_field_refused _ _ H2).
    refused. }
  rewrite (phone2_field_checked _ H2).
  destruct (Name_new_inv _ _ Hn) as [-> _]. cbn [Name.value].
  rewrite (Record_new_copy name birthday_ _ Hn).
  destruct (Main.Record_new name birthday_) as [r|[m]] eqn:Hr;
    [|refused].
  destruct (Record_new_inv _ _ _ Hr) as [Hname [Hp _]].
  rewrite (Main_add_contact_finish s name phone1 phone2 r) by assumption.
  rewrite (add_contact_finish s name (Phone.mk phone1) _ r phone1 phone2
             birthday_ Hc (Phone_new_ok _ H1) (phone2_field_checked _ H2)).
  2:{ rewrite (Record_new_copy name birthday_ _ Hn). exact Hr. }
  assert (E : new_phones_of (Phone.mk phone1)
                match phone2 with
                | Some p => if truthy p then Some (Phone.mk p) else None
                | None => None
                end
              = given_phones phone1 phone2).
  { unfold new_phones_of, given_phones.
    destruct phone2 as [p|]; [destruct (truthy p)|]; reflexivity. }
  rewrite E. cbn [fst snd]. split; [reflexivity|].
  split; reflexivity.
Qed.

Lemma add_contact_copies_witness :
  snd (Main.add_contact (lit "Bob") (lit "0123456789") None None empty)
  = snd (add_contact (lit "Bob") (lit "0123456789") None None empty) /\
  (fst (Main.add_contact (lit "Bob") (lit "0123456789") None None empty)
   = Ok (Main.ContactAdded (lit "Bob")) <->
   fst (add_contact (lit "Bob") (lit "0123456789") None None empty)
   = Ok (ContactAdded (lit "Bob"))).
Proof.
  refine (add_contact_copies empty (lit "Bob") (lit "0123456789") None None
            (Name.mk (lit "Bob")) _).
  reflexivity.
Defined.

End CopiesOfAddContact.

(** ** main.py: the program *)

Section Sessions.

Import AddressBook.
Import datetime.

Local Open Scope Z_scope.

Lemma isspace_cases (c : char) :
  Main.isspace c = true ->
  In c [9; 10; 11; 12; 13; 28; 29; 30; 31; 32; 133; 160; 5760; 8192; 8193;
        8194; 8195; 8196; 8197; 8198; 8199; 8200; 8201; 8202; 8232; 8233;
        8239; 8287; 12288]%N.
Proof.
  unfold Main.isspace. intros H.
  repeat first [rewrite orb_true_iff in H | rewrite andb_true_iff in H
               | rewrite N.leb_le in H | rewrite N.eqb_eq in H].
  assert (E : (c = 9 \/ c = 10 \/ c = 11 \/ c = 12 \/ c = 13 \/ c = 28 \/
               c = 29 \/ c = 30 \/ c = 31 \/ c = 32 \/ c = 133 \/
               c = 160 \/ c = 5760 \/ c = 8192 \/ c = 8193 \/ c = 8194 \/
               c = 8195 \/ c = 8196 \/ c = 8197 \/ c = 8198 \/ c = 8199 \/
               c = 8200 \/ c = 8201 \/ c = 8202 \/ c = 8232 \/ c = 8233 \/
               c = 8239 \/ c = 8287 \/ c = 12288)%N) by lia.
  cbn [In]. repeat (destruct E as [E | E]; [subst c; tauto|]).
  subst c. tauto.
Qed.

(** No digit of [str.isdigit] is whitespace. *)
Lemma isdigit_char_nonspace (c : char) :
  isdigit_char c = true -> Main.isspace c = false.
Proof.
  intros Hd. destruct (Main.isspace c) eqn:E; [|reflexivity].
  apply isspace_cases in E. cbn [In] in E.
  repeat (destruct E as [E | E]; [subst c; discriminate Hd|]).
  contradiction.
Qed.

Lemma phone_is_word (p : str) :
  Phone.bad_format p = false -> is_word p = true.
Proof.
  unfold Phone.bad_format. intros H. apply orb_false_iff in H.
  destruct H as [_ H]. apply negb_false_iff in H.
  apply isdigit_iff in H. destruct H as [Hne H].
  apply is_word_intro; [exact Hne|].
  apply Forall_forall. intros c Hc. rewrite Forall_forall in H.
  apply isdigit_char_nonspace. apply H. exact Hc.
Qed.

Lemma digit_char_nonspace (a : Z) :
  0 <= a <= 9 -> Main.isspace (digit_char a) = false.
Proof.
  intros H.
  assert (E : a = 0 \/ a = 1 \/ a = 2 \/ a = 3 \/ a = 4 \/
              a = 5 \/ a = 6 \/ a = 7 \/ a = 8 \/ a = 9) by lia.
  repeat (destruct E as [E | E]; [subst a; reflexivity|]).
  subst a; reflexivity.
Qed.

Lemma isoformat_is_word (y m d : Z) :
  0 <= y <= 9999 -> 0 <= m <= 99 -> 0 <= d <= 99 ->
  is_word (isoformat y m d) = true.
Proof.
  intros Hy Hm Hd. apply is_word_intro; [discriminate|].
  unfold isoformat. cbn [app].
  repeat (constructor;
          [first [reflexivity
                 | apply digit_char_nonspace; Z.div_mod_to_equations; lia]
          |]).
  constructor.
Qed.

Lemma is_word_truthy (w : str) : is_word w = true -> truthy w = true.
Proof.
  unfold is_word. intros H. apply andb_true_iff in H. tauto.
Qed.

(** One round of the [while] on a line of words that is not an exit. *)
Lemma main_loop_line (lower : str -> str) (int : str -> option Z)
      (clock : nat -> datetime.t) (fuel : nat) (s : store) (w : str)
      (ws : list str) (rest : list str) (k : nat) :
  Forall (fun x => is_word x = true) (w :: ws) ->
  str_eqb (line (w :: ws)) (lit "exit")
  || str_eqb (line (w :: ws)) (lit "6") = false ->
  Main.main_loop lower int clock (S fuel) s (line (w :: ws) :: rest) k
  = match snd (Main.command lower int clock (line (w :: ws)) s rest k) with
    | Main.Next s' inputs' k' =>
        (Main.PromptCommand
         :: fst (Main.command lower int clock (line (w :: ws)) s rest k)
         ++ fst (Main.main_loop lower int clock fuel s' inputs' k'),
         snd (Main.main_loop lower int clock fuel s' inputs' k'))
    | Main.Stop e =>
        (Main.PromptCommand
         :: fst (Main.command lower int clock (line (w :: ws)) s rest k),
         e)
    end.
Proof.
  intros Hw He. cbn [Main.main_loop].
  rewrite (strip_line (w :: ws)) by (discriminate || exact Hw).
  rewrite He. reflexivity.
Qed.

Lemma command_add (lower : str -> str) (int : str -> option Z)
      (clock : nat -> datetime.t) (name phone1 : str) (more : list str)
      (s : store) (inputs : list str) (k : nat) :
  lower (lit "add") = lit "add" ->
  Forall (fun x => is_word x = true) (name :: phone1 :: more) ->
  Main.command lower int clock (line (lit "add" :: name :: phone1 :: more))
               s inputs k
  = match Main.add_contact name phone1 (nth_error more 0)
                           (nth_error more 1) s with
    | (Ok p, s') => ([Main.AddReport p], Main.Next s' inputs k)
    | (Raise e, _) => ([], Main.Stop (Main.Raised e))
    end.
Proof.
  intros Hl Hw. unfold Main.command, Main.parse_command.
  rewrite (split_line (lit "add" :: name :: phone1 :: more))
    by (constructor; [reflexivity|exact Hw]).
  rewrite Hl. reflexivity.
Qed.

Lemma command_find (lower : str -> str) (int : str -> option Z)
      (clock : nat -> datetime.t) (name : str)
      (s : store) (inputs : list str) (k : nat) :
  lower (lit "find") = lit "find" -> is_word name = true ->
  Main.command lower int clock (line [lit "find"; name]) s inputs k
  = match Show.find_contact name s (clock k) with
    | Ok r => ([Main.Report r], Main.Next s inputs (S k))
    | Raise e => ([], Main.Stop (Main.Raised e))
    end.
Proof.
  intros Hl Hw. unfold Main.command, Main.parse_command.
  rewrite (split_line [lit "find"; name])
    by (repeat constructor; exact Hw).
  rewrite Hl. reflexivity.
Qed.

(** [add_contact] of [main.py] on arguments that pass its checks. *)
Lemma Main_add_contact_added (s : store) (name phone1 : str)
      (phone2 birthday_ : option str) (r : ContactRecord.t) :
  truthy name = true -> dict_contains (data s) name = false ->
  Phone.bad_format phone1 = false -> Main.bad_phone2 phone2 = None ->
  Main.Record_new name birthday_ = Ok r ->
  Main.add_contact name phone1 phone2 birthday_ s
  = (Ok (Main.ContactAdded name),
     AddressBook.mk
       (objects s ++ [set_phones r (given_phones phone1 phone2)])
        (data s ++ [(name, List.length (objects s))])).
Proof.
  intros Ht Hc H1 H2 Hr. unfold Main.add_contact.
  rewrite Ht, Hc, H1, H2, Hr.
  destruct (Record_new_inv _ _ _ Hr) as [Hn [Hp _]].
  apply Main_add_contact_finish; assumption.
Qed.

Lemma bad_phone2_good (p : str) :
  Phone.bad_format p = false -> Main.bad_phone2 (Some p) = None.
Proof.
  intros H. unfold Main.bad_phone2. rewrite H, andb_false_r. reflexivity.
Qed.

Lemma days_in_february (y : Z) :
  _is_leap y = true -> _days_in_month y 2 = 29.
Proof. intros H. unfold _days_in_month. rewrite H. reflexivity. Qed.

(** X21: through the commands, a contact born on 29 February ends the
    program: the contact is added with its two phones and its birthday, and
    when it is looked up in a common year the [ValueError] of
    [datetime.replace] leaves [find_contact] and the loop; [user_error]
    turns it into its return value, and no further line is read. *)
Theorem find_ends_program (lower : str -> str) (int : str -> option Z)
        (clock : nat -> datetime.t) (name phone1 phone2 : str) (y : Z)
        (rest : list str) (fuel : nat) :
  lower (lit "add") = lit "add" -> lower (lit "find") = lit "find" ->
  is_word name = true ->
  Phone.bad_format phone1 = false -> Phone.bad_format phone2 = false ->
  1 <= y <= 9999 -> _is_leap y = true ->
  valid (clock 0%nat) -> _is_leap (year (clock 0%nat)) = false ->
  Main.main lower int clock (S (S fuel))
    (line [lit "add"; name; phone1; phone2; isoformat y 2 29]
     :: line [lit "find"; name] :: rest)
  = ([Main.PromptCommand; Main.AddReport (Main.ContactAdded name);
      Main.PromptCommand],
     Main.Returns (Some (lit "Error: Invalid value format."))).
Proof.
  intros Hadd Hfind Hname H1 H2 Hy Hleap Hvalid Hcommon.
  assert (Hw1 := phone_is_word _ H1). assert (Hw2 := phone_is_word _ H2).
  assert (Hwb : is_word (isoformat y 2 29) = true)
    by (apply isoformat_is_word; lia).
  assert (Hb : Birthday.new (isoformat y 2 29)
               = Ok (Birthday.mk (isoformat y 2 29)
                                 (datetime.mk y 2 29 0 0 0 0))).
  { rewrite Birthday_iso_cases by lia.
    rewrite (days_in_february y Hleap).
    replace (1 <=? y) with true by (symmetry; apply Z.leb_le; lia).
    reflexivity. }
  unfold Main.main.
  rewrite main_loop_line; [|repeat constructor; assumption|reflexivity].
  rewrite command_add; [|assumption|repeat constructor; assumption].
  cbn [nth_error].
  rewrite (Main_add_contact_added empty name phone1 (Some phone2)
             (Some (isoformat y 2 29))
             (ContactRecord.mk (Name.mk name) []
                (Some (Birthday.mk (isoformat y 2 29)
                                   (datetime.mk y 2 29 0 0 0 0))))).
  2:{ apply is_word_truthy. exact Hname. }
  2:{ reflexivity. }
  2:{ exact H1. }
  2:{ apply bad_phone2_good. exact H2. }
  2:{ unfold Main.Record_new. rewrite (is_word_truthy _ Hwb), Hb.
      reflexivity. }
  cbn [snd fst app].
  rewrite main_loop_line; [|repeat constructor; assumption|reflexivity].
  rewrite command_find by assumption.
  unfold Show.find_contact, find. cbn [data empty objects app dict_get].
  rewrite str_eqb_refl. unfold deref. cbn [objects List.length nth_error].
  rewrite (Record__str__feb29
             _ (clock 0%nat)
             (Birthday.mk (isoformat y 2 29) (datetime.mk y 2 29 0 0 0 0)));
    try reflexivity; assumption.
Qed.

Lemma find_ends_program_witness :
  Main.main ascii_lower (fun _ => None)
    (fun _ => datetime.mk 2023 6 1 12 0 0 0) 2
    [lit "add Bob 0123456789 1111111111 2000-02-29"; lit "find Bob";
     lit "exit"]
  = ([Main.PromptCommand; Main.AddReport (Main.ContactAdded (lit "Bob"));
      Main.PromptCommand],
     Main.Returns (Some (lit "Error: Invalid value format."))).
Proof.
  refine (find_ends_program ascii_lower (fun _ => None)
            (fun _ => datetime.mk 2023 6 1 12 0 0 0)
            (lit "Bob") (lit "0123456789") (lit "1111111111") 2000
            [lit "exit"] 0 _ _ _ _ _ _ _ _ _);
    try reflexivity; lia.
Defined.

(** X22: through the commands, a contact added with one phone is found: the
    program prints its text, without a birthday, and goes on to the next
    command. *)
Theorem add_then_find_session (lower : str -> str) (int : str -> option Z)
        (clock : nat -> datetime.t) (name phone1 : str) (fuel : nat) :
  lower (lit "add") = lit "add" -> lower (lit "find") = lit "find" ->
  is_word name = true -> Phone.bad_format phone1 = false ->
  Main.main lower int clock (S (S (S fuel)))
    [line [lit "add"; name; phone1]; line [lit "find"; name]; lit "exit"]
  = ([Main.PromptCommand; Main.AddReport (Main.ContactAdded name);
      Main.PromptCommand;
      Main.Report
        (Show.RecordText
           (Show.MAGENTA ++ lit "Contact name: " ++ Show.AQUA ++ name
            ++ lit "," ++ Show.MAGENTA ++ lit " phones:" ++ Show.AQUA
            ++ lit " " ++ phone1 ++ lit ", " ++ Show.MAGENTA ++ lit " "
            ++ lit ", " ++ Show.MAGENTA ++ Show.RESET));
      Main.PromptCommand; Main.Goodbye],
     Main.Returns None).
Proof.
  intros Hadd Hfind Hname H1.
  assert (Hw1 := phone_is_word _ H1).
  unfold Main.main.
  rewrite main_loop_line; [|repeat constructor; assumption|reflexivity].
  rewrite command_add; [|assumption|repeat constructor; assumption].
  cbn [nth_error].
  rewrite (Main_add_contact_added empty name phone1 None None
             (ContactRecord.mk (Name.mk name) [] None)).
  2:{ apply is_word_truthy. exact Hname. }
  2:{ reflexivity. }
  2:{ exact H1. }
  2:{ reflexivity. }
  2:{ reflexivity. }
  cbn [snd fst app].
  rewrite main_loop_line; [|repeat constructor; assumption|reflexivity].
  rewrite command_find by assumption.
  unfold Show.find_contact, find. cbn [data empty objects app dict_get].
  rewrite str_eqb_refl. unfold deref. cbn [objects List.length nth_error].
  reflexivity.
Qed.

Lemma add_then_find_session_witness :
  Main.main ascii_lower (fun _ => None)
    (fun _ => datetime.mk 2023 6 1 12 0 0 0) 3
    [lit "add R2 0123456789"; lit "find R2"; lit "exit"]
  = ([Main.PromptCommand; Main.AddReport (Main.ContactAdded (lit "R2"));
      Main.PromptCommand;
      Main.Report
        (Show.RecordText
           (Show.MAGENTA ++ lit "Contact name: " ++ Show.AQUA ++ lit "R2"
            ++ lit "," ++ Show.MAGENTA ++ lit " phones:" ++ Show.AQUA
            ++ lit " " ++ lit "0123456789" ++ lit ", " ++ Show.MAGENTA
            ++ lit " " ++ lit ", " ++ Show.MAGENTA ++ Show.RESET));
      Main.PromptCommand; Main.Goodbye],
     Main.Returns None).
Proof.
  refine (add_then_find_session ascii_lower (fun _ => None)
            (fun _ => datetime.mk 2023 6 1 12 0 0 0)
            (lit "R2") (lit "0123456789") 0 _ _ _ _);
    reflexivity.
Defined.

(** X23: [add_contact] of [main.py] asks nothing of the characters of a
    name: a name that is not empty and not yet in the book, with phones of
    the right form and a birthday that [Birthday] takes, is added, and
    [find] then gives the new record with that name, the phones and the
    birthday; the other names are found as before. *)
Theorem Main_add_contact_any_name (s : store) (name phone1 : str)
        (phone2 birthday_ : option str) :
  truthy name = true -> find name s = None ->
  Phone.bad_format phone1 = false -> Main.bad_phone2 phone2 = None ->
  (forall raw, birthday_ = Some raw -> truthy raw = true ->
               exists bd, Birthday.new raw = Ok bd) ->
  fst (Main.add_contact name phone1 phone2 birthday_ s)
  = Ok (Main.ContactAdded name) /\
  exists r o,
    find name (snd (Main.add_contact name phone1 phone2 birthday_ s))
    = Some r /\
    deref (snd (Main.add_contact name phone1 phone2 birthday_ s)) r
    = Some o /\
    ContactRecord.name o = Name.mk name /\
    phones o = given_phones phone1 phone2 /\
    option_map Birthday.value (birthday o)
    = match birthday_ with
      | Some b => if truthy b then Some b else None
      | None => None
      end /\
    forall other, other <> name ->
      find other (snd (Main.add_contact name phone1 phone2 birthday_ s))
      = find other s.
Proof.
  intros Ht Hf H1 H2 Hb.
  assert (Hr : exists r0,
             Main.Record_new name birthday_ = Ok r0 /\
             option_map Birthday.value (birthday r0)
             = match birthday_ with
               | Some b => if truthy b then Some b else None
               | None => None
               end).
  { unfold Main.Record_new. destruct birthday_ as [raw|].
    - destruct (truthy raw) eqn:Er.
      + destruct (Hb raw eq_refl Er) as [bd Ebd]. rewrite Ebd.
        cbn [bind]. eexists. split; [reflexivity|].
        cbn [birthday option_map]. unfold Birthday.new in Ebd.
        destruct (strptime.run raw) as [d|[m]]; [|discriminate].
        injection Ebd as <-. reflexivity.
      + eexists. split; reflexivity.
    - eexists. split; reflexivity. }
  destruct Hr as [r0 [Hr Hbd]].
  assert (Hc : dict_contains (data s) name = false)
    by (apply dict_contains_false_get; exact Hf).
  rewrite (Main_add_contact_added s name phone1 phone2 birthday_ r0)
    by assumption.
  cbn [fst snd]. split; [reflexivity|].
  exists (List.length (objects s)),
         (set_phones r0 (given_phones phone1 phone2)).
  unfold find in *. cbn [data].
  split.
  { rewrite dict_get_app, Hf. simpl. rewrite str_eqb_refl. reflexivity. }
  split.
  { unfold deref. cbn [objects].
    rewrite nth_error_app2 by lia. rewrite Nat.sub_diag. reflexivity. }
  destruct (Record_new_inv _ _ _ Hr) as [Hn _].
  split; [exact Hn|]. split; [reflexivity|]. split; [exact Hbd|].
  intros other Ho. rewrite dict_get_app. simpl.
  assert (E' : str_eqb name other = false)
    by (apply str_eqb_neq; congruence).
  rewrite E'. destruct (dict_get (data s) other); reflexivity.
Qed.

Lemma Main_add_contact_any_name_witness :
  fst (Main.add_contact (lit "R2-D2") (lit "0123456789") None None empty)
  = Ok (Main.ContactAdded (lit "R2-D2")) /\
  exists r o,
    find (lit "R2-D2")
         (snd (Main.add_contact (lit "R2-D2") (lit "0123456789") None None
                                empty))
    = Some r /\
    deref (snd (Main.add_contact (lit "R2-D2") (lit "0123456789") None
                                 None empty)) r
    = Some o /\
    ContactRecord.name o = Name.mk (lit "R2-D2") /\
    phones o = given_phones (lit "0123456789") None /\
    option_map Birthday.value (birthday o) = None /\
    forall other, other <> lit "R2-D2" ->
      find other
           (snd (Main.add_contact (lit "R2-D2") (lit "0123456789") None
                                  None empty))
      = find other empty.
Proof.
  refine (Main_add_contact_any_name empty (lit "R2-D2") (lit "0123456789")
            None None _ _ _ _ _); try reflexivity.
  intros raw H. discriminate H.
Defined.

Lemma pages_unfold (lower : str -> str) (clock : nat -> datetime.t)
      (inputs : list str) (g : generator) (s : store) (k : nat) :
  Main.pages lower clock inputs g s k
  = match next g s with
    | (None, _) => ([], Main.Next s inputs k)
    | (Some page, g') =>
        let r := Show.print_records page s clock k in
        let texts :=
          map (fun t => Main.Report (Show.RecordText t)) (fst r) in
        let k' := (k + List.length (fst r))%nat in
        match snd r with
        | Raise (ValueError _) =>
            (texts ++ [Main.InvalidNumber], Main.Next s inputs (S k'))
        | Ok _ =>
            match inputs with
            | [] => (texts ++ [Main.PromptShowMore],
                     Main.Stop Main.EndOfInput)
            | show_more :: rest =>
                if negb (str_eqb (lower show_more) (lit "2"))
                then (texts ++ [Main.PromptShowMore], Main.Next s rest k')
                else
                  let r' := Main.pages lower clock rest g' s k' in
                  (texts ++ Main.PromptShowMore :: fst r', snd r')
            end
        end
    end.
Proof. destruct inputs; reflexivity. Qed.

(** *** What ends the program *)

Lemma pages_suffix (lower : str -> str) (clock : nat -> datetime.t)
      (inputs : list str) :
  forall (g : generator) (s : store) (k : nat),
    match snd (Main.pages lower clock inputs g s k) with
    | Main.Next s' inputs' _ => s' = s /\ exists pre, inputs = pre ++ inputs'
    | Main.Stop e => e = Main.EndOfInput
    end.
Proof.
  induction inputs as [|a rest IH]; intros g s k; rewrite pages_unfold;
    destruct (next g s) as [[page|] g']; cbv zeta;
    try (cbn [snd]; split; [reflexivity|exists []; reflexivity]);
    destruct (snd (Show.print_records page s clock k)) as [u|[m]];
    try (cbn [snd]; split; [reflexivity|exists []; reflexivity]).
  - reflexivity.
  - destruct (negb (str_eqb (lower a) (lit "2"))); cbn [snd].
    + split; [reflexivity|exists [a]; reflexivity].
    + specialize (IH g' s
                     (k + List.length
                            (fst (Show.print_records page s clock k)))%nat).
      destruct (snd (Main.pages lower clock rest g' s _))
        as [s' inputs' k'|e]; [|exact IH].
      destruct IH as [-> [pre ->]]. split; [reflexivity|].
      exists (a :: pre). reflexivity.
Qed.

Lemma Main_add_contact_ok (s : store) (name phone1 : str)
      (phone2 birthday_ : option str) :
  exists p, fst (Main.add_contact name phone1 phone2 birthday_ s) = Ok p.
Proof.
  destruct (Main_add_contact_cases s name phone1 phone2 birthday_)
    as [[_ [p [E _]]] | [r [_ [_ [_ [_ [_ E]]]]]]].
  - exists p. exact E.
  - rewrite E. eexists. reflexivity.
Qed.

(** What one command does to the book and to the input, and what can
    end the program in it. *)
Lemma command_cases (lower : str -> str) (int : str -> option Z)
      (clock : nat -> datetime.t) (user_input : str) (s : store)
      (inputs : list str) (k : nat) :
  match snd (Main.command lower int clock user_input s inputs k) with
  | Main.Next s' inputs' _ =>
      (exists pre, inputs = pre ++ inputs') /\
      (s' = s \/
       (exists name phone1 phone2 birthday_,
          (forall raw, birthday_ = Some raw ->
                       In raw (Main.split user_input)) /\
          s' = snd (Main.add_contact name phone1 phone2 birthday_ s)) \/
       (exists name record old_phone new_phone res,
          find name s = Some record /\
          call record (Main.edit_phone old_phone new_phone) s
          = Some (res, s')) \/
       (exists name, s' = snd (Show.delete_contact name s)))
  | Main.Stop e =>
      e = Main.EndOfInput \/
      exists name x, e = Main.Raised x /\
                     Show.find_contact name s (clock k) = Raise x
  end.
Proof.
  unfold Main.command, Main.parse_command.
  destruct (Main.split user_input) as [|first args] eqn:Es.
  { cbn. split; [exists []; reflexivity|left; reflexivity]. }
  set (action := Some (lower first)).
  destruct (Main.action_is action "add").
  { destruct args as [|name [|phone1 more]];
      try (cbn [snd]; split; [exists []; reflexivity|left; reflexivity]).
    destruct (Main_add_contact_ok s name phone1 (nth_error more 0)
                                  (nth_error more 1)) as [p Ep].
    destruct (Main.add_contact name phone1 (nth_error more 0)
                               (nth_error more 1) s) as [res s'] eqn:E.
    cbn [fst] in Ep. subst res. cbn [snd].
    split; [exists []; reflexivity|]. right. left.
    exists name, phone1, (nth_error more 0), (nth_error more 1).
    split; [|rewrite E; reflexivity].
    intros raw Hraw. apply nth_error_In in Hraw.
    right. right. right. exact Hraw. }
  destruct (Main.action_is action "show" || Main.action_is action "2").
  { destruct inputs as [|page_size rest]; [left; reflexivity|].
    destruct (int page_size) as [n|].
    - cbv zeta. cbn [snd].
      pose proof (pages_suffix lower clock rest (iterator n) s k) as H.
      destruct (snd (Main.pages lower clock rest (iterator n) s k))
        as [s' inputs' k'|e]; [|left; exact H].
      destruct H as [-> [pre ->]].
      split; [exists (page_size :: pre); reflexivity|left; reflexivity].
    - cbn [snd]. split; [exists [page_size]; reflexivity|left; reflexivity]. }
  destruct (Main.action_is action "edit").
  { destruct args as [|name [|old_phone [|new_phone [|x args']]]];
      try (cbn [snd]; split; [exists []; reflexivity|left; reflexivity]).
    destruct (find name s) as [record|] eqn:Ef;
      [|cbn [snd]; split; [exists []; reflexivity|left; reflexivity]].
    destruct (call record (Main.edit_phone old_phone new_phone) s)
      as [[[u|[m]] s']|] eqn:Ec; cbn [snd];
      (split; [exists []; reflexivity|]).
    - right. right. left.
      exists name, record, old_phone, new_phone, (Ok u). auto.
    - right. right. left.
      exists name, record, old_phone, new_phone, (Raise (ValueError m)).
      auto.
    - left. reflexivity. }
  destruct (Main.action_is action "find").
  { destruct args as [|name [|x args']];
      try (cbn [snd]; split; [exists []; reflexivity|left; reflexivity]).
    destruct (Show.find_contact name s (clock k)) as [r|e] eqn:Ef;
      cbn [snd].
    - split; [exists []; reflexivity|left; reflexivity].
    - right. exists name, e. auto. }
  destruct (Main.action_is action "delete").
  { destruct args as [|name [|x args']];
      try (cbn [snd]; split; [exists []; reflexivity|left; reflexivity]).
    cbv zeta. cbn [snd]. split; [exists []; reflexivity|].
    right. right. right. exists name. reflexivity. }
  cbn [snd]. split; [exists []; reflexivity|left; reflexivity].
Qed.

Lemma suffix_length {A : Type} (pre l l' : list A) :
  l = pre ++ l' -> (List.length l' <= List.length l)%nat.
Proof. intros ->. rewrite length_app. lia. Qed.

Lemma main_loop_fuel (lower : str -> str) (int : str -> option Z)
      (clock : nat -> datetime.t) (fuel : nat) :
  forall (fuel' : nat) (s : store) (inputs : list str) (k : nat),
    (List.length inputs < fuel)%nat -> (List.length inputs < fuel')%nat ->
    Main.main_loop lower int clock fuel s inputs k
    = Main.main_loop lower int clock fuel' s inputs k /\
    snd (Main.main_loop lower int clock fuel s inputs k) <> Main.OutOfFuel.
Proof.
  induction fuel as [|fuel IH]; intros fuel' s inputs k H H'; [lia|].
  destruct fuel' as [|fuel']; [lia|]. cbn [Main.main_loop].
  destruct inputs as [|l rest]; [split; [reflexivity|discriminate]|].
  destruct (str_eqb (Main.strip l) (lit "exit")
            || str_eqb (Main.strip l) (lit "6"));
    [split; [reflexivity|discriminate]|].
  cbv zeta.
  pose proof (command_cases lower int clock (Main.strip l) s rest k) as Hc.
  destruct (snd (Main.command lower int clock (Main.strip l) s rest k))
    as [s' inputs' k'|e].
  - destruct Hc as [[pre Hpre] _]. apply suffix_length in Hpre.
    cbn [List.length] in H, H'.
    destruct (IH fuel' s' inputs' k') as [E Hn]; [lia|lia|].
    rewrite E. cbn [snd]. split; [reflexivity|].
    rewrite <- E. exact Hn.
  - cbn [snd]. split; [reflexivity|].
    destruct Hc as [-> | [name [x [-> _]]]]; discriminate.
Qed.

(** X25: the program reads a line in every round of its loop: on an input of
    n lines it ends within n + 1 rounds, whatever the lines are, and more
    rounds allowed change nothing. *)
Theorem main_ends (lower : str -> str) (int : str -> option Z)
        (clock : nat -> datetime.t) (inputs : list str) (fuel : nat) :
  (List.length inputs < fuel)%nat ->
  Main.main lower int clock fuel inputs
  = Main.main lower int clock (S (List.length inputs)) inputs /\
  snd (Main.main lower int clock fuel inputs) <> Main.Unfinished.
Proof.
  intros H. unfold Main.main.
  destruct (main_loop_fuel lower int clock fuel (S (List.length inputs))
              empty inputs 0%nat H (Nat.lt_succ_diag_r _)) as [E Hn].
  rewrite E. split; [reflexivity|]. rewrite <- E. cbn [snd].
  destruct (snd (Main.main_loop lower int clock fuel empty inputs 0))
    as [|[m]| |]; try discriminate.
  contradiction Hn. reflexivity.
Qed.

Lemma main_ends_witness :
  Main.main ascii_lower (fun _ => None)
    (fun _ => datetime.mk 2023 6 1 12 0 0 0) 7
    [lit "add Bob 0123456789"; lit "exit"]
  = Main.main ascii_lower (fun _ => None)
      (fun _ => datetime.mk 2023 6 1 12 0 0 0) 3
      [lit "add Bob 0123456789"; lit "exit"] /\
  snd (Main.main ascii_lower (fun _ => None)
         (fun _ => datetime.mk 2023 6 1 12 0 0 0) 7
         [lit "add Bob 0123456789"; lit "exit"])
  <> Main.Unfinished.
Proof.
  refine (main_ends ascii_lower (fun _ => None)
            (fun _ => datetime.mk 2023 6 1 12 0 0 0)
            [lit "add Bob 0123456789"; lit "exit"] 7 _).
  cbn [List.length]. lia.
Defined.


Lemma Record__str__plain (self : ContactRecord.t) (today : datetime.t) :
  (forall b, birthday self = Some b ->
     constructed b /\
     ~ (month (Birthday.date b) = 2 /\ day (Birthday.date b) = 29)) ->
  valid today -> year today < 9999 ->
  exists text, Show.Record__str__ self today = Ok text.
Proof.
  intros Hp Ht Hy. apply Record__str__ok.
  destruct (birthday self) as [b|] eqn:Hb; [right | left; reflexivity].
  destruct (Hp b eq_refl) as [Hc Hn].
  destruct (days_to_birthday_total self today b Hb Hc Ht Hn Hy) as [n E].
  eauto.
Qed.












(** *** The show command, page by page *)

Lemma print_records_plain (records : list ref) (s : store)
      (clock : nat -> datetime.t) :
  (forall r, In r records ->
     exists o, deref s r = Some o /\
       forall b, birthday o = Some b ->
         constructed b /\
         ~ (month (Birthday.date b) = 2 /\ day (Birthday.date b) = 29)) ->
  (forall j, valid (clock j) /\ year (clock j) < 9999) ->
  forall k,
    snd (Show.print_records records s clock k) = Ok tt /\
    List.length (fst (Show.print_records records s clock k))
    = List.length records.
Proof.
  intros Hrec Hclock. induction records as [|r records IH]; intros k;
    cbn [Show.print_records]; [auto|].
  destruct (Hrec r (or_introl eq_refl)) as [o [Hd Hb]]. rewrite Hd.
  destruct (Hclock k) as [Hv Hy].
  destruct (Record__str__plain o (clock k) Hb Hv Hy) as [text E].
  rewrite E. cbn [fst snd List.length].
  destruct (IH (fun r' H => Hrec r' (or_intror H)) (S k)) as [H1 H2].
  rewrite H1, H2. auto.
Qed.

Lemma print_records_app (l1 l2 : list ref) (s : store)
      (clock : nat -> datetime.t) :
  forall k,
    snd (Show.print_records l1 s clock k) = Ok tt ->
    Show.print_records (l1 ++ l2) s clock k
    = (fst (Show.print_records l1 s clock k)
       ++ fst (Show.print_records l2 s clock
                 (k + List.length (fst (Show.print_records l1 s clock k)))),
       snd (Show.print_records l2 s clock
              (k + List.length (fst (Show.print_records l1 s clock k))))).
Proof.
  induction l1 as [|r l1 IH]; intros k H; cbn [app Show.print_records].
  - cbn [fst List.length]. rewrite Nat.add_0_r.
    destruct (Show.print_records l2 s clock k). reflexivity.
  - cbn [Show.print_records] in H. destruct (deref s r) as [o|].
    + destruct (Show.Record__str__ o (clock k)) as [text|e];
        [|discriminate H].
      cbn [fst snd] in H |- *. rewrite (IH (S k) H).
      cbn [fst snd app List.length]. rewrite Nat.add_succ_r. reflexivity.
    + apply IH. exact H.
Qed.

Lemma printed_pages_concat (s : store) (clock : nat -> datetime.t)
      (pages : list (list ref)) :
  forall k,
    (forall page, In page pages ->
       forall j, snd (Show.print_records page s clock j) = Ok tt) ->
    List.concat (printed_pages s clock pages k)
    = fst (Show.print_records (List.concat pages) s clock k).
Proof.
  induction pages as [|page pages IH]; intros k H; [reflexivity|].
  cbn [printed_pages List.concat].
  rewrite (IH _ (fun p Hp => H p (or_intror Hp))).
  rewrite (print_records_app page (List.concat pages) s clock k
             (H page (or_introl eq_refl) k)).
  reflexivity.
Qed.

(** The loop over the pages when every answer is 2: it follows the
    generator page by page. *)
Lemma pages_follow (lower : str -> str) (clock : nat -> datetime.t)
      (s : store) (rest : list str) (l : list (list ref)) :
  lower (lit "2") = lit "2" ->
  forall (g : generator) (k M : nat),
    drive g (repeat s (S (List.length l))) = (l, Finished) ->
    (forall page, In page l ->
       forall j, snd (Show.print_records page s clock j) = Ok tt) ->
    (List.length l <= M)%nat ->
    Main.pages lower clock (repeat (lit "2") M ++ rest) g s k
    = (List.concat (map shown_page (printed_pages s clock l k)),
       Main.Next s (repeat (lit "2") (M - List.length l) ++ rest)
         (k + List.length (List.concat (printed_pages s clock l k)))).
Proof.
  intros H2. induction l as [|page l IH]; intros g k M Hd Hok HM;
    rewrite pages_unfold.
  - change (repeat s (S (List.length (@nil (list ref))))) with [s] in Hd.
    rewrite drive_cons in Hd.
    destruct (next g s) as [[page|] g']; [discriminate Hd|].
    cbn [printed_pages map List.concat List.length].
    rewrite Nat.sub_0_r, Nat.add_0_r. reflexivity.
  - change (repeat s (S (List.length (page :: l))))
      with (s :: repeat s (S (List.length l))) in Hd.
    rewrite drive_cons in Hd.
    destruct (next g s) as [[page'|] g']; [|discriminate Hd].
    assert (Ep : page' = page) by congruence. subst page'.
    assert (Hd' : drive g' (repeat s (S (List.length l))) = (l, Finished)).
    { destruct (drive g' (repeat s (S (List.length l)))) as [a b].
      cbn [fst snd] in Hd. congruence. }
    cbv zeta. rewrite (Hok page (or_introl eq_refl) k).
    destruct M as [|M]; [cbn [List.length] in HM; lia|].
    cbn [repeat app]. rewrite H2.
    change (negb (str_eqb (lit "2") (lit "2"))) with false. cbv iota.
    rewrite (IH g' _ M Hd' (fun p Hp => Hok p (or_intror Hp)))
      by (cbn [List.length] in HM; lia).
    cbn [fst snd printed_pages map List.concat List.length].
    unfold shown_page at 2. rewrite <- app_assoc. cbn [app].
    rewrite length_app, Nat.add_assoc. reflexivity.
Qed.

(** A generator that has finished within some requests has finished
    one request after its last page. *)
Lemma drive_exact (s : store) (a : nat) :
  forall (g : generator) (l : list (list ref)),
    drive g (repeat s a) = (l, Finished) ->
    drive g (repeat s (S (List.length l))) = (l, Finished).
Proof.
  induction a as [|a IH]; intros g l H.
  - cbn [repeat drive] in H. injection H as <- ->. reflexivity.
  - change (repeat s (S a)) with (s :: repeat s a) in H.
    rewrite drive_cons in H.
    destruct (next g s) as [[page|] g'] eqn:En.
    + destruct (drive g' (repeat s a)) as [l' gf] eqn:Ed.
      cbn [fst snd] in H. injection H as <- ->.
      change (repeat s (S (List.length (page :: l'))))
        with (s :: repeat s (S (List.length l'))).
      rewrite drive_cons, En, (IH g' l' Ed). reflexivity.
    + injection H as <- ->.
      change (repeat s (S (List.length (@nil (list ref))))) with [s].
      rewrite drive_cons, En. reflexivity.
Qed.

(** X27: the show command on a book without a birthday on 29 February,
    with a page size of at least 1 and the answer 2 to every question:
    the program prints every record of the book once, in the order of
    the book, in pages of the size asked, the last one possibly
    shorter, and asks after each page whether to go on; it reads one
    answer for each page and goes back to the menu with the book as it
    was. *)
Theorem show_prints_pages (lower : str -> str) (int : str -> option Z)
        (clock : nat -> datetime.t) (s : store) (page_size : str) (n : Z)
        (M : nat) (rest : list str) (k : nat) :
  lower (lit "show") = lit "show" -> lower (lit "2") = lit "2" ->
  int page_size = Some n -> 1 <= n -> plain_book s ->
  (forall j, valid (clock j) /\ year (clock j) < 9999) ->
  (List.length (data s) <= M)%nat ->
  exists pages,
    paged (Z.to_nat n) (dict_values (data s)) pages /\
    Main.command lower int clock (lit "show") s
                 (page_size :: repeat (lit "2") M ++ rest) k
    = (Main.PromptPageSize
       :: List.concat (map shown_page (printed_pages s clock pages k)),
       Main.Next s (repeat (lit "2") (M - List.length pages) ++ rest)
         (k + List.length (data s))) /\
    List.concat (printed_pages s clock pages k)
    = fst (Show.print_records (dict_values (data s)) s clock k) /\
    snd (Show.print_records (dict_values (data s)) s clock k) = Ok tt /\
    List.length (fst (Show.print_records (dict_values (data s)) s clock k))
    = List.length (data s).
Proof.
  intros Hl H2 Hi Hn Hp Hclock HM.
  set (records := dict_values (data s)).
  assert (Hlen : List.length records = List.length (data s))
    by (unfold records, dict_values; apply length_map).
  assert (Hnext : next (iterator n) s = loop (len records) records 0 n).
  { cbn [next iterator]. unfold len. rewrite Hlen. reflexivity. }
  destruct (drive_loop_paged (List.length records) (iterator n) s records
              0 n Hn (Z.le_refl 0) Hnext) as [Hfin Hpaged];
    [unfold len; lia|].
  cbn [Z.to_nat skipn] in Hpaged.
  set (l := fst (drive (iterator n) (repeat s (S (List.length records)))))
    in *.
  assert (Hd : drive (iterator n) (repeat s (S (List.length l)))
               = (l, Finished)).
  { apply (drive_exact s (S (List.length records))). subst l.
    destruct (drive (iterator n) (repeat s (S (List.length records)))).
    cbn [fst snd] in Hfin |- *. rewrite Hfin. reflexivity. }
  assert (Hall : forall r, In r records ->
            exists o, deref s r = Some o /\
              forall b, birthday o = Some b ->
                constructed b /\
                ~ (month (Birthday.date b) = 2 /\
                   day (Birthday.date b) = 29))
    by exact Hp.
  assert (Hok : forall page, In page l ->
            forall j, snd (Show.print_records page s clock j) = Ok tt).
  { intros page Hpage j.
    apply (print_records_plain page s clock); [|exact Hclock].
    intros r Hr. apply Hall. rewrite <- (paged_concat _ _ _ Hpaged).
    apply in_concat. exists page. auto. }
  assert (Hcount : (List.length l <= M)%nat).
  { pose proof (paged_count (Z.to_nat n) records l ltac:(lia) Hpaged).
    lia. }
  destruct (print_records_plain records s clock Hall Hclock k)
    as [Hsnd Hfst].
  assert (Hcat : List.concat (printed_pages s clock l k)
                 = fst (Show.print_records records s clock k)).
  { rewrite (printed_pages_concat s clock l k Hok).
    rewrite (paged_concat _ _ _ Hpaged). reflexivity. }
  exists l. split; [exact Hpaged|].
  split; [|split; [exact Hcat|split; [exact Hsnd|rewrite Hfst; exact Hlen]]].
  unfold Main.command.
  change (Main.parse_command lower (lit "show"))
    with (Some (lower (lit "show")), @nil str).
  rewrite Hl.
  change (Main.action_is (Some (lit "show")) "add") with false.
  change (Main.action_is (Some (lit "show")) "show") with true.
  cbv iota. cbn [orb]. rewrite Hi.
  rewrite (pages_follow lower clock s rest l H2 (iterator n) k M Hd Hok
             Hcount).
  cbn [fst snd]. rewrite Hcat, Hfst, Hlen. reflexivity.
Qed.

Lemma show_prints_pages_witness :
  let s := AddressBook.mk
             [ContactRecord.mk (Name.mk (lit "Ann"))
                [Phone.mk (lit "0123456789")] None;
              ContactRecord.mk (Name.mk (lit "Bob"))
                [Phone.mk (lit "1111111111")] None]
             [(lit "Ann", 0%nat); (lit "Bob", 1%nat)] in
  let clock := fun _ : nat => datetime.mk 2023 6 1 12 0 0 0 in
  exists pages,
    paged (Z.to_nat 1) (dict_values (data s)) pages /\
    Main.command ascii_lower (fun _ => Some 1) clock (lit "show") s
                 (lit "1" :: repeat (lit "2") 2 ++ [lit "exit"]) 0
    = (Main.PromptPageSize
       :: List.concat (map shown_page (printed_pages s clock pages 0)),
       Main.Next s (repeat (lit "2") (2 - List.length pages)
                    ++ [lit "exit"])
         (0 + List.length (data s))) /\
    List.concat (printed_pages s clock pages 0)
    = fst (Show.print_records (dict_values (data s)) s clock 0) /\
    snd (Show.print_records (dict_values (data s)) s clock 0) = Ok tt /\
    List.length (fst (Show.print_records (dict_values (data s)) s clock 0))
    = List.length (data s).
Proof.
  cbv zeta.
  refine (show_prints_pages ascii_lower (fun _ => Some 1)
            (fun _ : nat => datetime.mk 2023 6 1 12 0 0 0)
            (AddressBook.mk
               [ContactRecord.mk (Name.mk (lit "Ann"))
                  [Phone.mk (lit "0123456789")] None;
                ContactRecord.mk (Name.mk (lit "Bob"))
                  [Phone.mk (lit "1111111111")] None]
               [(lit "Ann", 0%nat); (lit "Bob", 1%nat)])
            (lit "1") 1 2 [lit "exit"] 0 _ _ _ _ _ _ _);
    try reflexivity.
  - intros r [<- | [<- | []]]; eexists; (split; [reflexivity|]);
      intros b Hb; discriminate Hb.
  - intros j. split; [reflexivity|cbn [year]; lia].
Defined.

(** The texts that the print loop writes, one by one. *)
Lemma print_records_nth (records : list ref) (s : store)
      (clock : nat -> datetime.t) :
  (forall r, In r records -> exists o, deref s r = Some o) ->
  forall k,
    snd (Show.print_records records s clock k) = Ok tt ->
    forall i r, nth_error records i = Some r ->
      exists o t,
        deref s r = Some o /\
        Show.Record__str__ o (clock (k + i)%nat) = Ok t /\
        nth_error (fst (Show.print_records records s clock k)) i = Some t.
Proof.
  intros Hrefs. induction records as [|r0 records IH]; intros k Hok i r Hi;
    [destruct i; discriminate Hi|].
  destruct (Hrefs r0 (or_introl eq_refl)) as [o0 Hd0].
  cbn [Show.print_records] in Hok |- *. rewrite Hd0 in Hok |- *.
  destruct (Show.Record__str__ o0 (clock k)) as [t0|e] eqn:E0;
    [|discriminate Hok].
  cbn [fst snd] in Hok |- *. destruct i as [|i].
  - injection Hi as <-. exists o0, t0. rewrite Nat.add_0_r. auto.
  - cbn [nth_error] in Hi |- *.
    destruct (IH (fun r' H => Hrefs r' (or_intror H)) (S k) Hok i r Hi)
      as [o [t [H1 [H2 H3]]]].
    exists o, t. rewrite Nat.add_succ_r. auto.
Qed.

(** The print loop stops at the first record whose text raises. *)
Lemma print_records_stop (before after : list ref) (r : ref)
      (o : ContactRecord.t) (e : exn) (s : store)
      (clock : nat -> datetime.t) (k : nat) :
  snd (Show.print_records before s clock k) = Ok tt ->
  deref s r = Some o ->
  Show.Record__str__ o
    (clock (k + List.length (fst (Show.print_records before s clock k)))%nat)
  = Raise e ->
  Show.print_records (before ++ r :: after) s clock k
  = (fst (Show.print_records before s clock k), Raise e).
Proof.
  intros Hok Hd He. rewrite (print_records_app before (r :: after) s clock k Hok).
  cbn [Show.print_records]. rewrite Hd, He. cbn [fst snd].
  rewrite app_nil_r. reflexivity.
Qed.

(** X24: in the show command the [ValueError] that a birthday of 29
    February raises in a common year is caught by the [except] meant for
    [int].  When the first page holds such a record, after records
    without such a birthday, the program prints the texts of exactly
    those records before it, each the text of its record in their order,
    then that the number is invalid; it prints nothing of that record
    and of those after it, reads no answer, and goes back to the menu
    with the book as it was. *)
Theorem show_reports_feb29_as_number (lower : str -> str)
        (int : str -> option Z) (clock : nat -> datetime.t) (s : store)
        (page_size : str) (n : Z) (rest : list str) (k : nat)
        (before after : list ref) (r : ref) (o : ContactRecord.t)
        (b : Birthday.t) :
  lower (lit "show") = lit "show" -> int page_size = Some n ->
  slice (dict_values (data s)) 0 n = before ++ r :: after ->
  (forall r', In r' before ->
     exists o', deref s r' = Some o' /\
       forall b', birthday o' = Some b' ->
         constructed b' /\
         ~ (month (Birthday.date b') = 2 /\ day (Birthday.date b') = 29)) ->
  deref s r = Some o -> birthday o = Some b ->
  month (Birthday.date b) = 2 -> day (Birthday.date b) = 29 ->
  (forall j, valid (clock j) /\ _is_leap (year (clock j)) = false /\
             year (clock j) < 9999) ->
  exists texts,
    Main.command lower int clock (lit "show") s (page_size :: rest) k
    = (Main.PromptPageSize
       :: map (fun t => Main.Report (Show.RecordText t)) texts
       ++ [Main.InvalidNumber],
       Main.Next s rest (S (k + List.length before))) /\
    List.length texts = List.length before /\
    forall i r', nth_error before i = Some r' ->
      exists o' t,
        deref s r' = Some o' /\
        Show.Record__str__ o' (clock (k + i)%nat) = Ok t /\
        nth_error texts i = Some t.
Proof.
  intros Hl Hi Hpage Hbefore Hd Hb Hm Hday Hclock.
  assert (Hclock' : forall j, valid (clock j) /\ year (clock j) < 9999)
    by (intros j; destruct (Hclock j) as [H1 [_ H2]]; auto).
  destruct (print_records_plain before s clock Hbefore Hclock' k)
    as [Hok Hlen].
  assert (Hrefs : forall r', In r' before -> exists o', deref s r' = Some o').
  { intros r' Hr'. destruct (Hbefore r' Hr') as [o' [H _]]. eauto. }
  assert (Hraise : Show.Record__str__ o
                     (clock (k + List.length
                                   (fst (Show.print_records before s clock
                                                            k)))%nat)
                   = Raise (ValueError DayOutOfRange)).
  { destruct (Hclock (k + List.length
                            (fst (Show.print_records before s clock k)))%nat)
      as [Hv [Hc _]].
    apply (Record__str__feb29 o _ b); assumption. }
  exists (fst (Show.print_records before s clock k)).
  split; [|split; [exact Hlen|]].
  - unfold Main.command.
    change (Main.parse_command lower (lit "show"))
      with (Some (lower (lit "show")), @nil str).
    rewrite Hl.
    change (Main.action_is (Some (lit "show")) "add") with false.
    change (Main.action_is (Some (lit "show")) "show") with true.
    cbv iota. cbn [orb]. rewrite Hi. rewrite pages_unfold.
    cbn [next iterator]. unfold loop.
    assert (Hne : (0 <? len (data s)) = true).
    { apply Z.ltb_lt.
      assert (Hin : In r (slice (dict_values (data s)) 0 n))
        by (rewrite Hpage; apply in_or_app; right; left; reflexivity).
      apply In_slice in Hin. unfold dict_values in Hin.
      unfold len. destruct (data s); [contradiction|]. cbn [List.length].
      lia. }
    rewrite Hne. cbv zeta. cbn [Z.add]. rewrite Hpage.
    rewrite (print_records_stop before after r o
               (ValueError DayOutOfRange) s clock k Hok Hd Hraise).
    cbn [fst snd]. rewrite Hlen. reflexivity.
  - intros i r' Hi'.
    exact (print_records_nth before s clock Hrefs k Hok i r' Hi').
Qed.

Lemma show_reports_feb29_as_number_witness :
  let ann := ContactRecord.mk (Name.mk (lit "Ann"))
               [Phone.mk (lit "1111111111")] None in
  let bob := ContactRecord.mk (Name.mk (lit "Bob"))
               [Phone.mk (lit "0123456789")]
               (Some (Birthday.mk (lit "2000-02-29")
                                  (datetime.mk 2000 2 29 0 0 0 0))) in
  let s := AddressBook.mk [ann; bob]
             [(lit "Ann", 0%nat); (lit "Bob", 1%nat)] in
  let clock := fun _ : nat => datetime.mk 2023 6 1 12 0 0 0 in
  exists texts,
    Main.command ascii_lower (fun _ => Some 5) clock (lit "show") s
      [lit "5"; lit "exit"] 0
    = (Main.PromptPageSize
       :: map (fun t => Main.Report (Show.RecordText t)) texts
       ++ [Main.InvalidNumber],
       Main.Next s [lit "exit"] (S (0 + List.length [0%nat]))) /\
    List.length texts = List.length [0%nat] /\
    forall i r', nth_error [0%nat] i = Some r' ->
      exists o' t,
        deref s r' = Some o' /\
        Show.Record__str__ o' (clock (0 + i)%nat) = Ok t /\
        nth_error texts i = Some t.
Proof.
  cbv zeta.
  refine (show_reports_feb29_as_number ascii_lower (fun _ => Some 5)
            (fun _ : nat => datetime.mk 2023 6 1 12 0 0 0)
            (AddressBook.mk
               [ContactRecord.mk (Name.mk (lit "Ann"))
                  [Phone.mk (lit "1111111111")] None;
                ContactRecord.mk (Name.mk (lit "Bob"))
                  [Phone.mk (lit "0123456789")]
                  (Some (Birthday.mk (lit "2000-02-29")
                                     (datetime.mk 2000 2 29 0 0 0 0)))]
               [(lit "Ann", 0%nat); (lit "Bob", 1%nat)])
            (lit "5") 5 [lit "exit"] 0 [0%nat] [] 1%nat _ _
            _ _ _ _ _ _ _ _ _);
    try reflexivity.
  - intros r' [<- | []]. eexists. split; [reflexivity|].
    intros b' Hb'. discriminate Hb'.
  - intros j. split; [reflexivity|]. split; [reflexivity|cbn [year]; lia].
Defined.

End Sessions.
